(** * jenkins_exporter: a shallow embedding of [JenkinsCollector]

    The development follows [jenkins_exporter.py]: the decoded JSON payloads
    are Python values, the HTTP transport is an oracle that is asked once per
    [_api_call], the job tree flattener threads the log of requests, and the
    metric projection threads the two dictionaries of gauge families held by
    the collector object. *)

From Stdlib Require Import ZArith String Ascii List Lia DecimalString.
From Corelib Require PrimFloat SpecFloat FloatOps.
From stdpp Require Import base option list gmap strings.
Import ListNotations.
Local Open Scope string_scope.
Local Open Scope list_scope.
Local Open Scope Z_scope.
Set Warnings "-register-all".

(** ** Python values

    What [response.json()] hands to the collector.  A JSON object keeps the
    order of its members, so it is an association list; [dict_lookup] reads
    the first binding of a key.  A Python float is an IEEE binary64 number,
    here the primitive [float] with its correctly rounded operations. *)

Inductive pyval : Type :=
| PNone
| PBool (b : bool)
| PInt (n : Z)
| PFloat (x : PrimFloat.float)
| PStr (s : string)
| PList (l : list pyval)
| PDict (d : list (string * pyval)).

Inductive exn : Type :=
| KeyError (key : string)
| TypeError
| OverflowError
| AttributeError
| ConnectionError
| JSONDecodeError
| Exception (msg : string).

Inductive result (A : Type) : Type :=
| Ok (a : A)
| Raise (e : exn).
Arguments Ok {A} a.
Arguments Raise {A} e.

#[global] Instance result_ret : MRet result := fun A a => Ok a.
#[global] Instance result_bind : MBind result := fun A B f r =>
  match r with
  | Ok a => f a
  | Raise e => Raise e
  end.

Fixpoint dict_lookup (k : string) (d : list (string * pyval)) : option pyval :=
  match d with
  | [] => None
  | (k', v) :: rest => if String.eqb k' k then Some v else dict_lookup k rest
  end.

(** [d[k] = v]: an existing key keeps its place, a new key goes last. *)
Fixpoint dict_setitem (k : string) (v : pyval) (d : list (string * pyval))
  : list (string * pyval) :=
  match d with
  | [] => [(k, v)]
  | (k', v') :: rest =>
      if String.eqb k' k then (k', v) :: rest else (k', v') :: dict_setitem k v rest
  end.

(** [d.update(other)] *)
Definition dict_update (other d : list (string * pyval)) : list (string * pyval) :=
  fold_left (fun acc kv => dict_setitem (fst kv) (snd kv) acc) other d.

(** Truth value of a Python object, as tested by [if] and [or]. *)
Definition truthy (v : pyval) : bool :=
  match v with
  | PNone => false
  | PBool b => b
  | PInt n => negb (n =? 0)
  | PFloat x => negb (PrimFloat.eqb x PrimFloat.zero)
  | PStr s => negb (String.eqb s "")
  | PList l => match l with [] => false | _ => true end
  | PDict d => match d with [] => false | _ => true end
  end.

(** [v[k]] for a string key [k]. *)
Definition py_getitem (v : pyval) (k : string) : result pyval :=
  match v with
  | PDict d =>
      match dict_lookup k d with
      | Some x => Ok x
      | None => Raise (KeyError k)
      end
  | _ => Raise TypeError
  end.

(** [v.get(k, default)]: only a dict has the method. *)
Definition py_get (v : pyval) (k : string) (default : pyval) : result pyval :=
  match v with
  | PDict d =>
      match dict_lookup k d with
      | Some x => Ok x
      | None => Ok default
      end
  | _ => Raise AttributeError
  end.

(** [k in v.keys()] *)
Definition py_has_key (v : pyval) (k : string) : result bool :=
  match v with
  | PDict d => Ok (match dict_lookup k d with Some _ => true | None => false end)
  | _ => Raise AttributeError
  end.

Fixpoint chars (s : string) : list pyval :=
  match s with
  | EmptyString => []
  | String c rest => PStr (String c EmptyString) :: chars rest
  end.

(** The elements a [for] loop visits: members of a list, keys of a dict,
    characters of a string; the other values are not iterable. *)
Definition py_iter (v : pyval) : result (list pyval) :=
  match v with
  | PList l => Ok l
  | PDict d => Ok (map (fun kv => PStr (fst kv)) d)
  | PStr s => Ok (chars s)
  | _ => Raise TypeError
  end.

(** [v == 'literal'] *)
Definition py_eq_str (v : pyval) (s : string) : bool :=
  match v with
  | PStr s' => String.eqb s' s
  | _ => false
  end.

(** [v + 'literal'] *)
Definition py_add_str (v : pyval) (s : string) : result string :=
  match v with
  | PStr s' => Ok (String.append s' s)
  | _ => Raise TypeError
  end.

Definition Z_of_bool (b : bool) : Z := if b then 1 else 0.

(** [float(n)] for an int [n]: the nearest binary64 number, ties to even;
    an int beyond the range of binary64 has none and the conversion raises
    [OverflowError]. *)
Definition float_of_int (n : Z) : result PrimFloat.float :=
  match SpecFloat.binary_normalize FloatOps.prec FloatOps.emax n 0 false with
  | SpecFloat.S754_infinity _ => Raise OverflowError
  | x => Ok (FloatOps.SF2Prim x)
  end.

(** The float literal [1000.0] of the source, and the floats of the examples. *)
Module FloatLiterals.
Import PrimFloat.
Definition thousand : float := 1000%float.
Definition lit_0 : float := 0%float.
Definition lit_1 : float := 1%float.
Definition lit_1_5 : float := 1.5%float.
Definition lit_2_5 : float := 2.5%float.
Definition lit_1500 : float := 1500%float.
Definition lit_2500 : float := 2500%float.
End FloatLiterals.
Import FloatLiterals.

(** The float operand of a true division or a subtraction with a float:
    a float as it is, an int or a bool converted. *)
Definition as_float (v : pyval) : result PrimFloat.float :=
  match v with
  | PBool b => float_of_int (Z_of_bool b)
  | PInt n => float_of_int n
  | PFloat x => Ok x
  | _ => Raise TypeError
  end.

(** [v / 1000.0] *)
Definition py_div_1000 (v : pyval) : result pyval :=
  x ← as_float v;
  Ok (PFloat (PrimFloat.div x thousand)).

(** [a - b] *)
Definition py_sub (a b : pyval) : result pyval :=
  match a, b with
  | PInt x, PInt y => Ok (PInt (x - y))
  | PInt x, PBool y => Ok (PInt (x - Z_of_bool y))
  | PBool x, PInt y => Ok (PInt (Z_of_bool x - y))
  | PBool x, PBool y => Ok (PInt (Z_of_bool x - Z_of_bool y))
  | (PInt _ | PBool _), PFloat y =>
      x ← as_float a; Ok (PFloat (PrimFloat.sub x y))
  | PFloat x, (PInt _ | PBool _) =>
      y ← as_float b; Ok (PFloat (PrimFloat.sub x y))
  | PFloat x, PFloat y => Ok (PFloat (PrimFloat.sub x y))
  | _, _ => Raise TypeError
  end.

(** ** The collector object

    A gauge family of [prometheus_client] is its name, its help text, its
    label names and the samples added so far; [add_metric] appends one sample
    that carries the family's name and its labels zipped with the values. *)

Record Sample : Type := {
  sample_name : string;
  sample_labels : list (string * pyval);
  sample_value : pyval
}.

Record GaugeMetricFamily : Type := {
  name : string;
  documentation : string;
  labelnames : list string;
  samples : list Sample
}.

Definition new_gauge (nm doc : string) (labels : list string) : GaugeMetricFamily :=
  {| name := nm; documentation := doc; labelnames := labels; samples := [] |}.

Definition add_metric (labels : list pyval) (value : pyval) (g : GaugeMetricFamily)
  : GaugeMetricFamily :=
  {| name := name g;
     documentation := documentation g;
     labelnames := labelnames g;
     samples := samples g ++
       [ {| sample_name := name g;
            sample_labels := combine (labelnames g) labels;
            sample_value := value |} ] |}.

Record JenkinsCollector : Type := {
  _target : string;
  _user : option string;
  _password : option string;
  _insecure : bool;
  _prometheus_metrics : gmap string (gmap string GaugeMetricFamily);
  _job_runs_metrics : gmap string GaugeMetricFamily
}.

(** The build statuses we want to export about. *)
Definition statuses : list string :=
  ["lastBuild"; "lastCompletedBuild"; "lastFailedBuild"; "lastStableBuild";
   "lastSuccessfulBuild"; "lastUnstableBuild"; "lastUnsuccessfulBuild"].

(** [s.rstrip("/")] *)
Fixpoint rstrip_slash (s : string) : string :=
  match s with
  | EmptyString => EmptyString
  | String c rest =>
      match rstrip_slash rest with
      | EmptyString => if Ascii.eqb c "/" then EmptyString else String c EmptyString
      | r => String c r
      end
  end.

(** [__init__]: the two dictionaries are created by
    [_setup_empty_prometheus_metrics] before anything reads them. *)
Definition __init__ (target : string) (user password : option string) (insecure : bool)
  : JenkinsCollector :=
  {| _target := rstrip_slash target;
     _user := user;
     _password := password;
     _insecure := insecure;
     _prometheus_metrics := ∅;
     _job_runs_metrics := ∅ |}.

(** ** The HTTP transport

    [requests.get] either raises or returns a response with a status code
    and a body; [json] is [None] when the body does not decode.  The oracle
    sees the requests made before, so the server may answer the same request
    differently over time. *)

Record Request : Type := {
  req_url : string;
  req_params : list (string * string);
  req_auth : option (string * string);
  req_verify : bool
}.

Record Response : Type := {
  status_code : Z;
  json : option pyval
}.

Inductive Reply : Type :=
| Unreachable
| Responded (response : Response).

(** A computation that talks to the server: it reads and extends the log of
    requests and returns a value or raises. *)
Definition M (A : Type) : Type := list Request -> result A * list Request.

#[global] Instance M_ret : MRet M := fun A a log => (Ok a, log).
#[global] Instance M_bind : MBind M := fun A B f m log =>
  match m log with
  | (Ok a, log') => f a log'
  | (Raise e, log') => (Raise e, log')
  end.

Definition lift {A : Type} (r : result A) : M A := fun log => (r, log).

Definition str_truthy (o : option string) : bool :=
  match o with
  | Some s => negb (String.eqb s "")
  | None => false
  end.

Definition string_of_Z (z : Z) : string :=
  DecimalString.NilZero.string_of_int (Z.to_int z).

Definition WorkflowJob : string := "org.jenkinsci.plugins.workflow.job.WorkflowJob".
Definition FreeStyleProject : string := "hudson.model.FreeStyleProject".
Definition Folder : string := "com.cloudbees.hudson.plugins.folder.Folder".
Definition OrganizationFolder : string := "jenkins.branch.OrganizationFolder".
Definition WorkflowMultiBranchProject : string :=
  "org.jenkinsci.plugins.workflow.multibranch.WorkflowMultiBranchProject".

(** [v[k] == c1 or v[k] == c2 or ...]: the subscript is evaluated again for
    every disjunct that is reached. *)
Fixpoint class_among (v : pyval) (k : string) (classes : list string) : result bool :=
  match classes with
  | [] => Ok false
  | c :: rest =>
      x ← py_getitem v k;
      if py_eq_str x c then Ok true else class_among v k rest
  end.

(** ** API client, run outcome aggregation and job tree flattening *)

Section Traversal.
Context (server : list Request -> Request -> Reply) (self : JenkinsCollector).

(** The arguments of [requests.get]: basic auth when both a user and a
    password are configured, none otherwise. *)
Definition request_for (url : string) (params : list (string * string)) : Request :=
  {| req_url := url;
     req_params := params;
     req_auth :=
       match _user self, _password self with
       | Some u, Some p =>
           if str_truthy (Some u) && str_truthy (Some p) then Some (u, p) else None
       | _, _ => None
       end;
     req_verify := negb (_insecure self) |}.

(** What [_api_call] makes of a reply: any status other than
    [requests.codes.ok] raises, otherwise the body is decoded. *)
Definition read_reply (url : string) (reply : Reply) : result pyval :=
  match reply with
  | Unreachable => Raise ConnectionError
  | Responded response =>
      if negb (status_code response =? 200) then
        Raise (Exception ("Call to url " +:+ url +:+ " failed with status: "
                            +:+ string_of_Z (status_code response)))
      else
        match json response with
        | Some result => Ok result
        | None => Raise JSONDecodeError
        end
  end.

(** [_api_call]: one [requests.get], then [read_reply]. *)
Definition _api_call (url : string) (params : list (string * string)) : M pyval :=
  fun log =>
    let request := request_for url params in
    (read_reply url (server log request), log ++ [request]).

(** The [for workflow_run in builds] loop of [parse_job_runs]. *)
Fixpoint runs_loop (builds : list pyval) (successful_runs failed_runs : list pyval)
  : M (list pyval * list pyval) :=
  match builds with
  | [] => mret (successful_runs, failed_runs)
  | workflow_run :: rest =>
      url ← lift (u ← py_getitem workflow_run "url"; py_add_str u "api/json");
      wf_data ← _api_call url [];
      r1 ← lift (py_getitem wf_data "result");
      successful_runs' ←
        (if py_eq_str r1 "SUCCESS"
         then n ← lift (py_getitem wf_data "number"); mret (successful_runs ++ [n])
         else mret successful_runs);
      r2 ← lift (py_getitem wf_data "result");
      failed_runs' ←
        (if py_eq_str r2 "FAILURE"
         then n ← lift (py_getitem wf_data "number"); mret (failed_runs ++ [n])
         else mret failed_runs);
      runs_loop rest successful_runs' failed_runs'
  end.

Definition py_len (l : list pyval) : pyval := PInt (Z.of_nat (length l)).

(** [job.update(other)] on a job that is a dict. *)
Definition job_update (other : list (string * pyval)) (job : pyval) : result pyval :=
  match job with
  | PDict d => Ok (PDict (dict_update other d))
  | _ => Raise AttributeError
  end.

(** [parse_job_runs] changes the job in place; the model returns the job
    as it is after the call. *)
Definition parse_job_runs (job : pyval) : M pyval :=
  is_run_kind ← lift (class_among job "_class" [WorkflowJob; FreeStyleProject]);
  if is_run_kind : bool then
    builds ← lift (py_get job "builds" (PList []));
    if truthy builds then
      entries ← lift (py_iter builds);
      runs ← runs_loop entries [] [];
      lift (job_update [("runs_successful_total", py_len (fst runs));
                        ("runs_failed_total", py_len (snd runs))] job)
    else mret job
  else mret job.

Definition folder_kinds : list string :=
  [Folder; OrganizationFolder; WorkflowMultiBranchProject].

(** The [for job in result['jobs']] loop of [parse_jobs]; [recurse] is the
    recursive call.  [None] is a computation cut short by the depth bound. *)
Fixpoint parse_jobs_loop
    (recurse : string -> list Request -> option (result (list pyval) * list Request))
    (todo : list pyval) (jobs : list pyval) (log : list Request)
  : option (result (list pyval) * list Request) :=
  match todo with
  | [] => Some (Ok jobs, log)
  | job :: rest =>
      match class_among job "_class" folder_kinds with
      | Raise e => Some (Raise e, log)
      | Ok true =>
          match u ← py_getitem job "url"; py_add_str u "/api/json" with
          | Raise e => Some (Raise e, log)
          | Ok url =>
              match recurse url log with
              | None => None
              | Some (Raise e, log') => Some (Raise e, log')
              | Some (Ok sub, log') => parse_jobs_loop recurse rest (jobs ++ sub) log'
              end
          end
      | Ok false =>
          match parse_job_runs job log with
          | (Raise e, log') => Some (Raise e, log')
          | (Ok job', log') => parse_jobs_loop recurse rest (jobs ++ [job']) log'
          end
      end
  end.

(** [parse_jobs], with [depth] bounding the nesting of recursive calls. *)
Fixpoint parse_jobs (depth : nat) (url : string) (params : list (string * string))
    (log : list Request) : option (result (list pyval) * list Request) :=
  match depth with
  | O => None
  | S depth' =>
      match _api_call url params log with
      | (Raise e, log') => Some (Raise e, log')
      | (Ok result, log') =>
          match js ← py_getitem result "jobs"; py_iter js with
          | Raise e => Some (Raise e, log')
          | Ok todo =>
              parse_jobs_loop (fun u => parse_jobs depth' u params) todo [] log'
          end
      end
  end.

Definition tree_param : string :=
  let jobs := "[fullName,number,timestamp,duration,actions[queuingDurationMillis,totalDurationMillis,"
              +:+ "skipCount,failCount,totalCount,passCount]]" in
  "jobs[fullName,url,builds[url]," +:+
    String.concat "," (map (fun s => s +:+ jobs) statuses) +:+ "]".

Definition _request_data (depth : nat) (log : list Request)
  : option (result (list pyval) * list Request) :=
  parse_jobs depth (_target self +:+ "/api/json") [("tree", tree_param)] log.

End Traversal.

(** ** Metric projection *)

Definition is_upper (c : ascii) : bool :=
  (65 <=? nat_of_ascii c)%nat && (nat_of_ascii c <=? 90)%nat.

(** [re.sub('([A-Z])', '_\\1', s)] *)
Fixpoint re_sub_upper (s : string) : string :=
  match s with
  | EmptyString => EmptyString
  | String c rest =>
      if is_upper c then String "_" (String c (re_sub_upper rest))
      else String c (re_sub_upper rest)
  end.

Definition lower_char (c : ascii) : ascii :=
  if is_upper c then ascii_of_nat (nat_of_ascii c + 32) else c.

(** [s.lower()] of an ASCII string (the status identifiers are ASCII):
    the letters [A-Z] are mapped to [a-z], the other characters kept. *)
Fixpoint lower (s : string) : string :=
  match s with
  | EmptyString => EmptyString
  | String c rest => String (lower_char c) (lower rest)
  end.

Definition snake_case (status : string) : string := lower (re_sub_upper status).

(** The keys of the dictionary built for one status, in the order of the
    literal; a Python dict iterates in that order. *)
Definition fields : list string :=
  ["number"; "duration"; "timestamp"; "queuingDurationMillis"; "totalDurationMillis";
   "skipCount"; "failCount"; "totalCount"; "passCount"].

Definition status_families (status : string) : gmap string GaugeMetricFamily :=
  let snake_case := snake_case status in
  list_to_map
    [("number",
      new_gauge ("jenkins_job_" +:+ snake_case)
                ("Jenkins build number for " +:+ status) ["jobname"]);
     ("duration",
      new_gauge ("jenkins_job_" +:+ snake_case +:+ "_duration_seconds")
                ("Jenkins build duration in seconds for " +:+ status) ["jobname"]);
     ("timestamp",
      new_gauge ("jenkins_job_" +:+ snake_case +:+ "_timestamp_seconds")
                ("Jenkins build timestamp in unixtime for " +:+ status) ["jobname"]);
     ("queuingDurationMillis",
      new_gauge ("jenkins_job_" +:+ snake_case +:+ "_queuing_duration_seconds")
                ("Jenkins build queuing duration in seconds for " +:+ status) ["jobname"]);
     ("totalDurationMillis",
      new_gauge ("jenkins_job_" +:+ snake_case +:+ "_total_duration_seconds")
                ("Jenkins build total duration in seconds for " +:+ status) ["jobname"]);
     ("skipCount",
      new_gauge ("jenkins_job_" +:+ snake_case +:+ "_skip_count")
                ("Jenkins build skip counts for " +:+ status) ["jobname"]);
     ("failCount",
      new_gauge ("jenkins_job_" +:+ snake_case +:+ "_fail_count")
                ("Jenkins build fail counts for " +:+ status) ["jobname"]);
     ("totalCount",
      new_gauge ("jenkins_job_" +:+ snake_case +:+ "_total_count")
                ("Jenkins build total counts for " +:+ status) ["jobname"]);
     ("passCount",
      new_gauge ("jenkins_job_" +:+ snake_case +:+ "_pass_count")
                ("Jenkins build pass counts for " +:+ status) ["jobname"])].

Definition run_fields : list string := ["runs_successful_total"; "runs_failed_total"].

Definition with_metrics (pm : gmap string (gmap string GaugeMetricFamily))
    (jr : gmap string GaugeMetricFamily) (self : JenkinsCollector) : JenkinsCollector :=
  {| _target := _target self; _user := _user self; _password := _password self;
     _insecure := _insecure self; _prometheus_metrics := pm; _job_runs_metrics := jr |}.

Definition _setup_empty_prometheus_metrics (self : JenkinsCollector) : JenkinsCollector :=
  with_metrics
    (fold_left (fun pm status => <[status := status_families status]> pm) statuses ∅)
    (list_to_map
       [("runs_successful_total",
         new_gauge "jenkins_runs_successful_total" "Jenkins total job successful runs"
                   ["jobname"]);
        ("runs_failed_total",
         new_gauge "jenkins_runs_failed_total" "Jenkins total job failed runs"
                   ["jobname"])])
    self.

(** [self._prometheus_metrics[status][field].add_metric([name], value)]: the
    family is looked up before the argument [value] is evaluated. *)
Definition add_status_metric (status field : string) (name : pyval)
    (value : result pyval) (self : JenkinsCollector) : result JenkinsCollector :=
  match _prometheus_metrics self !! status with
  | None => Raise (KeyError status)
  | Some families =>
      match families !! field with
      | None => Raise (KeyError field)
      | Some g =>
          v ← value;
          Ok (with_metrics
                (<[status := <[field := add_metric [name] v g]> families]>
                   (_prometheus_metrics self))
                (_job_runs_metrics self) self)
      end
  end.

(** [self._job_runs_metrics[field].add_metric([name], value)] *)
Definition add_runs_metric (field : string) (name : pyval)
    (value : result pyval) (self : JenkinsCollector) : result JenkinsCollector :=
  match _job_runs_metrics self !! field with
  | None => Raise (KeyError field)
  | Some g =>
      v ← value;
      Ok (with_metrics (_prometheus_metrics self)
            (<[field := add_metric [name] v g]> (_job_runs_metrics self)) self)
  end.

(** [metric.get('totalCount') - metric.get('failCount') - metric.get('skipCount')] *)
Definition passcount (metric : pyval) : result pyval :=
  total ← py_get metric "totalCount" PNone;
  fail ← py_get metric "failCount" PNone;
  d ← py_sub total fail;
  skip ← py_get metric "skipCount" PNone;
  py_sub d skip.

(** The body of [for metric in actions_metrics]. *)
Definition add_action (status : string) (name : pyval) (metric : pyval)
    (self : JenkinsCollector) : result JenkinsCollector :=
  q ← py_get metric "queuingDurationMillis" (PBool false);
  self ← (if truthy q
          then add_status_metric status "queuingDurationMillis" name
                 (x ← py_get metric "queuingDurationMillis" PNone; py_div_1000 x) self
          else Ok self);
  t ← py_get metric "totalDurationMillis" (PBool false);
  self ← (if truthy t
          then add_status_metric status "totalDurationMillis" name
                 (x ← py_get metric "totalDurationMillis" PNone; py_div_1000 x) self
          else Ok self);
  s ← py_get metric "skipCount" (PBool false);
  self ← (if truthy s
          then add_status_metric status "skipCount" name
                 (py_get metric "skipCount" PNone) self
          else Ok self);
  f ← py_get metric "failCount" (PBool false);
  self ← (if truthy f
          then add_status_metric status "failCount" name
                 (py_get metric "failCount" PNone) self
          else Ok self);
  c ← py_get metric "totalCount" (PBool false);
  if truthy c then
    self ← add_status_metric status "totalCount" name
             (py_get metric "totalCount" PNone) self;
    (* Calculate passCount by subtracting fails and skips from totalCount *)
    passcount ← passcount metric;
    add_status_metric status "passCount" name (Ok passcount) self
  else Ok self.

Fixpoint actions_loop (status : string) (name : pyval) (actions_metrics : list pyval)
    (self : JenkinsCollector) : result JenkinsCollector :=
  match actions_metrics with
  | [] => Ok self
  | metric :: rest =>
      self ← add_action status name metric self;
      actions_loop status name rest self
  end.

Definition _add_data_to_prometheus_structure (status : string) (status_data job name : pyval)
    (self : JenkinsCollector) : result JenkinsCollector :=
  (* If there's a null result, we want to pass. *)
  d ← py_get status_data "duration" (PInt 0);
  self ← (if truthy d
          then add_status_metric status "duration" name
                 (x ← py_get status_data "duration" PNone; py_div_1000 x) self
          else Ok self);
  t ← py_get status_data "timestamp" (PInt 0);
  self ← (if truthy t
          then add_status_metric status "timestamp" name
                 (x ← py_get status_data "timestamp" PNone; py_div_1000 x) self
          else Ok self);
  n ← py_get status_data "number" (PInt 0);
  self ← (if truthy n
          then add_status_metric status "number" name
                 (py_get status_data "number" PNone) self
          else Ok self);
  actions_metrics ← py_get status_data "actions" (PList [PDict []]);
  entries ← py_iter actions_metrics;
  self ← actions_loop status name entries self;
  rs ← py_get job "runs_successful_total" (PInt 0);
  self ← (if truthy rs
          then add_runs_metric "runs_successful_total" name
                 (py_get job "runs_successful_total" PNone) self
          else Ok self);
  rf ← py_get job "runs_failed_total" (PInt 0);
  if truthy rf
  then add_runs_metric "runs_failed_total" name
         (py_get job "runs_failed_total" PNone) self
  else Ok self.

(** [job[status] or {}] *)
Definition or_empty_dict (v : pyval) : pyval := if truthy v then v else PDict [].

Fixpoint get_metrics_loop (sts : list string) (name job : pyval)
    (self : JenkinsCollector) : result JenkinsCollector :=
  match sts with
  | [] => Ok self
  | status :: rest =>
      present ← py_has_key job status;
      self ← (if present : bool
              then v ← py_getitem job status;
                   _add_data_to_prometheus_structure status (or_empty_dict v) job name self
              else Ok self);
      get_metrics_loop rest name job self
  end.

Definition _get_metrics (name job : pyval) (self : JenkinsCollector)
  : result JenkinsCollector :=
  get_metrics_loop statuses name job self.

(** The [for job in jobs] loop of [collect]. *)
Fixpoint jobs_loop (jobs : list pyval) (self : JenkinsCollector) : result JenkinsCollector :=
  match jobs with
  | [] => Ok self
  | job :: rest =>
      name ← py_getitem job "fullName";
      self ← _get_metrics name job self;
      jobs_loop rest self
  end.

(** Metric projection as [collect] runs it: fresh families, then every job. *)
Definition project (jobs : list pyval) (self : JenkinsCollector) : result JenkinsCollector :=
  jobs_loop jobs (_setup_empty_prometheus_metrics self).

(** [d.values()] of a per-status dictionary. *)
Definition family_values (families : gmap string GaugeMetricFamily) (keys : list string)
  : list GaugeMetricFamily :=
  omap (fun k => families !! k) keys.

(** The two yielding loops of [collect]: what was yielded, and whether the
    generator then finished or raised. *)
Fixpoint yield_statuses (sts : list string) (self : JenkinsCollector)
  : list GaugeMetricFamily * result unit :=
  match sts with
  | [] => (family_values (_job_runs_metrics self) run_fields, Ok tt)
  | status :: rest =>
      match _prometheus_metrics self !! status with
      | None => ([], Raise (KeyError status))
      | Some families =>
          let (later, r) := yield_statuses rest self in
          (family_values families fields ++ later, r)
      end
  end.

(** One scrape: the metric families the generator yielded, how it ended,
    and the requests made.  The timing of the cycle is not modelled. *)
Record Scrape : Type := {
  yielded : list GaugeMetricFamily;
  outcome : result JenkinsCollector;
  requests : list Request
}.

Definition collect (server : list Request -> Request -> Reply) (self : JenkinsCollector)
    (depth : nat) (log : list Request) : option Scrape :=
  match _request_data server self depth log with
  | None => None
  | Some (Raise e, log') =>
      Some {| yielded := []; outcome := Raise e; requests := log' |}
  | Some (Ok jobs, log') =>
      match project jobs self with
      | Raise e => Some {| yielded := []; outcome := Raise e; requests := log' |}
      | Ok self' =>
          let (ys, r) := yield_statuses statuses self' in
          Some {| yielded := ys;
                  outcome := (match r with Ok _ => Ok self' | Raise e => Raise e end);
                  requests := log' |}
      end
  end.

(** The samples of a list of families, in order. *)
Definition emitted (families : list GaugeMetricFamily) : list Sample :=
  flat_map samples families.

(** ** Vocabulary of the statements *)

(** The family stored under [_prometheus_metrics[status][field]]. *)
Definition family (self : JenkinsCollector) (status field : string)
  : option GaugeMetricFamily :=
  _prometheus_metrics self !! status ≫= (λ families, families !! field).

(** The samples added so far to that family. *)
Definition status_samples (self : JenkinsCollector) (status field : string) : list Sample :=
  match family self status field with
  | Some g => samples g
  | None => []
  end.

Definition runs_samples (self : JenkinsCollector) (field : string) : list Sample :=
  match _job_runs_metrics self !! field with
  | Some g => samples g
  | None => []
  end.

(** The collector holds every family the projection writes to, as it does
    after [_setup_empty_prometheus_metrics]. *)
Definition ready (self : JenkinsCollector) : Prop :=
  (∀ status field, In status statuses → In field fields →
     is_Some (family self status field)) ∧
  (∀ field, In field run_fields → is_Some (_job_runs_metrics self !! field)).

(** The sample [add_metric([name], value)] appends to a family called [nm]
    with the single label [jobname]. *)
Definition sample_of (nm : string) (name value : pyval) : Sample :=
  {| sample_name := nm; sample_labels := [("jobname", name)]; sample_value := value |}.

(** The naming rule in the words of the specification: every uppercase
    letter is replaced by an underscore followed by its lowercase form. *)
Fixpoint lower_snake_case (s : string) : string :=
  match s with
  | EmptyString => EmptyString
  | String c rest =>
      if is_upper c then String "_" (String (lower_char c) (lower_snake_case rest))
      else String c (lower_snake_case rest)
  end.

(** The part of a metric name that follows the status token, per field. *)
Definition metric_suffix (field : string) : string :=
  if String.eqb field "number" then ""
  else if String.eqb field "duration" then "_duration_seconds"
  else if String.eqb field "timestamp" then "_timestamp_seconds"
  else if String.eqb field "queuingDurationMillis" then "_queuing_duration_seconds"
  else if String.eqb field "totalDurationMillis" then "_total_duration_seconds"
  else if String.eqb field "skipCount" then "_skip_count"
  else if String.eqb field "failCount" then "_fail_count"
  else if String.eqb field "totalCount" then "_total_count"
  else "_pass_count".

(** The numeric fields read from a build snapshot: three on the snapshot
    itself, five on each entry of its [actions]. *)
Definition snapshot_fields : list string := ["duration"; "timestamp"; "number"].
Definition action_fields : list string :=
  ["queuingDurationMillis"; "totalDurationMillis"; "skipCount"; "failCount"; "totalCount"].

(** A value that is exactly zero: the int [0], a float equal to [0.0]
    (that is [0.0] or [-0.0]), or [False], which Python counts as 0. *)
Definition is_zero (v : pyval) : Prop :=
  match v with
  | PBool b => b = false
  | PInt n => n = 0
  | PFloat x => PrimFloat.eqb x PrimFloat.zero = true
  | _ => False
  end.

(** A field is absent from a dict or bound to exactly 0. *)
Definition absent_or_zero (field : string) (d : list (string * pyval)) : Prop :=
  dict_lookup field d = None ∨ ∃ v, dict_lookup field d = Some v ∧ is_zero v.

Definition entry_absent_or_zero (field : string) (entry : pyval) : Prop :=
  match entry with
  | PDict d => absent_or_zero field d
  | _ => True
  end.

(** The values the entries of an [actions] list bind [field] to and that
    pass the [if] guard, in the order of the entries. *)
Definition present_values (field : string) (entries : list pyval) : list pyval :=
  flat_map (λ entry, match entry with
                     | PDict d =>
                         match dict_lookup field d with
                         | Some x => if truthy x then [x] else []
                         | None => []
                         end
                     | _ => []
                     end) entries.

(** The fields the payload gives in milliseconds. *)
Definition millisecond_snapshot_fields : list string := ["duration"; "timestamp"].
Definition millisecond_action_fields : list string :=
  ["queuingDurationMillis"; "totalDurationMillis"].

(** The binary64 number nearest to the integer [n] (ties to even), when
    [n] is within the range of binary64. *)
Definition nearest_float (n : Z) : option PrimFloat.float :=
  match SpecFloat.binary_normalize FloatOps.prec FloatOps.emax n 0 false with
  | SpecFloat.S754_infinity _ => None
  | x => Some (FloatOps.SF2Prim x)
  end.

(** The unit conversion in the words of the specification: [v] is the
    float [x / 1000.0], where a float [x] is taken as it is, an int is first
    converted to the nearest float and a bool to [1.0] or [0.0]; an int
    beyond the range of binary64, or a value that is not a number, has no
    such [v]. *)
Definition divided_by_1000 (x v : pyval) : Prop :=
  ∃ a, v = PFloat (PrimFloat.div a thousand) ∧
       match x with
       | PFloat y => a = y
       | PInt n => nearest_float n = Some a
       | PBool b => a = if b then lit_1 else lit_0
       | _ => False
       end.

(** The value emitted for an action-level field bound to [x]: converted to
    seconds for the two millisecond fields, as read for the counters. *)
Definition emitted_as (field : string) (x v : pyval) : Prop :=
  if String.eqb field "queuingDurationMillis" || String.eqb field "totalDurationMillis"
  then divided_by_1000 x v
  else v = x.

(** A number Python can divide by a float: a float, a bool, or an int
    within the range of binary64. *)
Definition float_convertible (v : pyval) : Prop :=
  match v with
  | PFloat _ | PBool _ => True
  | PInt n => is_Some (nearest_float n)
  | _ => False
  end.

(** The sample a family [g] receives from [add_metric([label], v)]. *)
Definition added_sample (g : GaugeMetricFamily) (label v : pyval) : Sample :=
  {| sample_name := name g;
     sample_labels := combine (labelnames g) [label];
     sample_value := v |}.

Definition is_ascii (c : ascii) : bool := (nat_of_ascii c <? 128)%nat.

(** The characters of the string are all ASCII. *)
Fixpoint ascii_only (s : string) : bool :=
  match s with
  | EmptyString => true
  | String c rest => is_ascii c && ascii_only rest
  end.

(** Tests used to evaluate concrete runs. *)
Definition returned {A : Type} (r : result A) : bool :=
  match r with Ok _ => true | Raise _ => false end.

Definition ran {A : Type} (o : option A) : bool :=
  match o with Some _ => true | None => false end.

(** ** Example payloads *)

Module Examples.

Definition collector : JenkinsCollector := __init__ "http://jenkins:8080/" None None false.

Definition ok (body : pyval) : Reply :=
  Responded {| status_code := 200; json := Some body |}.

Definition job1 : pyval :=
  PDict [("_class", PStr WorkflowJob); ("fullName", PStr "A/B/job1");
         ("url", PStr "http://jenkins:8080/job/A/job/B/job/job1/");
         ("lastFailedBuild",
          PDict [("number", PInt 4); ("timestamp", PInt 1500000); ("duration", PInt 2500);
                 ("actions", PList [PDict [("totalCount", PInt 10); ("failCount", PInt 2);
                                            ("skipCount", PInt 1)]])]);
         ("lastStableBuild", PNone)].

Definition folderB : pyval :=
  PDict [("_class", PStr Folder); ("fullName", PStr "A/B");
         ("url", PStr "http://jenkins:8080/job/A/job/B")].

Definition folderA : pyval :=
  PDict [("_class", PStr OrganizationFolder); ("fullName", PStr "A");
         ("url", PStr "http://jenkins:8080/job/A")].

Definition other : pyval :=
  PDict [("_class", PStr "hudson.maven.MavenModuleSet"); ("fullName", PStr "m")].

(** A nested hierarchy [A/B/job1] followed by a sibling of [A]. *)
Definition nested (log : list Request) (r : Request) : Reply :=
  let u := req_url r in
  if String.eqb u "http://jenkins:8080/api/json" then
    ok (PDict [("jobs", PList [folderA; other])])
  else if String.eqb u "http://jenkins:8080/job/A/api/json" then
    ok (PDict [("jobs", PList [folderB])])
  else if String.eqb u "http://jenkins:8080/job/A/job/B/api/json" then
    ok (PDict [("jobs", PList [job1])])
  else Responded {| status_code := 404; json := None |}.

(** A freestyle job without [builds], a pipeline with none yet. *)
Definition freestyle_no_builds : pyval :=
  PDict [("_class", PStr FreeStyleProject); ("fullName", PStr "f")].

Definition pipeline_empty : pyval :=
  PDict [("_class", PStr WorkflowJob); ("fullName", PStr "p"); ("builds", PList [])].

(** A listing of leaf jobs only. *)
Definition leaves_only (log : list Request) (r : Request) : Reply :=
  if String.eqb (req_url r) "http://jenkins:8080/api/json" then
    ok (PDict [("jobs", PList [other; freestyle_no_builds; pipeline_empty])])
  else Responded {| status_code := 404; json := None |}.

(** The freestyle job of the scenario: two builds, nothing else. *)
Definition x : pyval :=
  PDict [("_class", PStr FreeStyleProject); ("fullName", PStr "x");
         ("builds", PList [PDict [("url", PStr "b1/")]; PDict [("url", PStr "b2/")]])].

Definition two_builds (log : list Request) (r : Request) : Reply :=
  let u := req_url r in
  if String.eqb u "http://jenkins:8080/api/json" then
    ok (PDict [("jobs", PList [x])])
  else if String.eqb u "b1/api/json" then
    ok (PDict [("result", PStr "SUCCESS"); ("number", PInt 1)])
  else if String.eqb u "b2/api/json" then
    ok (PDict [("result", PStr "FAILURE"); ("number", PInt 2)])
  else Responded {| status_code := 404; json := None |}.

(** The same job as the API lists it when two of the tracked statuses are
    requested and the job has no such build yet recorded under them. *)
Definition x_with_keys : pyval :=
  PDict [("_class", PStr FreeStyleProject); ("fullName", PStr "x");
         ("builds", PList [PDict [("url", PStr "b1/")]; PDict [("url", PStr "b2/")]]);
         ("lastFailedBuild", PNone); ("lastUnstableBuild", PNone)].

Definition two_builds_with_keys (log : list Request) (r : Request) : Reply :=
  let u := req_url r in
  if String.eqb u "http://jenkins:8080/api/json" then
    ok (PDict [("jobs", PList [x_with_keys])])
  else two_builds log r.

(** The root answers, the folder below it fails with HTTP 500. *)
Definition broken (log : list Request) (r : Request) : Reply :=
  let u := req_url r in
  if String.eqb u "http://jenkins:8080/api/json" then
    ok (PDict [("jobs", PList [other; folderA])])
  else Responded {| status_code := 500; json := None |}.

End Examples.

(** * Properties *)

(** ** Generic facts about the monads and dictionaries *)

Lemma bind_Ok {A B : Type} (m : result A) (f : A → result B) (b : B) :
  m ≫= f = Ok b ↔ ∃ a, m = Ok a ∧ f a = Ok b.
Proof.
  destruct m as [a|e]; simpl; split.
  - intros H. exists a. auto.
  - intros (a' & Ha & H). congruence.
  - discriminate.
  - intros (a' & Ha & _). discriminate.
Qed.

Lemma dict_lookup_setitem_ne (k k' : string) (v : pyval) (d : list (string * pyval)) :
  k ≠ k' → dict_lookup k' (dict_setitem k v d) = dict_lookup k' d.
Proof.
  intros Hne. induction d as [|[k0 v0] d IH]; simpl.
  - destruct (String.eqb_spec k k'); congruence.
  - destruct (String.eqb_spec k0 k) as [->|Hk0]; simpl.
    + destruct (String.eqb_spec k k'); congruence.
    + destruct (String.eqb_spec k0 k'); auto.
Qed.

Lemma dict_lookup_setitem_eq (k : string) (v : pyval) (d : list (string * pyval)) :
  dict_lookup k (dict_setitem k v d) = Some v.
Proof.
  induction d as [|[k0 v0] d IH]; simpl.
  - now rewrite String.eqb_refl.
  - destruct (String.eqb_spec k0 k) as [->|Hk0]; simpl.
    + now rewrite String.eqb_refl.
    + destruct (String.eqb_spec k0 k); congruence.
Qed.

(** ** Metric names *)

Lemma lower_char_fixed (c : ascii) : is_upper c = false → lower_char c = c.
Proof. unfold lower_char. now intros ->. Qed.

Lemma snake_case_spec (s : string) : snake_case s = lower_snake_case s.
Proof.
  unfold snake_case.
  induction s as [|c s IH]; simpl; [reflexivity|].
  destruct (is_upper c) eqn:Hc; simpl; rewrite IH.
  - reflexivity.
  - now rewrite lower_char_fixed.
Qed.

Lemma append_empty_r (s : string) : s +:+ "" = s.
Proof.
  induction s as [|c s IH]; [reflexivity|].
  change (String c (s +:+ "") = String c s). now rewrite IH.
Qed.

Lemma status_families_name (status field : string) (g : GaugeMetricFamily) :
  status_families status !! field = Some g →
  name g = "jenkins_job_" +:+ snake_case status +:+ metric_suffix field ∧
  labelnames g = ["jobname"] ∧ samples g = [].
Proof.
  unfold status_families, metric_suffix. cbn [list_to_map foldr uncurry fst snd].
  repeat (rewrite lookup_insert; case_decide;
          [ subst field; intros [= <-]; cbn;
            rewrite ?append_empty_r; repeat split | ]).
  rewrite lookup_empty. discriminate.
Qed.

(** ** How one [add_metric] call changes the collector *)

Definition same_config (a b : JenkinsCollector) : Prop :=
  _target a = _target b ∧ _user a = _user b ∧
  _password a = _password b ∧ _insecure a = _insecure b.

Lemma same_config_refl (a : JenkinsCollector) : same_config a a.
Proof. repeat split. Qed.

Lemma same_config_trans (a b c : JenkinsCollector) :
  same_config a b → same_config b c → same_config a c.
Proof. unfold same_config. intros (?&?&?&?) (?&?&?&?). repeat split; congruence. Qed.

Lemma same_config_with_metrics (a : JenkinsCollector) pm jr :
  same_config a (with_metrics pm jr a).
Proof. repeat split. Qed.

Create HintDb projection.
#[local] Hint Resolve same_config_refl same_config_with_metrics : projection.

Lemma family_insert_eq (self : JenkinsCollector) (s f : string)
    (families : gmap string GaugeMetricFamily) (g' : GaugeMetricFamily) jr :
  family (with_metrics (<[s := <[f := g']> families]> (_prometheus_metrics self)) jr self) s f
  = Some g'.
Proof. unfold family. simpl. rewrite lookup_insert_eq. simpl. apply lookup_insert_eq. Qed.

Lemma family_insert_ne (self : JenkinsCollector) (s f s' f' : string)
    (families : gmap string GaugeMetricFamily) (g' : GaugeMetricFamily) jr :
  _prometheus_metrics self !! s = Some families →
  s' ≠ s ∨ f' ≠ f →
  family (with_metrics (<[s := <[f := g']> families]> (_prometheus_metrics self)) jr self) s' f'
  = family self s' f'.
Proof.
  intros Hs Hne. unfold family. simpl.
  destruct (decide (s' = s)) as [->|Hs'].
  - rewrite lookup_insert_eq, Hs. simpl.
    destruct Hne as [Hne|Hne]; [congruence|]. now rewrite lookup_insert_ne by congruence.
  - now rewrite lookup_insert_ne by congruence.
Qed.

(** A guarded [add_metric] on a status family: what holds when it returns. *)
Lemma step_inv (c : bool) (s g : string) (name : pyval) (value : result pyval)
    (self self' : JenkinsCollector) :
  (if c then add_status_metric s g name value self else Ok self) = Ok self' →
  same_config self self' ∧
  _job_runs_metrics self' = _job_runs_metrics self ∧
  (∀ s' f', s' ≠ s ∨ f' ≠ g ∨ c = false → family self' s' f' = family self s' f') ∧
  (c = true → ∃ gf v, value = Ok v ∧ family self s g = Some gf ∧
                      family self' s g = Some (add_metric [name] v gf)).
Proof.
  destruct c.
  - unfold add_status_metric.
    destruct (_prometheus_metrics self !! s) as [families|] eqn:Hs; [|discriminate].
    destruct (families !! g) as [gf|] eqn:Hg; [|discriminate].
    destruct value as [v|e]; [|discriminate]. simpl. intros [= <-].
    split; [apply same_config_with_metrics|]. split; [reflexivity|]. split.
    + intros s' f' [H|[H|H]]; [| |discriminate];
        apply family_insert_ne; auto.
    + intros _. exists gf, v. split; [reflexivity|]. split.
      * unfold family. now rewrite Hs.
      * apply family_insert_eq.
  - intros [= <-]. split; [apply same_config_refl|]. split; [reflexivity|].
    split; [reflexivity|discriminate].
Qed.

Lemma step_ready (c : bool) (s g : string) (name v : pyval) (self : JenkinsCollector) :
  is_Some (family self s g) →
  ∃ self', (if c then add_status_metric s g name (Ok v) self else Ok self) = Ok self'.
Proof.
  intros [gf Hg]. destruct c; [|eauto]. unfold add_status_metric.
  unfold family in Hg. destruct (_prometheus_metrics self !! s) as [families|]; [|discriminate].
  simpl in Hg. rewrite Hg. simpl. eauto.
Qed.

(** The same for the two run-outcome families. *)
Lemma runs_step_inv (c : bool) (g : string) (name : pyval) (value : result pyval)
    (self self' : JenkinsCollector) :
  (if c then add_runs_metric g name value self else Ok self) = Ok self' →
  same_config self self' ∧
  _prometheus_metrics self' = _prometheus_metrics self ∧
  (∀ f', f' ≠ g ∨ c = false → _job_runs_metrics self' !! f' = _job_runs_metrics self !! f') ∧
  (c = true → ∃ gf v, value = Ok v ∧ _job_runs_metrics self !! g = Some gf ∧
                      _job_runs_metrics self' !! g = Some (add_metric [name] v gf)).
Proof.
  destruct c.
  - unfold add_runs_metric.
    destruct (_job_runs_metrics self !! g) as [gf|] eqn:Hg; [|discriminate].
    destruct value as [v|e]; [|discriminate]. simpl. intros [= <-]. simpl.
    split; [apply same_config_with_metrics|]. split; [reflexivity|]. split.
    + intros f' [H|H]; [|discriminate]. now rewrite lookup_insert_ne by congruence.
    + intros _. exists gf, v. rewrite lookup_insert_eq. auto.
  - intros [= <-]. split; [apply same_config_refl|]. split; [reflexivity|].
    split; [reflexivity|discriminate].
Qed.

Lemma family_of_metrics (a b : JenkinsCollector) :
  _prometheus_metrics a = _prometheus_metrics b → ∀ s f, family a s f = family b s f.
Proof. intros H s f. unfold family. now rewrite H. Qed.

(** A field is bound to a value that passes the [if] guard. *)
Definition truthy_at (field : string) (d : list (string * pyval)) : Prop :=
  ∃ v, dict_lookup field d = Some v ∧ truthy v = true.

Lemma py_get_inv (m : pyval) (k : string) (dflt v : pyval) :
  py_get m k dflt = Ok v →
  ∃ d, m = PDict d ∧
       v = match dict_lookup k d with Some x => x | None => dflt end.
Proof.
  destruct m; try discriminate. simpl. intros H. eexists; split; [reflexivity|].
  destruct (dict_lookup k d); congruence.
Qed.

Lemma py_get_dict (d : list (string * pyval)) (k : string) (dflt : pyval) :
  py_get (PDict d) k dflt
  = Ok (match dict_lookup k d with Some x => x | None => dflt end).
Proof. simpl. now destruct (dict_lookup k d). Qed.

Lemma py_get_found (d : list (string * pyval)) (k : string) (dflt x : pyval) :
  dict_lookup k d = Some x → py_get (PDict d) k dflt = Ok x.
Proof. intros H. simpl. now rewrite H. Qed.

Lemma guard_truthy_at (d : list (string * pyval)) (k : string) (dflt v : pyval) :
  py_get (PDict d) k dflt = Ok v → truthy dflt = false → truthy v = true → truthy_at k d.
Proof.
  intros H Hd Hv. apply py_get_inv in H as (d' & [= <-] & ->).
  destruct (dict_lookup k d) as [x|] eqn:Hx; [exists x; auto | congruence].
Qed.

Lemma is_zero_not_truthy (v : pyval) : is_zero v → truthy v = false.
Proof. destruct v; simpl; try contradiction; now intros ->. Qed.

Lemma absent_or_zero_not_truthy (k : string) (d : list (string * pyval)) :
  absent_or_zero k d → ¬ truthy_at k d.
Proof.
  intros [H|(z & H & Hz)] (v & Hv & Ht); rewrite H in Hv; [discriminate|].
  injection Hv as <-. apply is_zero_not_truthy in Hz. congruence.
Qed.

(** ** The loop over [actions] *)

(** The families one entry of [actions] adds a sample to. *)
Definition writes (d : list (string * pyval)) (f : string) : Prop :=
  (In f action_fields ∧ truthy_at f d) ∨ (f = "passCount" ∧ truthy_at "totalCount" d).

Lemma guard_off (d : list (string * pyval)) (g f' : string) (dflt v : pyval) (s s' : string) :
  py_get (PDict d) g dflt = Ok v → truthy dflt = false →
  s' ≠ s ∨ (truthy_at g d → f' ≠ g) →
  s' ≠ s ∨ f' ≠ g ∨ truthy v = false.
Proof.
  intros Hget Hd [H|H]; [auto|]. right.
  destruct (truthy v) eqn:Hv; [|auto]. left. apply H. eapply guard_truthy_at; eauto.
Qed.

Lemma not_writes_field (d : list (string * pyval)) (g f' : string) :
  In g action_fields → ¬ writes d f' → truthy_at g d → f' ≠ g.
Proof. intros Hg Hw Ht ->. apply Hw. left. auto. Qed.

(** The value emitted for an action-level field bound to [x]. *)
Definition action_value (f : string) (x : pyval) : result pyval :=
  if String.eqb f "queuingDurationMillis" || String.eqb f "totalDurationMillis"
  then py_div_1000 x else Ok x.

Lemma add_action_inv (s : string) (name metric : pyval) (self self' : JenkinsCollector) :
  add_action s name metric self = Ok self' →
  ∃ d, metric = PDict d ∧
       same_config self self' ∧
       _job_runs_metrics self' = _job_runs_metrics self ∧
       (∀ s' f', s' ≠ s ∨ ¬ writes d f' → family self' s' f' = family self s' f') ∧
       (∀ f x, In f action_fields → dict_lookup f d = Some x → truthy x = true →
               ∃ gf v, action_value f x = Ok v ∧ family self s f = Some gf ∧
                       family self' s f = Some (add_metric [name] v gf)) ∧
       (truthy_at "totalCount" d →
        ∃ gf p, passcount (PDict d) = Ok p ∧ family self s "passCount" = Some gf ∧
                family self' s "passCount" = Some (add_metric [name] p gf)).
Proof.
  unfold add_action. intros H.
  apply bind_Ok in H as (q & Hq & H).
  destruct (py_get_inv _ _ _ _ Hq) as (d & -> & _). exists d. split; [reflexivity|].
  apply bind_Ok in H as (self1 & H1 & H). apply step_inv in H1 as (C1 & R1 & F1 & A1).
  apply bind_Ok in H as (t & Ht & H).
  apply bind_Ok in H as (self2 & H2 & H). apply step_inv in H2 as (C2 & R2 & F2 & A2).
  apply bind_Ok in H as (sk & Hsk & H).
  apply bind_Ok in H as (self3 & H3 & H). apply step_inv in H3 as (C3 & R3 & F3 & A3).
  apply bind_Ok in H as (fl & Hfl & H).
  apply bind_Ok in H as (self4 & H4 & H). apply step_inv in H4 as (C4 & R4 & F4 & A4).
  apply bind_Ok in H as (c & Hc & H).
  assert (Hlast : same_config self4 self' ∧
                  _job_runs_metrics self' = _job_runs_metrics self4 ∧
                  (∀ s' f', s' ≠ s ∨ ¬ writes d f' ∨ (f' ≠ "totalCount" ∧ f' ≠ "passCount") →
                            family self' s' f' = family self4 s' f') ∧
                  (truthy c = true →
                   ∃ gt gp p, passcount (PDict d) = Ok p ∧
                     family self4 s "totalCount" = Some gt ∧
                     family self' s "totalCount" = Some (add_metric [name] c gt) ∧
                     family self4 s "passCount" = Some gp ∧
                     family self' s "passCount" = Some (add_metric [name] p gp))).
  { destruct (truthy c) eqn:Htc.
    - apply bind_Ok in H as (self5 & H5 & H).
      apply (step_inv true) in H5 as (C5 & R5 & F5 & A5).
      apply bind_Ok in H as (p & Hp & H).
      apply (step_inv true) in H as (C6 & R6 & F6 & A6).
      assert (Htot : truthy_at "totalCount" d) by (eapply guard_truthy_at; eauto).
      split; [eapply same_config_trans; eauto|]. split; [congruence|]. split.
      + intros s' f' Hne. rewrite F6, F5; [reflexivity| |].
        * destruct Hne as [Hne|[Hne|[Hne _]]]; [auto| |auto]. right; left. intros ->.
          apply Hne. left. split; [simpl; tauto|assumption].
        * destruct Hne as [Hne|[Hne|[_ Hne]]]; [auto| |auto]. right; left. intros ->.
          apply Hne. right. auto.
      + intros _. destruct (A5 eq_refl) as (gt & v & Hv & Hgt & Hgt').
        destruct (A6 eq_refl) as (gp & p' & [= <-] & Hgp & Hgp').
        destruct Htot as (x & Hx & _).
        rewrite (py_get_found _ _ _ _ Hx) in Hc. rewrite (py_get_found _ _ _ _ Hx) in Hv.
        injection Hc as <-. injection Hv as <-.
        exists gt, gp, p. split; [assumption|]. split; [assumption|]. split.
        * rewrite F6 by (right; left; discriminate). assumption.
        * split; [|assumption]. rewrite <- Hgp. symmetry. apply F5. right; left; discriminate.
    - injection H as <-. split; [apply same_config_refl|]. split; [reflexivity|].
      split; [reflexivity|discriminate]. }
  destruct Hlast as (C5 & R5 & F5 & A5).
  assert (F04 : ∀ s' f', s' ≠ s ∨ ¬ writes d f' ∨ ¬ In f' action_fields →
                         family self4 s' f' = family self s' f').
  { intros s' f' Hne.
    assert (Hg : ∀ g, In g action_fields → s' ≠ s ∨ (truthy_at g d → f' ≠ g)).
    { intros g Hg. destruct Hne as [Hne|[Hne|Hne]]; [auto| |].
      - right. now apply not_writes_field.
      - right. intros _ ->. auto. }
    rewrite F4, F3, F2, F1; [reflexivity|..];
      (eapply guard_off; [eassumption|reflexivity|apply Hg; simpl; tauto]). }
  split; [repeat (eapply same_config_trans; [eassumption|]); apply same_config_refl|].
  split; [congruence|]. split; [|split].
  - intros s' f' Hne. rewrite F5, F04; [reflexivity| |];
      destruct Hne as [Hne|Hne]; auto.
  - intros f x Hf Hx Htx. unfold action_value.
    destruct Hf as [<-|[<-|[<-|[<-|[<-|[]]]]]]; simpl orb; cbv iota.
    + rewrite (py_get_found _ _ _ _ Hx) in Hq. injection Hq as <-.
      destruct (A1 Htx) as (gf & v & Hv & Hgf & Hgf').
      rewrite (py_get_found _ _ _ _ Hx) in Hv. simpl in Hv.
      exists gf, v. split; [assumption|]. split; [assumption|].
      rewrite F5, F4, F3, F2; first [assumption | right; left; discriminate
                                     | right; right; split; discriminate].
    + rewrite (py_get_found _ _ _ _ Hx) in Ht. injection Ht as <-.
      destruct (A2 Htx) as (gf & v & Hv & Hgf & Hgf').
      rewrite (py_get_found _ _ _ _ Hx) in Hv. simpl in Hv.
      exists gf, v. split; [assumption|]. split.
      * rewrite <- Hgf. symmetry. apply F1. right; left; discriminate.
      * rewrite F5, F4, F3; first [assumption | right; left; discriminate
                                   | right; right; split; discriminate].
    + rewrite (py_get_found _ _ _ _ Hx) in Hsk. injection Hsk as <-.
      destruct (A3 Htx) as (gf & v & Hv & Hgf & Hgf').
      rewrite (py_get_found _ _ _ _ Hx) in Hv.
      exists gf, v. split; [assumption|]. split.
      * rewrite <- Hgf. rewrite F2, F1 by (right; left; discriminate). reflexivity.
      * rewrite F5, F4; first [assumption | right; left; discriminate
                               | right; right; split; discriminate].
    + rewrite (py_get_found _ _ _ _ Hx) in Hfl. injection Hfl as <-.
      destruct (A4 Htx) as (gf & v & Hv & Hgf & Hgf').
      rewrite (py_get_found _ _ _ _ Hx) in Hv.
      exists gf, v. split; [assumption|]. split.
      * rewrite <- Hgf. rewrite F3, F2, F1 by (right; left; discriminate). reflexivity.
      * rewrite F5; first [assumption | right; right; split; discriminate].
    + rewrite (py_get_found _ _ _ _ Hx) in Hc. injection Hc as <-.
      destruct (A5 Htx) as (gt & gp & p & _ & Hgt & Hgt' & _).
      exists gt, x. split; [reflexivity|]. split; [|assumption].
      rewrite <- Hgt. rewrite F4, F3, F2, F1 by (right; left; discriminate). reflexivity.
  - intros Htot. pose proof Htot as (x & Hx & Htx).
    rewrite (py_get_found _ _ _ _ Hx) in Hc. injection Hc as <-.
    destruct (A5 Htx) as (gt & gp & p & Hp & _ & _ & Hgp & Hgp').
    exists gp, p. split; [assumption|]. split; [|assumption].
    rewrite <- Hgp. symmetry. apply F04. right; right. simpl. intuition discriminate.
Qed.

Lemma actions_loop_inv (s : string) (name : pyval) (entries : list pyval)
    (self self' : JenkinsCollector) :
  actions_loop s name entries self = Ok self' →
  same_config self self' ∧
  _job_runs_metrics self' = _job_runs_metrics self ∧
  (∀ s' f', s' ≠ s ∨ Forall (λ e, ∀ d, e = PDict d → ¬ writes d f') entries →
            family self' s' f' = family self s' f').
Proof.
  revert self. induction entries as [|metric rest IH]; intros self; simpl.
  - intros [= <-]. split; [apply same_config_refl|]. split; reflexivity.
  - intros H. apply bind_Ok in H as (self1 & H1 & H).
    apply add_action_inv in H1 as (d & -> & C1 & R1 & F1 & _).
    apply IH in H as (C2 & R2 & F2).
    split; [eapply same_config_trans; eauto|]. split; [congruence|].
    intros s' f' Hne. rewrite F2, F1; [reflexivity| |].
    + destruct Hne as [Hne|Hne]; [auto|]. right. inversion Hne; subst. auto.
    + destruct Hne as [Hne|Hne]; [auto|]. right. now inversion Hne.
Qed.

(** ** One build snapshot *)

(** The value emitted for a snapshot-level field bound to [x]. *)
Definition snapshot_value (f : string) (x : pyval) : result pyval :=
  if String.eqb f "number" then Ok x else py_div_1000 x.

(** The entries the loop over [actions] visits. *)
Definition action_entries (d : list (string * pyval)) : result (list pyval) :=
  py_iter (match dict_lookup "actions" d with Some a => a | None => PList [PDict []] end).

Definition no_entry_writes (entries : list pyval) (f : string) : Prop :=
  Forall (λ e, ∀ d, e = PDict d → ¬ writes d f) entries.

Lemma guard_snapshot_off (d : list (string * pyval)) (g f' : string) (v : pyval)
    (s s' : string) :
  py_get (PDict d) g (PInt 0) = Ok v →
  s' ≠ s ∨ f' ≠ g ∨ ¬ truthy_at g d →
  s' ≠ s ∨ f' ≠ g ∨ truthy v = false.
Proof.
  intros Hget [H|[H|H]]; [auto|auto|]. right; right.
  destruct (truthy v) eqn:Hv; [|reflexivity]. exfalso. apply H.
  eapply guard_truthy_at; eauto.
Qed.

Lemma add_data_inv (s : string) (sd job name : pyval) (self self' : JenkinsCollector) :
  _add_data_to_prometheus_structure s sd job name self = Ok self' →
  ∃ d entries,
    sd = PDict d ∧ action_entries d = Ok entries ∧
    same_config self self' ∧
    (∀ s' f', s' ≠ s ∨ ((In f' snapshot_fields → ¬ truthy_at f' d) ∧
                         no_entry_writes entries f') →
              family self' s' f' = family self s' f') ∧
    (∀ f x, In f snapshot_fields → dict_lookup f d = Some x → truthy x = true →
            ∃ gf v, snapshot_value f x = Ok v ∧ family self s f = Some gf ∧
                    family self' s f = Some (add_metric [name] v gf)).
Proof.
  unfold _add_data_to_prometheus_structure. intros H.
  apply bind_Ok in H as (du & Hdu & H).
  destruct (py_get_inv _ _ _ _ Hdu) as (d & -> & _). exists d.
  apply bind_Ok in H as (self1 & H1 & H). apply step_inv in H1 as (C1 & R1 & F1 & A1).
  apply bind_Ok in H as (ts & Hts & H).
  apply bind_Ok in H as (self2 & H2 & H). apply step_inv in H2 as (C2 & R2 & F2 & A2).
  apply bind_Ok in H as (nu & Hnu & H).
  apply bind_Ok in H as (self3 & H3 & H). apply step_inv in H3 as (C3 & R3 & F3 & A3).
  apply bind_Ok in H as (am & Ham & H).
  apply bind_Ok in H as (entries & Hen & H). exists entries.
  apply bind_Ok in H as (self4 & H4 & H). apply actions_loop_inv in H4 as (C4 & R4 & F4).
  apply bind_Ok in H as (rs & Hrs & H).
  apply bind_Ok in H as (self5 & H5 & H). apply runs_step_inv in H5 as (C5 & P5 & _).
  apply bind_Ok in H as (rf & Hrf & H).
  apply runs_step_inv in H as (C6 & P6 & _).
  assert (Hruns : ∀ s' f', family self' s' f' = family self4 s' f').
  { apply family_of_metrics. congruence. }
  assert (Hloop : ∀ f, In f snapshot_fields → no_entry_writes entries f).
  { intros f Hf. apply Forall_forall. intros e _ de -> [[Ha _]|[-> _]].
    - simpl in Hf, Ha. intuition (subst; discriminate).
    - simpl in Hf. intuition discriminate. }
  split; [reflexivity|]. split.
  { unfold action_entries. apply py_get_inv in Ham as (d' & [= <-] & ->). exact Hen. }
  split.
  { repeat (eapply same_config_trans; [eassumption|]). apply same_config_refl. }
  split.
  - intros s' f' Hne. rewrite Hruns.
    rewrite F4 by (destruct Hne as [?|[_ ?]]; auto).
    assert (Hg : ∀ g, In g snapshot_fields → s' ≠ s ∨ f' ≠ g ∨ ¬ truthy_at g d).
    { intros g Hg. destruct Hne as [Hne|[Hne _]]; [auto|]. right.
      destruct (decide (f' = g)) as [->|]; auto. }
    rewrite F3, F2, F1; [reflexivity|..];
      (eapply guard_snapshot_off; [eassumption|apply Hg; simpl; tauto]).
  - intros f x Hf Hx Htx. rewrite Hruns. rewrite F4 by (right; now apply Hloop).
    unfold snapshot_value.
    destruct Hf as [<-|[<-|[<-|[]]]]; simpl String.eqb; cbv iota.
    + rewrite (py_get_found _ _ _ _ Hx) in Hdu. injection Hdu as <-.
      destruct (A1 Htx) as (gf & v & Hv & Hgf & Hgf').
      rewrite (py_get_found _ _ _ _ Hx) in Hv. simpl in Hv.
      exists gf, v. split; [assumption|]. split; [assumption|].
      rewrite F3, F2 by (right; left; discriminate). assumption.
    + rewrite (py_get_found _ _ _ _ Hx) in Hts. injection Hts as <-.
      destruct (A2 Htx) as (gf & v & Hv & Hgf & Hgf').
      rewrite (py_get_found _ _ _ _ Hx) in Hv. simpl in Hv.
      exists gf, v. split; [assumption|]. split.
      * rewrite <- Hgf. symmetry. apply F1. right; left; discriminate.
      * rewrite F3 by (right; left; discriminate). assumption.
    + rewrite (py_get_found _ _ _ _ Hx) in Hnu. injection Hnu as <-.
      destruct (A3 Htx) as (gf & v & Hv & Hgf & Hgf').
      rewrite (py_get_found _ _ _ _ Hx) in Hv.
      exists gf, v. split; [assumption|]. split; [|assumption].
      rewrite <- Hgf. rewrite F2, F1 by (right; left; discriminate). reflexivity.
Qed.

(** ** The families after [_setup_empty_prometheus_metrics] *)

Lemma setup_family (self : JenkinsCollector) (status field : string) :
  In status statuses →
  family (_setup_empty_prometheus_metrics self) status field
  = status_families status !! field.
Proof.
  intros Hin. unfold family, _setup_empty_prometheus_metrics, statuses in *.
  cbn [fold_left with_metrics _prometheus_metrics].
  simpl in Hin.
  repeat (destruct Hin as [<-|Hin];
          [rewrite ?lookup_insert_ne by discriminate; rewrite lookup_insert_eq; reflexivity|]).
  destruct Hin.
Qed.

Lemma status_families_defined (status field : string) :
  In field fields → is_Some (status_families status !! field).
Proof.
  intros Hin. unfold status_families, fields in *.
  cbn [list_to_map foldr uncurry fst snd]. simpl in Hin.
  repeat (destruct Hin as [<-|Hin];
          [rewrite ?lookup_insert_ne by discriminate; rewrite lookup_insert_eq; eauto|]).
  destruct Hin.
Qed.

Lemma setup_ready (self : JenkinsCollector) : ready (_setup_empty_prometheus_metrics self).
Proof.
  split.
  - intros status field Hs Hf. rewrite setup_family by assumption.
    now apply status_families_defined.
  - intros field Hf. unfold _setup_empty_prometheus_metrics, run_fields in *.
    cbn [list_to_map foldr uncurry fst snd with_metrics _job_runs_metrics].
    simpl in Hf.
    repeat (destruct Hf as [<-|Hf];
            [rewrite ?lookup_insert_ne by discriminate; rewrite lookup_insert_eq; eauto|]).
    destruct Hf.
Qed.

Lemma setup_same_config (self : JenkinsCollector) :
  same_config self (_setup_empty_prometheus_metrics self).
Proof. repeat split. Qed.

Lemma samples_add_metric (label v : pyval) (g : GaugeMetricFamily) :
  samples (add_metric [label] v g)
  = samples g ++ [ {| sample_name := name g;
                      sample_labels := combine (labelnames g) [label];
                      sample_value := v |} ].
Proof. reflexivity. Qed.

(** ** The derived pass count *)

Lemma py_sub_None (a : pyval) : py_sub a PNone = Raise TypeError.
Proof. destruct a; reflexivity. Qed.

(** With the three counters bound to integers, the entry adds one sample
    [totalCount - failCount - skipCount] to the passCount family. *)
Lemma pass_count_derived (s : string) (label : pyval) (d : list (string * pyval))
    (self self' : JenkinsCollector) (total fail skip : Z) :
  add_action s label (PDict d) self = Ok self' →
  dict_lookup "totalCount" d = Some (PInt total) → total ≠ 0 →
  dict_lookup "failCount" d = Some (PInt fail) →
  dict_lookup "skipCount" d = Some (PInt skip) →
  ∃ gf, family self s "passCount" = Some gf ∧
        family self' s "passCount"
        = Some (add_metric [label] (PInt (total - fail - skip)) gf).
Proof.
  intros H Ht Hnz Hf Hs.
  apply add_action_inv in H as (d' & [= <-] & _ & _ & _ & _ & Hp).
  destruct Hp as (gf & p & Hp & Hgf & Hgf').
  { exists (PInt total). split; [assumption|]. simpl. now apply Z.eqb_neq in Hnz as ->. }
  unfold passcount in Hp.
  rewrite (py_get_found _ _ _ _ Ht), (py_get_found _ _ _ _ Hf),
    (py_get_found _ _ _ _ Hs) in Hp.
  simpl in Hp. injection Hp as <-. eauto.
Qed.

(** When [failCount] or [skipCount] is missing the subtraction has [None]
    as an operand and raises. *)
Lemma passcount_missing_operand (d : list (string * pyval)) :
  dict_lookup "failCount" d = None ∨ dict_lookup "skipCount" d = None →
  ∃ e, passcount (PDict d) = Raise e.
Proof.
  intros H. unfold passcount. rewrite !py_get_dict. cbn [mbind result_bind].
  destruct (dict_lookup "failCount" d) as [f|] eqn:Hf.
  - destruct H as [H|H]; [discriminate|]. rewrite H.
    destruct (py_sub _ f) as [x|e]; cbn [mbind result_bind]; [|eauto].
    rewrite py_sub_None. eauto.
  - rewrite py_sub_None. cbn [mbind result_bind]. eauto.
Qed.

Lemma add_action_missing_operand (s : string) (label : pyval) (d : list (string * pyval))
    (self self' : JenkinsCollector) :
  truthy_at "totalCount" d →
  dict_lookup "failCount" d = None ∨ dict_lookup "skipCount" d = None →
  add_action s label (PDict d) self ≠ Ok self'.
Proof.
  intros Ht Hmiss H.
  apply add_action_inv in H as (d' & [= <-] & _ & _ & _ & _ & Hp).
  destruct (Hp Ht) as (gf & p & Hp' & _).
  destruct (passcount_missing_operand d Hmiss) as (e & He).
  rewrite He in Hp'. discriminate.
Qed.

(** C1. The claim says that an [actions] entry carrying [totalCount] but
    neither [failCount] nor [skipCount] yields a passCount sample equal to
    [totalCount].  On the snapshot [{"actions": [{"totalCount": 10}]}] the
    projection instead raises [TypeError] ([10 - None]) and adds no sample
    at all. *)
Theorem pass_count_without_fail_and_skip_raises :
  _add_data_to_prometheus_structure "lastBuild"
    (PDict [("actions", PList [PDict [("totalCount", PInt 10)]])])
    (PDict [("fullName", PStr "x")]) (PStr "x")
    (_setup_empty_prometheus_metrics Examples.collector)
  = Raise TypeError.
Proof. vm_compute. reflexivity. Qed.

(** ** The values the projection emits *)

Lemma float_of_int_nearest (n : Z) (a : PrimFloat.float) :
  float_of_int n = Ok a ↔ nearest_float n = Some a.
Proof.
  unfold float_of_int, nearest_float.
  destruct (SpecFloat.binary_normalize FloatOps.prec FloatOps.emax n 0 false);
    split; intros H; try discriminate; injection H as <-; reflexivity.
Qed.

Lemma float_of_bool (b : bool) :
  float_of_int (Z_of_bool b) = Ok (if b then lit_1 else lit_0).
Proof. destruct b; vm_compute; reflexivity. Qed.

Lemma py_div_1000_divided (x v : pyval) : py_div_1000 x = Ok v ↔ divided_by_1000 x v.
Proof.
  unfold py_div_1000, divided_by_1000. split.
  - intros H. apply bind_Ok in H as (a & Ha & [= <-]). exists a. split; [reflexivity|].
    destruct x as [|b|n|y| | |]; cbn [as_float] in Ha; try discriminate.
    + rewrite float_of_bool in Ha. congruence.
    + now apply float_of_int_nearest.
    + congruence.
  - intros (a & -> & Ha).
    destruct x as [|b|n|y| | |]; cbn [as_float]; try contradiction.
    + rewrite float_of_bool, Ha. reflexivity.
    + apply float_of_int_nearest in Ha. rewrite Ha. reflexivity.
    + subst. reflexivity.
Qed.

Lemma action_value_emitted (f : string) (x v : pyval) :
  action_value f x = Ok v → emitted_as f x v.
Proof.
  unfold action_value, emitted_as.
  destruct (String.eqb f "queuingDurationMillis" || String.eqb f "totalDurationMillis").
  - apply py_div_1000_divided.
  - congruence.
Qed.

Lemma present_values_app (f : string) (l1 l2 : list pyval) :
  present_values f (l1 ++ l2) = present_values f l1 ++ present_values f l2.
Proof. unfold present_values. apply flat_map_app. Qed.

Lemma present_values_absent_or_zero (f : string) (e : pyval) :
  entry_absent_or_zero f e → present_values f [e] = [].
Proof.
  destruct e as [| | | | | |d]; try reflexivity. simpl.
  intros [->|(z & -> & Hz)]; [reflexivity|].
  now rewrite (is_zero_not_truthy z Hz).
Qed.

(** The loop over [actions], seen from one action-level family: it receives
    one sample for every entry that binds the field to a value passing the
    guard, in the order of the entries. *)
Lemma actions_loop_values (s : string) (label : pyval) (f : string) (entries : list pyval) :
  In f action_fields →
  ∀ self self' g,
    family self s f = Some g →
    actions_loop s label entries self = Ok self' →
    ∃ vals g',
      Forall2 (λ x v, action_value f x = Ok v) (present_values f entries) vals ∧
      family self' s f = Some g' ∧ name g' = name g ∧ labelnames g' = labelnames g ∧
      samples g' = samples g ++ map (added_sample g label) vals.
Proof.
  intros Hf. induction entries as [|metric rest IH]; intros self self' g Hg H.
  - injection H as <-. exists [], g. simpl. rewrite app_nil_r.
    split; [constructor|auto].
  - cbn [actions_loop] in H. apply bind_Ok in H as (self1 & H1 & H).
    apply add_action_inv in H1 as (d & -> & _ & _ & F & A & _).
    change (present_values f (PDict d :: rest))
      with (match dict_lookup f d with
            | Some x => if truthy x then [x] else []
            | None => []
            end ++ present_values f rest).
    assert (Hskip : ¬ truthy_at f d →
                    ∃ vals g',
                      Forall2 (λ x v, action_value f x = Ok v) (present_values f rest) vals ∧
                      family self' s f = Some g' ∧ name g' = name g ∧
                      labelnames g' = labelnames g ∧
                      samples g' = samples g ++ map (added_sample g label) vals).
    { intros Hn. apply (IH self1 self' g); [|exact H]. rewrite F; [exact Hg|].
      right. intros [[_ Ht]|[-> _]]; [contradiction|].
      simpl in Hf. intuition discriminate. }
    destruct (dict_lookup f d) as [x|] eqn:Hx; [destruct (truthy x) eqn:Ht|].
    + destruct (A f x Hf Hx Ht) as (gf & v & Hv & Hgf & Hgf').
      rewrite Hg in Hgf. injection Hgf as <-.
      destruct (IH self1 self' _ Hgf' H) as (vals & g' & HF & Hg' & Hn & Hl & Hs).
      exists (v :: vals), g'. split; [constructor; assumption|].
      split; [exact Hg'|]. split; [exact Hn|]. split; [exact Hl|].
      rewrite Hs. cbn [add_metric samples name labelnames map]. rewrite <- app_assoc.
      reflexivity.
    + apply Hskip. intros (y & Hy & Hty). congruence.
    + apply Hskip. intros (y & Hy & _). congruence.
Qed.

(** The same for the whole of [_add_data_to_prometheus_structure]. *)
Lemma add_data_action_values (s : string) (d : list (string * pyval)) (job label : pyval)
    (self self' : JenkinsCollector) (entries : list pyval) (f : string)
    (g : GaugeMetricFamily) :
  In f action_fields → family self s f = Some g →
  _add_data_to_prometheus_structure s (PDict d) job label self = Ok self' →
  action_entries d = Ok entries →
  ∃ vals, Forall2 (emitted_as f) (present_values f entries) vals ∧
          status_samples self' s f
          = status_samples self s f ++ map (added_sample g label) vals.
Proof.
  intros Hf Hg H Hen. unfold _add_data_to_prometheus_structure in H.
  apply bind_Ok in H as (du & Hdu & H).
  apply bind_Ok in H as (self1 & H1 & H). apply step_inv in H1 as (_ & _ & F1 & _).
  apply bind_Ok in H as (ts & Hts & H).
  apply bind_Ok in H as (self2 & H2 & H). apply step_inv in H2 as (_ & _ & F2 & _).
  apply bind_Ok in H as (nu & Hnu & H).
  apply bind_Ok in H as (self3 & H3 & H). apply step_inv in H3 as (_ & _ & F3 & _).
  apply bind_Ok in H as (am & Ham & H).
  apply bind_Ok in H as (entries' & Hen' & H).
  apply py_get_inv in Ham as (d' & [= <-] & ->).
  unfold action_entries in Hen. rewrite Hen in Hen'. injection Hen' as <-.
  apply bind_Ok in H as (self4 & H4 & H).
  apply bind_Ok in H as (rs & Hrs & H).
  apply bind_Ok in H as (self5 & H5 & H). apply runs_step_inv in H5 as (_ & P5 & _).
  apply bind_Ok in H as (rf & Hrf & H).
  apply runs_step_inv in H as (_ & P6 & _).
  assert (Hne : ∀ k, In k snapshot_fields → f ≠ k).
  { intros k Hk ->. simpl in Hf, Hk. intuition (subst; discriminate). }
  assert (Hg3 : family self3 s f = Some g).
  { rewrite F3, F2, F1; [exact Hg|..]; right; left; apply Hne; simpl; tauto. }
  destruct (actions_loop_values s label f entries Hf self3 self4 g Hg3 H4)
    as (vals & g' & HF & Hg' & _ & _ & Hs).
  exists vals. split.
  - eapply Forall2_impl; [exact HF|]. intros x v. apply action_value_emitted.
  - unfold status_samples.
    rewrite (family_of_metrics self' self4) by congruence.
    now rewrite Hg', Hg.
Qed.

(** ** Fields that are absent or zero *)

Lemma absent_or_zero_no_writes (f : string) (entries : list pyval) :
  In f action_fields → Forall (entry_absent_or_zero f) entries →
  no_entry_writes entries f.
Proof.
  intros Hf Hz. apply Forall_forall. intros e He d -> [[Ha Ht]|[-> _]].
  - rewrite Forall_forall in Hz. specialize (Hz _ He).
    simpl in Hz. now apply absent_or_zero_not_truthy in Hz.
  - simpl in Hf. intuition discriminate.
Qed.

(** C2. A numeric field of a build snapshot that is absent or bound to
    exactly 0 (the int 0, the float 0.0, or False) produces no sample for
    that field,
    by the same test for all eight fields.  For [duration], [timestamp] and
    [number], read on the snapshot, the family is left as it was.  For
    [queuingDurationMillis], [totalDurationMillis], [skipCount], [failCount]
    and [totalCount], read on every entry of [actions], the family receives
    one sample for each entry that binds the field to a value passing the
    guard, in order, and no other; an entry where the field is absent or
    zero is not among them, whatever the other entries hold, so that when no
    entry binds the field the family is left as it was. *)
Theorem zero_or_absent_field_emits_nothing
    (status : string) (d : list (string * pyval)) (entries : list pyval)
    (job label : pyval) (self self' : JenkinsCollector) :
  _add_data_to_prometheus_structure status (PDict d) job label self = Ok self' →
  action_entries d = Ok entries →
  (∀ f, In f snapshot_fields → absent_or_zero f d →
        status_samples self' status f = status_samples self status f) ∧
  (∀ f g, In f action_fields → family self status f = Some g →
          ∃ vals, Forall2 (emitted_as f) (present_values f entries) vals ∧
                  status_samples self' status f
                  = status_samples self status f ++ map (added_sample g label) vals) ∧
  (∀ f entry before after,
     entry_absent_or_zero f entry →
     present_values f (before ++ entry :: after) = present_values f (before ++ after)) ∧
  (∀ f, In f action_fields → Forall (entry_absent_or_zero f) entries →
        status_samples self' status f = status_samples self status f).
Proof.
  intros H Hen. split; [|split; [|split]].
  - intros f Hf Hz.
    apply add_data_inv in H as (d' & entries' & [= <-] & Hen' & _ & F & _).
    unfold status_samples. rewrite F; [reflexivity|]. right. split.
    + intros _. now apply absent_or_zero_not_truthy.
    + apply Forall_forall. intros e _ de -> [[Ha _]|[-> _]].
      * simpl in Hf, Ha. intuition (subst; discriminate).
      * simpl in Hf. intuition discriminate.
  - intros f g Hf Hg. eapply add_data_action_values; eauto.
  - intros f entry before after Hz.
    change (entry :: after) with ([entry] ++ after).
    rewrite !present_values_app, (present_values_absent_or_zero f entry Hz). reflexivity.
  - intros f Hf Hz.
    apply add_data_inv in H as (d' & entries' & [= <-] & Hen' & _ & F & _).
    rewrite Hen in Hen'. injection Hen' as <-.
    unfold status_samples. rewrite F; [reflexivity|]. right. split.
    + intros Hin. simpl in Hin, Hf. intuition (subst; discriminate).
    + now apply absent_or_zero_no_writes.
Qed.

Lemma zero_or_absent_field_emits_nothing_witness :
  let entries := [PDict [("failCount", PInt 0); ("totalCount", PInt 3); ("skipCount", PInt 1)];
                  PDict [("failCount", PInt 2); ("totalCount", PInt 5); ("skipCount", PInt 1)];
                  PDict [("queuingDurationMillis", PFloat lit_0)]] in
  let d := [("duration", PFloat lit_0); ("number", PInt 7); ("actions", PList entries)] in
  let self := _setup_empty_prometheus_metrics Examples.collector in
  match _add_data_to_prometheus_structure "lastBuild" (PDict d) (PDict []) (PStr "x") self with
  | Ok self' =>
      status_samples self' "lastBuild" "duration" = [] ∧
      status_samples self' "lastBuild" "queuingDurationMillis" = [] ∧
      map sample_value (status_samples self' "lastBuild" "failCount") = [PInt 2]
  | Raise _ => False
  end.
Proof.
  intros entries d self.
  assert (Hret : returned (_add_data_to_prometheus_structure "lastBuild" (PDict d)
                             (PDict []) (PStr "x") self) = true)
    by (vm_compute; reflexivity).
  destruct (_add_data_to_prometheus_structure "lastBuild" (PDict d) (PDict []) (PStr "x") self)
    as [self'|e] eqn:E; [|discriminate Hret].
  destruct (zero_or_absent_field_emits_nothing "lastBuild" d entries (PDict []) (PStr "x")
              self self' E eq_refl) as (Hsnap & Hact & _ & Hnone).
  split; [|split].
  - rewrite (Hsnap "duration"); [reflexivity|simpl; tauto|].
    right. exists (PFloat lit_0). split; reflexivity.
  - rewrite (Hnone "queuingDurationMillis"); [reflexivity|simpl; tauto|].
    constructor; [left; reflexivity|]. constructor; [left; reflexivity|].
    constructor; [|constructor]. right. exists (PFloat lit_0). split; reflexivity.
  - destruct (setup_ready Examples.collector) as (Hfam & _).
    destruct (Hfam "lastBuild" "failCount") as (g & Hg); [simpl; tauto|simpl; tauto|].
    destruct (Hact "failCount" g) as (vals & HF & ->); [simpl; tauto|exact Hg|].
    change (present_values "failCount" entries) with [PInt 2] in HF.
    inversion HF as [|x v l l' Hv Hnil]; subst. inversion Hnil; subst.
    unfold emitted_as in Hv. simpl in Hv. subst v. reflexivity.
Defined.

(** ** Metric names and units *)

Lemma snake_case_ascii (status : string) :
  ascii_only status = true → snake_case status = lower_snake_case status.
Proof. intros _. apply snake_case_spec. Qed.

(** C7. The status token of a metric name is the lower-snake-case form of
    the status identifier (each uppercase letter replaced by an underscore
    and its lowercase form); every family created for a status is named
    [jenkins_job_] + token + a suffix fixed by the field, so the duration of
    [lastFailedBuild] is [jenkins_job_last_failed_build_duration_seconds].
    The four millisecond-valued fields are emitted divided by 1000.0 under
    the family's name: a projected snapshot adds to the family of [duration]
    or [timestamp] the sample whose value is the field as a float divided by
    the float 1000.0, and to the family of [queuingDurationMillis] or
    [totalDurationMillis] one such sample for every [actions] entry that
    binds the field, in order.  (An int beyond the range of binary64 cannot
    be divided by a float; such a snapshot is not projected.) *)
Theorem metric_names_and_units :
  (∀ status, ascii_only status = true → snake_case status = lower_snake_case status) ∧
  (∀ self status field g,
     In status statuses →
     family (_setup_empty_prometheus_metrics self) status field = Some g →
     name g = "jenkins_job_" +:+ lower_snake_case status +:+ metric_suffix field) ∧
  (∀ self,
     name <$> family (_setup_empty_prometheus_metrics self) "lastFailedBuild" "duration"
     = Some "jenkins_job_last_failed_build_duration_seconds") ∧
  (∀ status d job label self self' f x,
     In f millisecond_snapshot_fields →
     _add_data_to_prometheus_structure status (PDict d) job label self = Ok self' →
     dict_lookup f d = Some x → truthy x = true →
     ∃ g v, divided_by_1000 x v ∧ family self status f = Some g ∧
            status_samples self' status f
            = status_samples self status f ++ [added_sample g label v]) ∧
  (∀ status d job label self self' entries f g,
     In f millisecond_action_fields →
     _add_data_to_prometheus_structure status (PDict d) job label self = Ok self' →
     action_entries d = Ok entries →
     family self status f = Some g →
     ∃ vals, Forall2 divided_by_1000 (present_values f entries) vals ∧
             status_samples self' status f
             = status_samples self status f ++ map (added_sample g label) vals) ∧
  (divided_by_1000 (PInt 2500) (PFloat lit_2_5) ∧
   divided_by_1000 (PFloat lit_1500) (PFloat lit_1_5) ∧
   ∀ v, ¬ divided_by_1000 (PInt (10 ^ 400)) v).
Proof.
  split; [exact snake_case_ascii|]. split.
  { intros self status field g Hs Hg. rewrite setup_family in Hg by assumption.
    apply status_families_name in Hg as (Hn & _). now rewrite <- snake_case_spec. }
  split; [intros self; vm_compute; reflexivity|]. split; [|split].
  - intros status d job label self self' f x Hf H Hx Htx.
    apply add_data_inv in H as (d' & entries & [= <-] & _ & _ & _ & A).
    destruct (A f x) as (g & v & Hv & Hg & Hg'); [|assumption|assumption|].
    { simpl in *. tauto. }
    exists g, v. split.
    + apply py_div_1000_divided. unfold snapshot_value in Hv.
      destruct Hf as [<-|[<-|[]]]; exact Hv.
    + split; [assumption|]. unfold status_samples. now rewrite Hg, Hg'.
  - intros status d job label self self' entries f g Hf H Hen Hg.
    destruct (add_data_action_values status d job label self self' entries f g)
      as (vals & HF & Hs); [simpl in *; tauto|assumption..|].
    exists vals. split; [|exact Hs].
    eapply Forall2_impl; [exact HF|]. intros x v. unfold emitted_as.
    destruct Hf as [<-|[<-|[]]]; exact id.
  - split; [|split].
    + exists lit_2500. split; reflexivity.
    + exists lit_1500. split; reflexivity.
    + intros v (a & _ & Ha). vm_compute in Ha. discriminate.
Qed.

Lemma metric_names_and_units_witness :
  let d := [("number", PInt 4); ("timestamp", PInt 1500000); ("duration", PInt 2500);
            ("actions", PList [PDict [("queuingDurationMillis", PInt 40)];
                               PDict [("totalDurationMillis", PInt 9)];
                               PDict [("queuingDurationMillis", PFloat lit_1500)]])] in
  let self := _setup_empty_prometheus_metrics Examples.collector in
  match _add_data_to_prometheus_structure "lastFailedBuild" (PDict d) (PDict [])
          (PStr "A/B/job1") self with
  | Ok self' =>
      status_samples self' "lastFailedBuild" "duration"
      = [sample_of "jenkins_job_last_failed_build_duration_seconds" (PStr "A/B/job1")
           (PFloat lit_2_5)]
  | Raise _ => False
  end.
Proof.
  intros d self.
  assert (Hret : returned (_add_data_to_prometheus_structure "lastFailedBuild" (PDict d)
                             (PDict []) (PStr "A/B/job1") self) = true)
    by (vm_compute; reflexivity).
  destruct (_add_data_to_prometheus_structure "lastFailedBuild" (PDict d) (PDict [])
              (PStr "A/B/job1") self) as [self'|e] eqn:E; [|discriminate Hret].
  destruct metric_names_and_units as (_ & _ & _ & Hsnap & _).
  destruct (Hsnap "lastFailedBuild" d (PDict []) (PStr "A/B/job1") self self' "duration"
              (PInt 2500)) as (g & v & (a & -> & Ha) & Hg & ->);
    [simpl; tauto|exact E|reflexivity|reflexivity|].
  vm_compute in Ha. injection Ha as <-.
  vm_compute in Hg. injection Hg as <-. reflexivity.
Defined.

(** ** Projection keeps no state *)

Lemma get_metrics_loop_same_config (sts : list string) (label job : pyval)
    (self self' : JenkinsCollector) :
  get_metrics_loop sts label job self = Ok self' → same_config self self'.
Proof.
  revert self. induction sts as [|status rest IH]; intros self; simpl.
  - intros [= <-]. apply same_config_refl.
  - intros H. apply bind_Ok in H as (present & _ & H).
    apply bind_Ok in H as (self1 & H1 & H). apply IH in H.
    eapply same_config_trans; [|exact H].
    destruct present.
    + apply bind_Ok in H1 as (v & _ & H1).
      now apply add_data_inv in H1 as (d & entries & _ & _ & C & _).
    + injection H1 as <-. apply same_config_refl.
Qed.

Lemma jobs_loop_same_config (jobs : list pyval) (self self' : JenkinsCollector) :
  jobs_loop jobs self = Ok self' → same_config self self'.
Proof.
  revert self. induction jobs as [|job rest IH]; intros self; simpl.
  - intros [= <-]. apply same_config_refl.
  - intros H. apply bind_Ok in H as (label & _ & H).
    apply bind_Ok in H as (self1 & H1 & H).
    apply get_metrics_loop_same_config in H1. apply IH in H.
    eapply same_config_trans; eauto.
Qed.

Lemma project_same_config (jobs : list pyval) (self self' : JenkinsCollector) :
  project jobs self = Ok self' → same_config self self'.
Proof.
  intros H. apply jobs_loop_same_config in H.
  eapply same_config_trans; [apply setup_same_config|exact H].
Qed.

Lemma same_config_eta (a b : JenkinsCollector) :
  same_config a b → b = with_metrics (_prometheus_metrics b) (_job_runs_metrics b) a.
Proof.
  destruct a, b. unfold same_config, with_metrics. simpl.
  intros (-> & -> & -> & ->). reflexivity.
Qed.

(** C9. Metric projection is a function of the job list: whatever families
    an earlier run left in the collector, the run starts from fresh ones, so
    running it again on the same jobs, from the collector the first run
    produced, gives the same families with the same samples (and the same
    exception when the first run raised). *)
Theorem projection_is_repeatable (jobs : list pyval) (self : JenkinsCollector) :
  (∀ pm jr, project jobs (with_metrics pm jr self) = project jobs self) ∧
  (∀ self1, project jobs self = Ok self1 →
            project jobs self1 = Ok self1 ∧
            ∀ self2, project jobs self1 = Ok self2 →
                     emitted (fst (yield_statuses statuses self2))
                     = emitted (fst (yield_statuses statuses self1))).
Proof.
  split; [reflexivity|].
  intros self1 H.
  assert (H1 : project jobs self1 = Ok self1).
  { rewrite (same_config_eta self self1) at 1 by (eapply project_same_config; eauto).
    exact H. }
  split; [exact H1|]. intros self2 H2. congruence.
Qed.

Lemma projection_is_repeatable_witness :
  match project [Examples.job1; Examples.other] Examples.collector with
  | Ok self1 =>
      project [Examples.job1; Examples.other] self1 = Ok self1 ∧
      length (emitted (fst (yield_statuses statuses self1))) = 7%nat
  | Raise _ => False
  end.
Proof.
  destruct (project [Examples.job1; Examples.other] Examples.collector) as [self1|e] eqn:E.
  - split.
    + apply (projection_is_repeatable [Examples.job1; Examples.other] Examples.collector).
      exact E.
    + vm_compute in E. injection E as <-. vm_compute. reflexivity.
  - vm_compute in E. discriminate.
Defined.

(** ** Null snapshots and snapshots without [actions] *)

Definition runs_ready (self : JenkinsCollector) : Prop :=
  ∀ field, In field run_fields → is_Some (_job_runs_metrics self !! field).

(** The two statements that close [_add_data_to_prometheus_structure]. *)
Definition runs_part (job label : pyval) (self : JenkinsCollector) : result JenkinsCollector :=
  rs ← py_get job "runs_successful_total" (PInt 0);
  self ← (if truthy rs
          then add_runs_metric "runs_successful_total" label
                 (py_get job "runs_successful_total" PNone) self
          else Ok self);
  rf ← py_get job "runs_failed_total" (PInt 0);
  if truthy rf
  then add_runs_metric "runs_failed_total" label
         (py_get job "runs_failed_total" PNone) self
  else Ok self.

Lemma runs_step_ok (c : bool) (g : string) (label v : pyval) (self : JenkinsCollector) :
  runs_ready self → In g run_fields →
  ∃ self', (if c then add_runs_metric g label (Ok v) self else Ok self) = Ok self' ∧
           _prometheus_metrics self' = _prometheus_metrics self ∧ runs_ready self'.
Proof.
  intros Hr Hg. destruct c; [|eauto].
  unfold add_runs_metric. destruct (Hr g Hg) as [gf ->]. simpl.
  eexists. split; [reflexivity|]. split; [reflexivity|].
  intros f Hf. simpl. destruct (decide (f = g)) as [->|Hne].
  - rewrite lookup_insert_eq. eauto.
  - rewrite lookup_insert_ne by congruence. auto.
Qed.

Lemma runs_part_ok (dj : list (string * pyval)) (label : pyval) (self : JenkinsCollector) :
  runs_ready self →
  ∃ self', runs_part (PDict dj) label self = Ok self' ∧
           _prometheus_metrics self' = _prometheus_metrics self ∧ runs_ready self'.
Proof.
  intros Hr. unfold runs_part. rewrite !py_get_dict. cbn [mbind result_bind].
  destruct (runs_step_ok
              (truthy (match dict_lookup "runs_successful_total" dj with
                       | Some x => x | None => PInt 0 end))
              "runs_successful_total" label
              (match dict_lookup "runs_successful_total" dj with
               | Some x => x | None => PNone end) self Hr)
    as (self1 & -> & P1 & Hr1); [simpl; tauto|].
  destruct (runs_step_ok
              (truthy (match dict_lookup "runs_failed_total" dj with
                       | Some x => x | None => PInt 0 end))
              "runs_failed_total" label
              (match dict_lookup "runs_failed_total" dj with
               | Some x => x | None => PNone end) self1 Hr1)
    as (self2 & H2 & P2 & Hr2); [simpl; tauto|].
  exists self2. split; [exact H2|]. split; [congruence|assumption].
Qed.

Lemma empty_snapshot_ok (status : string) (dj : list (string * pyval)) (label : pyval)
    (self : JenkinsCollector) :
  runs_ready self →
  ∃ self', _add_data_to_prometheus_structure status (PDict []) (PDict dj) label self = Ok self' ∧
           _prometheus_metrics self' = _prometheus_metrics self ∧ runs_ready self'.
Proof. intros Hr. exact (runs_part_ok dj label self Hr). Qed.

Lemma placeholder_entry (status : string) (label : pyval) (self : JenkinsCollector) :
  actions_loop status label [PDict []] self = Ok self.
Proof. reflexivity. Qed.

Lemma add_data_unfold (status : string) (status_data job label : pyval)
    (self : JenkinsCollector) :
  _add_data_to_prometheus_structure status status_data job label self
  = (d ← py_get status_data "duration" (PInt 0);
     self ← (if truthy d
             then add_status_metric status "duration" label
                    (x ← py_get status_data "duration" PNone; py_div_1000 x) self
             else Ok self);
     t ← py_get status_data "timestamp" (PInt 0);
     self ← (if truthy t
             then add_status_metric status "timestamp" label
                    (x ← py_get status_data "timestamp" PNone; py_div_1000 x) self
             else Ok self);
     n ← py_get status_data "number" (PInt 0);
     self ← (if truthy n
             then add_status_metric status "number" label
                    (py_get status_data "number" PNone) self
             else Ok self);
     actions_metrics ← py_get status_data "actions" (PList [PDict []]);
     entries ← py_iter actions_metrics;
     self ← actions_loop status label entries self;
     runs_part job label self).
Proof. reflexivity. Qed.

Lemma py_div_1000_convertible (v : pyval) :
  float_convertible v → ∃ q, py_div_1000 v = Ok (PFloat q).
Proof.
  destruct v as [|b|n|x| | |]; simpl; try contradiction.
  - intros _. destruct b; eexists; vm_compute; reflexivity.
  - intros (a & Ha). apply float_of_int_nearest in Ha.
    unfold py_div_1000. cbn [as_float]. rewrite Ha. simpl. eauto.
  - intros _. unfold py_div_1000. simpl. eauto.
Qed.

Lemma status_step_ok (c : bool) (s g : string) (label : pyval) (value : result pyval)
    (self : JenkinsCollector) :
  is_Some (family self s g) →
  (c = true → ∃ v, value = Ok v) →
  ∃ self', (if c then add_status_metric s g label value self else Ok self) = Ok self'.
Proof.
  intros Hg Hv. destruct c; [|eauto].
  destruct (Hv eq_refl) as (v & ->). now apply (step_ready true).
Qed.

Lemma guard_value (d : list (string * pyval)) (k : string) (dflt : pyval)
    (P : pyval → Prop) :
  truthy dflt = false →
  (∀ x, dict_lookup k d = Some x → truthy x = true → P x) →
  truthy (match dict_lookup k d with Some x => x | None => dflt end) = true →
  P (match dict_lookup k d with Some x => x | None => PNone end).
Proof.
  intros Hd HP. destruct (dict_lookup k d) as [x|]; [auto|]. congruence.
Qed.

Lemma add_data_without_actions_ok (status : string) (d dj : list (string * pyval))
    (label : pyval) (self : JenkinsCollector) :
  (∀ f, In f snapshot_fields → is_Some (family self status f)) →
  runs_ready self →
  dict_lookup "actions" d = None →
  (∀ f x, In f millisecond_snapshot_fields → dict_lookup f d = Some x →
          truthy x = true → float_convertible x) →
  ∃ self', _add_data_to_prometheus_structure status (PDict d) (PDict dj) label self = Ok self'.
Proof.
  intros Hfam Hruns Hact Hnum.
  rewrite add_data_unfold. rewrite !py_get_dict. cbn [mbind result_bind].
  match goal with
  | |- context [if ?c then add_status_metric ?s ?g ?l ?v ?x else Ok ?x] =>
      destruct (status_step_ok c s g l v x) as (self1 & E1)
  end.
  { apply Hfam. simpl; tauto. }
  { apply (guard_value d "duration" (PInt 0) (λ x, ∃ v, py_div_1000 x = Ok v));
      [reflexivity|].
    intros x Hx Ht. destruct (py_div_1000_convertible x) as (q & ->); [|eauto].
    apply (Hnum "duration"); simpl; auto. }
  rewrite E1. cbn [mbind result_bind]. apply step_inv in E1 as (_ & R1 & F1 & _).
  match goal with
  | |- context [if ?c then add_status_metric ?s ?g ?l ?v ?x else Ok ?x] =>
      destruct (status_step_ok c s g l v x) as (self2 & E2)
  end.
  { rewrite F1 by (right; left; discriminate). apply Hfam. simpl; tauto. }
  { apply (guard_value d "timestamp" (PInt 0) (λ x, ∃ v, py_div_1000 x = Ok v));
      [reflexivity|].
    intros x Hx Ht. destruct (py_div_1000_convertible x) as (q & ->); [|eauto].
    apply (Hnum "timestamp"); simpl; auto. }
  rewrite E2. cbn [mbind result_bind]. apply step_inv in E2 as (_ & R2 & F2 & _).
  match goal with
  | |- context [if ?c then add_status_metric ?s ?g ?l ?v ?x else Ok ?x] =>
      destruct (status_step_ok c s g l v x) as (self3 & E3)
  end.
  { rewrite F2, F1 by (right; left; discriminate). apply Hfam. simpl; tauto. }
  { intros _. eauto. }
  rewrite E3. cbn [mbind result_bind]. apply step_inv in E3 as (_ & R3 & _).
  rewrite Hact. cbn [py_iter mbind result_bind]. rewrite placeholder_entry.
  cbn [mbind result_bind].
  destruct (runs_part_ok dj label self3) as (self' & E & _); [|eauto].
  intros f Hf. rewrite R3, R2, R1. auto.
Qed.

(** C10. A status key bound to null is read as the empty mapping: the
    iteration of [_get_metrics] for that key raises nothing, leaves every
    status family as it was and goes on to the next key.  A snapshot without
    [actions] is read as one empty entry: the loop over it raises nothing
    and adds nothing, the six action-level families of the status keep their
    samples, and the call returns when the millisecond fields it carries are
    floats, bools, or ints within the range of binary64. *)
Theorem null_snapshot_and_missing_actions :
  (or_empty_dict PNone = PDict []) ∧
  (∀ status rest d label self,
     runs_ready self → dict_lookup status d = Some PNone →
     ∃ self1,
       get_metrics_loop (status :: rest) label (PDict d) self
       = get_metrics_loop rest label (PDict d) self1 ∧
       _prometheus_metrics self1 = _prometheus_metrics self ∧ runs_ready self1) ∧
  (∀ status d label self,
     dict_lookup "actions" d = None →
     action_entries d = Ok [PDict []] ∧
     actions_loop status label [PDict []] self = Ok self) ∧
  (∀ status d job label self self' f,
     dict_lookup "actions" d = None →
     _add_data_to_prometheus_structure status (PDict d) job label self = Ok self' →
     In f (action_fields ++ ["passCount"]) →
     status_samples self' status f = status_samples self status f) ∧
  (∀ status d dj label self,
     In status statuses → ready self →
     dict_lookup "actions" d = None →
     (∀ f x, In f millisecond_snapshot_fields → dict_lookup f d = Some x →
             truthy x = true → float_convertible x) →
     ∃ self', _add_data_to_prometheus_structure status (PDict d) (PDict dj) label self
              = Ok self').
Proof.
  split; [reflexivity|]. split.
  { intros status rest d label self Hr Hnull.
    destruct (empty_snapshot_ok status d label self Hr) as (self1 & E & P & Hr1).
    exists self1. split; [|auto].
    cbn [get_metrics_loop py_has_key py_getitem]. rewrite Hnull.
    cbn [mbind result_bind or_empty_dict truthy]. rewrite E. reflexivity. }
  split.
  { intros status d label self Hact. unfold action_entries. rewrite Hact. split; reflexivity. }
  split.
  { intros status d job label self self' f Hact H Hf.
    apply add_data_inv in H as (d' & entries & [= <-] & Hen & _ & F & _).
    unfold action_entries in Hen. rewrite Hact in Hen. injection Hen as <-.
    unfold status_samples. rewrite F; [reflexivity|]. right. split.
    - intros Hin. simpl in Hin, Hf. intuition (subst; discriminate).
    - constructor; [|constructor]. intros de [= <-] [[_ (v & Hv & _)]|[_ (v & Hv & _)]];
        discriminate. }
  intros status d dj label self Hs (Hfam & Hruns) Hact Hnum.
  apply add_data_without_actions_ok; auto.
  intros f Hf. apply Hfam; [assumption|]. simpl in *. tauto.
Qed.

Lemma null_snapshot_and_missing_actions_witness :
  let self := _setup_empty_prometheus_metrics Examples.collector in
  let d := [("fullName", PStr "x"); ("lastStableBuild", PNone)] in
  ∃ self1,
    get_metrics_loop ["lastStableBuild"; "lastSuccessfulBuild"] (PStr "x") (PDict d) self
    = get_metrics_loop ["lastSuccessfulBuild"] (PStr "x") (PDict d) self1 ∧
    _prometheus_metrics self1 = _prometheus_metrics self ∧ runs_ready self1.
Proof.
  intros self d.
  destruct null_snapshot_and_missing_actions as (_ & Hnull & _).
  apply (Hnull "lastStableBuild" ["lastSuccessfulBuild"] d (PStr "x") self).
  - exact (proj2 (setup_ready Examples.collector)).
  - reflexivity.
Defined.

(** * The API client *)

(** C5, as the claim states it, fails: a response with status 204 is a 2xx
    success status, and [_api_call] raises on it. *)
Lemma status_204_is_rejected :
  let response := {| status_code := 204; json := Some (PDict []) |} in
  let url := "http://jenkins:8080/api/json" in
  (200 <= status_code response < 300) ∧
  _api_call (λ _ _, Responded response) Examples.collector url [] []
  = (Raise (Exception "Call to url http://jenkins:8080/api/json failed with status: 204"),
     [request_for Examples.collector url []]).
Proof. intros response url. split; [cbn; lia|reflexivity]. Qed.

(** C5, amended. For every response to an API call, the call raises the
    error carrying the requested URL and the status code if and only if the
    status is not 200; exactly one request is made whatever the outcome (no
    retry); with status 200 the decoded body is returned, and a body that
    does not decode raises the decoder's error. *)
Theorem api_call_fails_iff_status_not_200
    (server : list Request → Request → Reply) (self : JenkinsCollector)
    (url : string) (params : list (string * string)) (log : list Request)
    (response : Response) :
  server log (request_for self url params) = Responded response →
  snd (_api_call server self url params log) = log ++ [request_for self url params] ∧
  (fst (_api_call server self url params log)
   = Raise (Exception ("Call to url " +:+ url +:+ " failed with status: "
                         +:+ string_of_Z (status_code response)))
   ↔ status_code response ≠ 200) ∧
  (status_code response = 200 →
   fst (_api_call server self url params log)
   = match json response with
     | Some body => Ok body
     | None => Raise JSONDecodeError
     end).
Proof.
  intros Hreply. unfold _api_call. cbn [fst snd]. rewrite Hreply. unfold read_reply.
  split; [reflexivity|].
  destruct (Z.eqb_spec (status_code response) 200) as [Heq|Hne]; cbn [negb].
  - split.
    + split; [|congruence]. destruct (json response); discriminate.
    + reflexivity.
  - split; [tauto|congruence].
Qed.

Lemma api_call_fails_iff_status_not_200_witness :
  let url := "http://jenkins:8080/job/A/api/json" in
  snd (_api_call Examples.broken Examples.collector url [] [])
  = [request_for Examples.collector url []] ∧
  (fst (_api_call Examples.broken Examples.collector url [] [])
   = Raise (Exception ("Call to url " +:+ url +:+ " failed with status: " +:+ string_of_Z 500))
   ↔ 500 ≠ 200) ∧
  (500 = 200 →
   fst (_api_call Examples.broken Examples.collector url [] []) = Raise JSONDecodeError).
Proof.
  intros url.
  apply (api_call_fails_iff_status_not_200 Examples.broken Examples.collector url [] []
           {| status_code := 500; json := None |}).
  reflexivity.
Defined.

(** * The job tree flattener *)

(** The kinds of a node, read off its [_class]. *)
Definition is_folder_class (c : pyval) : Prop :=
  c = PStr Folder ∨ c = PStr OrganizationFolder ∨ c = PStr WorkflowMultiBranchProject.

Definition is_run_class (c : pyval) : Prop :=
  c = PStr WorkflowJob ∨ c = PStr FreeStyleProject.

(** A job that carries no build history: no [builds], or an empty one. *)
Definition no_build_history (d : list (string * pyval)) : Prop :=
  match dict_lookup "builds" d with
  | None => True
  | Some b => truthy b = false
  end.

Lemma py_eq_str_true (c : pyval) (s : string) : py_eq_str c s = true ↔ c = PStr s.
Proof.
  destruct c; simpl; try (split; [discriminate|congruence]).
  rewrite String.eqb_eq. split; congruence.
Qed.

Lemma class_among_found (d : list (string * pyval)) (c : pyval) (classes : list string) :
  dict_lookup "_class" d = Some c →
  class_among (PDict d) "_class" classes = Ok (existsb (py_eq_str c) classes).
Proof.
  intros Hc. induction classes as [|k rest IH]; [reflexivity|].
  cbn [class_among py_getitem existsb]. rewrite Hc. cbn [mbind result_bind].
  destruct (py_eq_str c k); [reflexivity|exact IH].
Qed.

Lemma class_among_inv (job : pyval) (classes : list string) (b : bool) :
  class_among job "_class" classes = Ok b →
  classes = [] ∨ ∃ d c, job = PDict d ∧ dict_lookup "_class" d = Some c ∧
                        b = existsb (py_eq_str c) classes.
Proof.
  destruct classes as [|k rest]; [auto|]. intros H. right.
  destruct job; try discriminate.
  destruct (dict_lookup "_class" d) as [c|] eqn:Hc.
  - rewrite (class_among_found d c _ Hc) in H. injection H as <-. eauto.
  - cbn [class_among py_getitem] in H. rewrite Hc in H. discriminate.
Qed.

Lemma folder_class_test (c : pyval) :
  existsb (py_eq_str c) folder_kinds = true ↔ is_folder_class c.
Proof.
  unfold folder_kinds, is_folder_class. cbn [existsb].
  rewrite !orb_true_iff, !py_eq_str_true. intuition discriminate.
Qed.

Lemma run_class_test (c : pyval) :
  existsb (py_eq_str c) [WorkflowJob; FreeStyleProject] = true ↔ is_run_class c.
Proof.
  unfold is_run_class. cbn [existsb].
  rewrite !orb_true_iff, !py_eq_str_true. intuition discriminate.
Qed.

Lemma not_true_false (b : bool) (P : Prop) : (b = true ↔ P) → ¬ P → b = false.
Proof. destruct b; intuition. Qed.

(** A job without build history, or of another kind than pipeline or
    freestyle, goes through [parse_job_runs] untouched and without a request. *)
Lemma parse_job_runs_plain (server : list Request → Request → Reply)
    (self : JenkinsCollector) (d : list (string * pyval)) (c : pyval) (log : list Request) :
  dict_lookup "_class" d = Some c →
  ¬ is_run_class c ∨ no_build_history d →
  parse_job_runs server self (PDict d) log = (Ok (PDict d), log).
Proof.
  intros Hc Hplain. unfold parse_job_runs.
  rewrite (class_among_found d c) by assumption.
  unfold lift, mbind, M_bind. 
  destruct (existsb (py_eq_str c) [WorkflowJob; FreeStyleProject]) eqn:Hk; [|reflexivity].
  destruct Hplain as [Hn|Hn]; [apply run_class_test in Hk; contradiction|].
  rewrite py_get_dict. unfold no_build_history in Hn.
  destruct (dict_lookup "builds" d) as [b|]; [rewrite Hn|]; reflexivity.
Qed.

(** * Failed requests abort the scrape *)

(** The exception [_api_call] raises for request [r] made after [log], if any. *)
Definition call_error (server : list Request → Request → Reply)
    (log : list Request) (r : Request) : option exn :=
  match read_reply (req_url r) (server log r) with
  | Ok _ => None
  | Raise e => Some e
  end.

(** Every request of [calls], made in turn after [log], was answered with
    status 200 and a body that decodes. *)
Fixpoint all_ok (server : list Request → Request → Reply)
    (log calls : list Request) : Prop :=
  match calls with
  | [] => True
  | c :: rest => call_error server log c = None ∧ all_ok server (log ++ [c]) rest
  end.

(** A run that started at [log]: it only appended requests, and either all
    of them succeeded or the last one failed and its exception is the
    result. *)
Definition traced {A : Type} (server : list Request → Request → Reply)
    (log : list Request) (out : result A * list Request) : Prop :=
  ∃ calls, snd out = log ++ calls ∧
    (all_ok server log calls ∨
     ∃ pre c e, calls = pre ++ [c] ∧ all_ok server log pre ∧
                call_error server (log ++ pre) c = Some e ∧ fst out = Raise e).

Section Traced.
Context (server : list Request → Request → Reply) (self : JenkinsCollector).

Lemma all_ok_app (log a b : list Request) :
  all_ok server log (a ++ b) ↔ all_ok server log a ∧ all_ok server (log ++ a) b.
Proof.
  revert log. induction a as [|c a IH]; intros log; simpl.
  - rewrite app_nil_r. tauto.
  - rewrite IH, <- app_assoc. simpl. tauto.
Qed.

Lemma traced_here {A : Type} (log : list Request) (r : result A) :
  traced server log (r, log).
Proof. exists []. simpl. rewrite app_nil_r. auto. Qed.

Lemma traced_seq {A B : Type} (log log1 : list Request) (r1 : result A)
    (out2 : result B * list Request) :
  traced server log (r1, log1) →
  (∀ a, r1 = Ok a → traced server log1 out2) →
  (∀ e, r1 = Raise e → out2 = (Raise e, log1)) →
  traced server log out2.
Proof.
  intros (calls1 & Hlog1 & H1) Hok Herr. simpl in Hlog1.
  destruct r1 as [a|e].
  - destruct H1 as [H1|(pre & c & e & _ & _ & _ & Hr)]; [|discriminate].
    destruct (Hok a eq_refl) as (calls2 & Hlog2 & H2).
    exists (calls1 ++ calls2). split; [rewrite Hlog2, Hlog1; symmetry; apply app_assoc|].
    destruct H2 as [H2|(pre & c & e & -> & Hpre & Hc & Hr)].
    + left. apply all_ok_app. subst log1. auto.
    + right. exists (calls1 ++ pre), c, e. subst log1.
      split; [apply app_assoc|]. split; [apply all_ok_app; auto|].
      split; [now rewrite app_assoc|assumption].
  - rewrite (Herr e eq_refl). exists calls1. split; [assumption|].
    destruct H1 as [H1|(pre & c & e0 & Hc1 & Hpre & Hc & Hr)]; [left; assumption|].
    right. exists pre, c, e0. simpl in Hr. injection Hr as ->. auto.
Qed.

Lemma traced_raise {A B : Type} (log log' : list Request) (e : exn) :
  traced server log (@Raise A e, log') → traced server log (@Raise B e, log').
Proof.
  intros H. apply (traced_seq log log' (@Raise A e)); [exact H|discriminate|].
  now intros e' [= <-].
Qed.

Lemma traced_api_call (url : string) (params : list (string * string)) (log : list Request) :
  traced server log (_api_call server self url params log).
Proof.
  unfold _api_call. exists [request_for self url params]. split; [reflexivity|].
  cbn [fst].
  destruct (read_reply url (server log (request_for self url params)))
    as [body|e] eqn:Hr.
  - left. simpl. unfold call_error. simpl. now rewrite Hr.
  - right. exists [], (request_for self url params), e. rewrite app_nil_r.
    split; [reflexivity|]. split; [exact I|]. split; [|reflexivity].
    unfold call_error. simpl. now rewrite Hr.
Qed.

(** A computation all of whose runs are traced. *)
Definition Traced {A : Type} (m : M A) : Prop := ∀ log, traced server log (m log).

Lemma Traced_ret {A : Type} (a : A) : Traced (mret a).
Proof. intros log. apply traced_here. Qed.

Lemma Traced_lift {A : Type} (r : result A) : Traced (lift r).
Proof. intros log. apply traced_here. Qed.

Lemma Traced_bind {A B : Type} (m : M A) (f : A → M B) :
  Traced m → (∀ a, Traced (f a)) → Traced (m ≫= f).
Proof.
  intros Hm Hf log. unfold mbind, M_bind.
  specialize (Hm log). destruct (m log) as [r1 log1] eqn:Em.
  apply (traced_seq log log1 r1); [exact Hm| |].
  - intros a ->. apply Hf.
  - intros e ->. reflexivity.
Qed.

Lemma Traced_if {A : Type} (c : bool) (m1 m2 : M A) :
  Traced m1 → Traced m2 → Traced (if c then m1 else m2).
Proof. destruct c; auto. Qed.

Lemma Traced_runs_loop (builds successful_runs failed_runs : list pyval) :
  Traced (runs_loop server self builds successful_runs failed_runs).
Proof.
  revert successful_runs failed_runs.
  induction builds as [|workflow_run rest IH]; intros successful_runs failed_runs.
  - apply Traced_ret.
  - cbn [runs_loop].
    apply Traced_bind; [apply Traced_lift|intros url].
    apply Traced_bind; [intros log; apply traced_api_call|intros wf_data].
    apply Traced_bind; [apply Traced_lift|intros r1].
    apply Traced_bind.
    { apply Traced_if; [|apply Traced_ret].
      apply Traced_bind; [apply Traced_lift|intros n; apply Traced_ret]. }
    intros successful_runs'.
    apply Traced_bind; [apply Traced_lift|intros r2].
    apply Traced_bind.
    { apply Traced_if; [|apply Traced_ret].
      apply Traced_bind; [apply Traced_lift|intros n; apply Traced_ret]. }
    intros failed_runs'. apply IH.
Qed.

Lemma Traced_parse_job_runs (job : pyval) : Traced (parse_job_runs server self job).
Proof.
  unfold parse_job_runs.
  apply Traced_bind; [apply Traced_lift|intros k].
  apply Traced_if; [|apply Traced_ret].
  apply Traced_bind; [apply Traced_lift|intros builds].
  apply Traced_if; [|apply Traced_ret].
  apply Traced_bind; [apply Traced_lift|intros entries].
  apply Traced_bind; [apply Traced_runs_loop|intros runs]. apply Traced_lift.
Qed.

Definition traced_opt {A : Type} (log : list Request)
    (o : option (result A * list Request)) : Prop :=
  match o with
  | None => True
  | Some out => traced server log out
  end.

Lemma traced_parse_jobs_loop
    (recurse : string → list Request → option (result (list pyval) * list Request)) :
  (∀ u log, traced_opt log (recurse u log)) →
  ∀ todo jobs log, traced_opt log (parse_jobs_loop server self recurse todo jobs log).
Proof.
  intros Hrec todo. induction todo as [|job rest IH]; intros jobs log; cbn [parse_jobs_loop].
  - apply traced_here.
  - destruct (class_among job "_class" folder_kinds) as [[|]|e]; [| |apply traced_here].
    + destruct (py_getitem job "url" ≫= (λ u, py_add_str u "/api/json")) as [url|e];
        [|apply traced_here].
      specialize (Hrec url log).
      destruct (recurse url log) as [[[sub|e] log']|]; [| |exact I].
      * specialize (IH (jobs ++ sub) log').
        destruct (parse_jobs_loop server self recurse rest (jobs ++ sub) log')
          as [out|]; [|exact I].
        apply (traced_seq log log' (Ok sub)); [exact Hrec| |discriminate].
        intros _ _. exact IH.
      * exact Hrec.
    + pose proof (Traced_parse_job_runs job log) as Hj.
      destruct (parse_job_runs server self job log) as [[job'|e] log'];
        [|exact (traced_raise _ _ _ Hj)].
      specialize (IH (jobs ++ [job']) log').
      destruct (parse_jobs_loop server self recurse rest (jobs ++ [job']) log')
        as [out|]; [|exact I].
      apply (traced_seq log log' (Ok job')); [exact Hj| |discriminate].
      intros _ _. exact IH.
Qed.

Lemma traced_parse_jobs (depth : nat) (url : string) (params : list (string * string))
    (log : list Request) :
  traced_opt log (parse_jobs server self depth url params log).
Proof.
  revert url log. induction depth as [|depth IH]; intros url log; [exact I|].
  cbn [parse_jobs].
  pose proof (traced_api_call url params log) as Hcall.
  destruct (_api_call server self url params log) as [[body|e] log'];
    [|exact (traced_raise _ _ _ Hcall)].
  destruct (py_getitem body "jobs" ≫= py_iter) as [todo|e]; cycle 1.
  { apply (traced_seq log log' (Ok body)); [exact Hcall| |discriminate].
    intros _ _. apply traced_here. }
  pose proof (traced_parse_jobs_loop (λ u, parse_jobs server self depth u params)
                (λ u l, IH u l) todo [] log') as Hloop.
  destruct (parse_jobs_loop server self (λ u, parse_jobs server self depth u params)
              todo [] log') as [out|]; [|exact I].
  apply (traced_seq log log' (Ok body)); [exact Hcall| |discriminate].
  intros _ _. exact Hloop.
Qed.

End Traced.






(** * The shape of the flattened list *)

(** A job hierarchy as the server presents it: leaf jobs and folders with
    their children, each node with the JSON object the API lists for it. *)
Inductive node : Type :=
| Leaf (job : pyval)
| Dir (job : pyval) (children : list node).

Definition root (n : node) : pyval :=
  match n with
  | Leaf job => job
  | Dir job _ => job
  end.

(** The leaf jobs below a node, depth first, in the order of the lists. *)
Fixpoint leaves (n : node) : list pyval :=
  match n with
  | Leaf job => [job]
  | Dir _ children => flat_map leaves children
  end.

Fixpoint height (n : node) : nat :=
  match n with
  | Leaf _ => 0
  | Dir _ children => S (list_max (map height children))
  end.

(** The server answers [url] with status 200 and a body that lists [js]
    under [jobs], whatever was requested before. *)
Definition answers (server : list Request → Request → Reply) (self : JenkinsCollector)
    (params : list (string * string)) (url : string) (js : list pyval) : Prop :=
  ∃ body,
    (∀ log, server log (request_for self url params)
            = Responded {| status_code := 200; json := Some body |}) ∧
    py_getitem body "jobs" = Ok (PList js).

(** The server presents the hierarchy [n]: a leaf has a [_class] outside
    the folder kinds; a folder has a folder [_class] and a [url] under which
    the server lists its children. *)
Inductive serves (server : list Request → Request → Reply) (self : JenkinsCollector)
    (params : list (string * string)) : node → Prop :=
| serves_leaf d c :
    dict_lookup "_class" d = Some c → ¬ is_folder_class c →
    serves server self params (Leaf (PDict d))
| serves_dir d c u children :
    dict_lookup "_class" d = Some c → is_folder_class c →
    dict_lookup "url" d = Some (PStr u) →
    answers server self params (u +:+ "/api/json") (map root children) →
    Forall (serves server self params) children →
    serves server self params (Dir (PDict d) children).

(** [job'] is [job] as [parse_job_runs] leaves it after some run. *)
Definition aggregated (server : list Request → Request → Reply) (self : JenkinsCollector)
    (job job' : pyval) : Prop :=
  ∃ log log', parse_job_runs server self job log = (Ok job', log').

(** A job [parse_job_runs] never touches. *)
Definition plain (server : list Request → Request → Reply) (self : JenkinsCollector)
    (job : pyval) : Prop :=
  ∀ log, parse_job_runs server self job log = (Ok job, log).

Section Flatten.
Context (server : list Request → Request → Reply) (self : JenkinsCollector)
        (params : list (string * string)).

Lemma answers_api_call (url : string) (js : list pyval) (log : list Request) :
  answers server self params url js →
  ∃ body, _api_call server self url params log
          = (Ok body, log ++ [request_for self url params]) ∧
          (js ← py_getitem body "jobs"; py_iter js) = Ok js.
Proof.
  intros (body & Hreply & Hjobs). exists body. unfold _api_call.
  rewrite Hreply, Hjobs. split; reflexivity.
Qed.

(** A child outside the folder kinds takes the [else] branch of the loop. *)
Lemma leaf_step
    (recurse : string → list Request → option (result (list pyval) * list Request))
    (d : list (string * pyval)) (c : pyval) (rest jobs : list pyval) (log : list Request) :
  dict_lookup "_class" d = Some c → ¬ is_folder_class c →
  parse_jobs_loop server self recurse (PDict d :: rest) jobs log
  = match parse_job_runs server self (PDict d) log with
    | (Raise e, log') => Some (Raise e, log')
    | (Ok job', log') => parse_jobs_loop server self recurse rest (jobs ++ [job']) log'
    end.
Proof.
  intros Hc Hnf. cbn [parse_jobs_loop]. rewrite (class_among_found d c) by assumption.
  rewrite (not_true_false _ _ (folder_class_test c) Hnf). reflexivity.
Qed.

Lemma list_max_cons_le (n : nat) (l : list nat) (m : nat) :
  (list_max (n :: l) ≤ m)%nat ↔ (n ≤ m ∧ list_max l ≤ m)%nat.
Proof. simpl. lia. Qed.

(** The loop over the children of a folder, given that the recursive calls
    flatten every hierarchy of height below [depth]. *)
Lemma flatten_loop (depth : nat) :
  (∀ url ts, answers server self params url (map root ts) →
             Forall (serves server self params) ts →
             (list_max (map height ts) < depth)%nat →
             ∀ log, ∃ r log',
               parse_jobs server self depth url params log = Some (r, log') ∧
               (∀ jobs, r = Ok jobs →
                        Forall2 (aggregated server self) (flat_map leaves ts) jobs) ∧
               (Forall (plain server self) (flat_map leaves ts) →
                r = Ok (flat_map leaves ts))) →
  ∀ ts, Forall (serves server self params) ts →
        (list_max (map height ts) ≤ depth)%nat →
        ∀ before acc log,
          Forall2 (aggregated server self) before acc →
          ∃ r log',
            parse_jobs_loop server self (λ u, parse_jobs server self depth u params)
              (map root ts) acc log = Some (r, log') ∧
            (∀ jobs, r = Ok jobs →
                     Forall2 (aggregated server self) (before ++ flat_map leaves ts) jobs) ∧
            (Forall (plain server self) (flat_map leaves ts) →
             r = Ok (acc ++ flat_map leaves ts)).
Proof.
  intros IH ts. induction ts as [|n ts IHts]; intros Hserves Hheight before acc log Hacc.
  - exists (Ok acc), log. simpl. rewrite !app_nil_r. split; [reflexivity|].
    split; [now intros jobs [= <-]|reflexivity].
  - inversion Hserves as [|? ? Hn Hts]; subst.
    cbn [map] in Hheight. apply list_max_cons_le in Hheight as (Hhn & Hhts).
    inversion Hn as [d c Hc Hnf|d c u children Hc Hf Hu Hans Hch]; subst.
    + (* a leaf *)
      cbn [map root].
      rewrite (leaf_step (λ u, parse_jobs server self depth u params) d c
                 (map root ts) acc log Hc Hnf).
      destruct (parse_job_runs server self (PDict d) log) as [[job'|e] log1] eqn:Hruns.
      * destruct (IHts Hts Hhts (before ++ [PDict d]) (acc ++ [job']) log1)
          as (r & log' & Hloop & Hagg & Hplain).
        { apply Forall2_app; [assumption|]. constructor; [|constructor].
          exists log, log1. exact Hruns. }
        exists r, log'. split; [exact Hloop|]. cbn [flat_map leaves]. split.
        -- intros jobs Hr. specialize (Hagg jobs Hr).
           now rewrite <- app_assoc in Hagg.
        -- intros Hp. inversion Hp as [|? ? Hp1 Hp2]; subst.
           rewrite (Hp1 log) in Hruns. injection Hruns as <- <-.
           rewrite (Hplain Hp2). now rewrite <- app_assoc.
      * exists (Raise e), log1. split; [reflexivity|]. split; [discriminate|].
        intros Hp. cbn [flat_map leaves] in Hp. inversion Hp as [|? ? Hp1 Hp2]; subst.
        rewrite (Hp1 log) in Hruns. discriminate.
    + (* a folder *)
      cbn [map root parse_jobs_loop].
      rewrite (class_among_found d c) by assumption.
      rewrite (proj2 (folder_class_test c) Hf).
      cbn [py_getitem]. rewrite Hu. cbn [mbind result_bind py_add_str].
      cbn [height] in Hhn.
      destruct (IH (u +:+ "/api/json") children Hans Hch ltac:(lia) log)
        as (r1 & log1 & Hrec & Hagg1 & Hplain1).
      rewrite Hrec. cbn [flat_map leaves]. fold (flat_map leaves children).
      destruct r1 as [sub|e].
      * destruct (IHts Hts Hhts (before ++ flat_map leaves children) (acc ++ sub) log1)
          as (r & log' & Hloop & Hagg & Hplain).
        { apply Forall2_app; [assumption|]. now apply Hagg1. }
        exists r, log'. split; [exact Hloop|]. split.
        -- intros jobs Hr. specialize (Hagg jobs Hr). now rewrite <- app_assoc in Hagg.
        -- intros Hp. apply Forall_app in Hp as (Hp1 & Hp2).
           specialize (Hplain1 Hp1). injection Hplain1 as ->.
           rewrite (Hplain Hp2). now rewrite <- app_assoc.
      * exists (Raise e), log1. split; [reflexivity|]. split; [discriminate|].
        intros Hp. apply Forall_app in Hp as (Hp1 & _).
        specialize (Hplain1 Hp1). discriminate.
Qed.

Lemma flatten_served (depth : nat) :
  ∀ url ts, answers server self params url (map root ts) →
            Forall (serves server self params) ts →
            (list_max (map height ts) < depth)%nat →
            ∀ log, ∃ r log',
              parse_jobs server self depth url params log = Some (r, log') ∧
              (∀ jobs, r = Ok jobs →
                       Forall2 (aggregated server self) (flat_map leaves ts) jobs) ∧
              (Forall (plain server self) (flat_map leaves ts) →
               r = Ok (flat_map leaves ts)).
Proof.
  induction depth as [|depth IH]; intros url ts Hans Hserves Hheight log; [lia|].
  destruct (answers_api_call url (map root ts) log Hans) as (body & Hcall & Hjobs).
  cbn [parse_jobs]. rewrite Hcall, Hjobs.
  destruct (flatten_loop depth IH ts Hserves ltac:(lia) [] []
              (log ++ [request_for self url params]) ltac:(constructor))
    as (r & log' & Hloop & Hagg & Hplain).
  exists r, log'. split; [exact Hloop|]. split; [exact Hagg|exact Hplain].
Qed.

End Flatten.

(** A job that is not a pipeline or freestyle job, or that carries no build
    history. *)
Definition quiet_leaf (job : pyval) : Prop :=
  ∃ d c, job = PDict d ∧ dict_lookup "_class" d = Some c ∧
         (¬ is_run_class c ∨ no_build_history d).

Lemma quiet_leaf_plain (server : list Request → Request → Reply) (self : JenkinsCollector)
    (job : pyval) :
  quiet_leaf job → plain server self job.
Proof. intros (d & c & -> & Hc & Hq) log. now apply parse_job_runs_plain with c. Qed.

(** C8. A child whose [_class] is none of the three folder kinds is a leaf
    of the hierarchy the server presents, at whatever level it is listed.
    [parse_jobs] never descends into it: a list the call returns holds every
    such child at its place, as [parse_job_runs] leaves it.  When the child
    is not a pipeline or freestyle job, or carries no build history,
    [parse_job_runs] requests nothing, raises nothing and leaves it as it
    is; and when every leaf is of that sort, [parse_jobs] returns, and
    returns exactly the leaves. *)
Theorem non_folder_child_is_a_leaf
    (server : list Request → Request → Reply) (self : JenkinsCollector)
    (params : list (string * string)) :
  (∀ job log, quiet_leaf job → parse_job_runs server self job log = (Ok job, log)) ∧
  (∀ depth url ts log,
     answers server self params url (map root ts) →
     Forall (serves server self params) ts →
     (list_max (map height ts) < depth)%nat →
     ∃ r log',
       parse_jobs server self depth url params log = Some (r, log') ∧
       (∀ jobs, r = Ok jobs →
                Forall2 (aggregated server self) (flat_map leaves ts) jobs) ∧
       (Forall quiet_leaf (flat_map leaves ts) → r = Ok (flat_map leaves ts))).
Proof.
  split.
  - intros job log Hq. now apply quiet_leaf_plain.
  - intros depth url ts log Hans Hs Hd.
    destruct (flatten_served server self params depth url ts Hans Hs Hd log)
      as (r & log' & Hrun & Hagg & Hplain).
    exists r, log'. split; [exact Hrun|]. split; [exact Hagg|].
    intros Hq. apply Hplain. eapply List.Forall_impl; [|exact Hq].
    intros job. apply quiet_leaf_plain.
Qed.

Lemma non_folder_child_is_a_leaf_witness :
  ∃ log', parse_jobs Examples.leaves_only Examples.collector 1
            "http://jenkins:8080/api/json" [] []
          = Some (Ok [Examples.other; Examples.freestyle_no_builds; Examples.pipeline_empty],
                  log').
Proof.
  destruct (non_folder_child_is_a_leaf Examples.leaves_only Examples.collector [])
    as (_ & H).
  destruct (H 1%nat "http://jenkins:8080/api/json"
              [Leaf Examples.other; Leaf Examples.freestyle_no_builds;
               Leaf Examples.pipeline_empty] [])
    as (r & log' & Hrun & _ & Hquiet).
  - eexists. split; [intros log; reflexivity|reflexivity].
  - constructor; [|constructor; [|constructor; [|constructor]]];
      (eapply serves_leaf; [reflexivity|]; intros [E|[E|E]]; discriminate).
  - simpl. lia.
  - exists log'. rewrite Hrun, Hquiet; [reflexivity|].
    constructor; [|constructor; [|constructor; [|constructor]]].
    + eexists _, _. split; [reflexivity|]. split; [reflexivity|].
      left. intros [E|E]; discriminate.
    + eexists _, _. split; [reflexivity|]. split; [reflexivity|]. right. exact I.
    + eexists _, _. split; [reflexivity|]. split; [reflexivity|]. right. reflexivity.
Defined.

(** ** What [parse_job_runs] changes *)

Lemma M_bind_Ok {A B : Type} (m : M A) (f : A → M B) (log log' : list Request) (b : B) :
  (m ≫= f) log = (Ok b, log') ↔
  ∃ a log1, m log = (Ok a, log1) ∧ f a log1 = (Ok b, log').
Proof.
  unfold mbind, M_bind. destruct (m log) as [[a|e] log1]; split.
  - intros H. eauto.
  - intros (a' & l & [= <- <-] & H). exact H.
  - discriminate.
  - intros (a' & l & [=] & _).
Qed.

Lemma lift_Ok {A : Type} (r : result A) (log log' : list Request) (a : A) :
  lift r log = (Ok a, log') ↔ r = Ok a ∧ log' = log.
Proof. unfold lift. split; [intros [= -> ->]; auto|intros (-> & ->); reflexivity]. Qed.

Lemma dict_update_other (other d : list (string * pyval)) (k : string) :
  (∀ kv, In kv other → fst kv ≠ k) →
  dict_lookup k (dict_update other d) = dict_lookup k d.
Proof.
  unfold dict_update. revert d. induction other as [|[k0 v0] other IH]; intros d Hne.
  - reflexivity.
  - cbn [fold_left fst snd]. rewrite IH by (intros kv Hin; apply Hne; now right).
    apply dict_lookup_setitem_ne. apply (Hne (k0, v0)). now left.
Qed.

Lemma parse_job_runs_keys
    (server : list Request → Request → Reply) (self : JenkinsCollector)
    (job job' : pyval) (log log' : list Request) :
  parse_job_runs server self job log = (Ok job', log') →
  ∃ d d', job = PDict d ∧ job' = PDict d' ∧
          ∀ k, k ≠ "runs_successful_total" → k ≠ "runs_failed_total" →
               dict_lookup k d' = dict_lookup k d.
Proof.
  unfold parse_job_runs. intros H.
  apply M_bind_Ok in H as (kind & log1 & Hk & H). apply lift_Ok in Hk as (Hk & ->).
  apply class_among_inv in Hk as [Hk|(d & c & -> & Hc & ->)]; [discriminate|].
  exists d.
  destruct (existsb (py_eq_str c) [WorkflowJob; FreeStyleProject]).
  - apply M_bind_Ok in H as (builds & log1 & Hb & H). apply lift_Ok in Hb as (Hb & ->).
    destruct (truthy builds).
    + apply M_bind_Ok in H as (entries & log1 & He & H). apply lift_Ok in He as (He & ->).
      apply M_bind_Ok in H as (runs & log1 & Hr & H).
      apply lift_Ok in H as (H & ->). injection H as <-.
      eexists. split; [reflexivity|]. split; [reflexivity|].
      intros k Hs Hf. cbn [dict_update fold_left fst snd].
      rewrite !dict_lookup_setitem_ne by congruence. reflexivity.
    + injection H as <- <-. eauto.
  - injection H as <- <-. eauto.
Qed.

(** X2. [parse_job_runs] hands back a dict in which every key other than
    [runs_successful_total] and [runs_failed_total] is bound as before. *)
Theorem parse_job_runs_keeps_other_keys
    (server : list Request → Request → Reply) (self : JenkinsCollector)
    (job job' : pyval) (log log' : list Request) :
  parse_job_runs server self job log = (Ok job', log') →
  ∃ d d', job = PDict d ∧ job' = PDict d' ∧
          ∀ k, k ≠ "runs_successful_total" → k ≠ "runs_failed_total" →
               dict_lookup k d' = dict_lookup k d.
Proof. apply parse_job_runs_keys. Qed.

Lemma parse_job_runs_keeps_other_keys_witness :
  ∃ d d', Examples.x = PDict d ∧
          fst (parse_job_runs Examples.two_builds Examples.collector Examples.x []) = Ok (PDict d') ∧
          ∀ k, k ≠ "runs_successful_total" → k ≠ "runs_failed_total" →
               dict_lookup k d' = dict_lookup k d.
Proof.
  destruct (parse_job_runs Examples.two_builds Examples.collector Examples.x [])
    as [[job'|e] log'] eqn:E.
  - destruct (parse_job_runs_keeps_other_keys Examples.two_builds Examples.collector
                Examples.x job' [] log' E) as (d & d' & Hd & -> & Hk).
    exists d, d'. auto.
  - vm_compute in E. discriminate.
Defined.

(** ** Folders never reach the output *)

Section NoFolder.
Context (server : list Request → Request → Reply) (self : JenkinsCollector).

(** A dict whose [_class] is none of the three folder kinds. *)
Definition leaf_job (job : pyval) : Prop :=
  ∃ d c, job = PDict d ∧ dict_lookup "_class" d = Some c ∧ ¬ is_folder_class c.

Lemma parse_jobs_loop_leaf_jobs
    (recurse : string → list Request → option (result (list pyval) * list Request)) :
  (∀ u log sub log', recurse u log = Some (Ok sub, log') → Forall leaf_job sub) →
  ∀ todo acc log jobs log',
    Forall leaf_job acc →
    parse_jobs_loop server self recurse todo acc log = Some (Ok jobs, log') →
    Forall leaf_job jobs.
Proof.
  intros Hrec todo. induction todo as [|job rest IH]; intros acc log jobs log' Hacc H;
    cbn [parse_jobs_loop] in H.
  - now injection H as <- <-.
  - destruct (class_among job "_class" folder_kinds) as [[|]|e] eqn:Hk; [| |discriminate].
    + destruct (py_getitem job "url" ≫= (λ u, py_add_str u "/api/json")) as [url|e];
        [|discriminate].
      destruct (recurse url log) as [[[sub|e] log1]|] eqn:Hsub; try discriminate.
      apply IH in H; [exact H|]. apply Forall_app. split; [assumption|].
      eapply Hrec; eauto.
    + destruct (parse_job_runs server self job log) as [[job'|e] log1] eqn:Hruns;
        [|discriminate].
      apply IH in H; [exact H|]. apply Forall_app. split; [assumption|].
      constructor; [|constructor].
      apply class_among_inv in Hk as [Hk|(d & c & -> & Hc & Hb)]; [discriminate|].
      apply parse_job_runs_keys in Hruns as (d0 & d' & [= <-] & -> & Hkeys).
      exists d', c. split; [reflexivity|]. split.
      * rewrite Hkeys by discriminate. exact Hc.
      * intros Hf. apply folder_class_test in Hf. congruence.
Qed.

Lemma parse_jobs_leaf_jobs (depth : nat) :
  ∀ url params log jobs log',
    parse_jobs server self depth url params log = Some (Ok jobs, log') →
    Forall leaf_job jobs.
Proof.
  induction depth as [|depth IH]; intros url params log jobs log' H; [discriminate|].
  cbn [parse_jobs] in H.
  destruct (_api_call server self url params log) as [[body|e] log1]; [|discriminate].
  destruct (py_getitem body "jobs" ≫= (λ js, py_iter js)) as [todo|e]; [|discriminate].
  apply (parse_jobs_loop_leaf_jobs (λ u, parse_jobs server self depth u params))
    with todo [] log1 log'; [|constructor|exact H].
  intros u l sub l' Hsub. exact (IH u params l sub l' Hsub).
Qed.

End NoFolder.

(** X3. Whatever the server answers, a list returned by [parse_jobs] holds
    only dicts whose [_class] is none of the three folder kinds. *)
Theorem flattened_jobs_are_never_folders
    (server : list Request → Request → Reply) (self : JenkinsCollector)
    (depth : nat) (url : string) (params : list (string * string))
    (log log' : list Request) (jobs : list pyval) :
  parse_jobs server self depth url params log = Some (Ok jobs, log') →
  Forall leaf_job jobs.
Proof. apply parse_jobs_leaf_jobs. Qed.

Lemma flattened_jobs_are_never_folders_witness :
  match parse_jobs Examples.nested Examples.collector 3 "http://jenkins:8080/api/json" [] [] with
  | Some (Ok jobs, _) => Forall leaf_job jobs ∧ length jobs = 2%nat
  | _ => False
  end.
Proof.
  destruct (parse_jobs Examples.nested Examples.collector 3 "http://jenkins:8080/api/json" [] [])
    as [[[jobs|e] log']|] eqn:E.
  - split.
    + exact (flattened_jobs_are_never_folders Examples.nested Examples.collector 3
               "http://jenkins:8080/api/json" [] [] log' jobs E).
    + vm_compute in E. injection E as <- <-. reflexivity.
  - vm_compute in E. discriminate.
  - vm_compute in E. discriminate.
Defined.

(** X4. When the server presents a hierarchy of folders and leaf jobs and
    the depth bound exceeds its height, [parse_jobs] is not cut short; a list
    it returns is the leaves of the hierarchy in depth-first order, each as
    [parse_job_runs] leaves it; and when no leaf is touched by
    [parse_job_runs] the call returns exactly that list of leaves. *)
Theorem flatten_is_depth_first
    (server : list Request → Request → Reply) (self : JenkinsCollector)
    (params : list (string * string)) (depth : nat) (url : string) (ts : list node)
    (log : list Request) :
  answers server self params url (map root ts) →
  Forall (serves server self params) ts →
  (list_max (map height ts) < depth)%nat →
  ∃ r log',
    parse_jobs server self depth url params log = Some (r, log') ∧
    (∀ jobs, r = Ok jobs → Forall2 (aggregated server self) (flat_map leaves ts) jobs) ∧
    (Forall (plain server self) (flat_map leaves ts) → r = Ok (flat_map leaves ts)).
Proof. intros Hans Hs Hd. now apply flatten_served. Qed.

Lemma flatten_is_depth_first_witness :
  ∃ log', parse_jobs Examples.nested Examples.collector 3 "http://jenkins:8080/api/json"
            [("tree", tree_param)] []
          = Some (Ok [Examples.job1; Examples.other], log').
Proof.
  destruct (flatten_is_depth_first Examples.nested Examples.collector
              [("tree", tree_param)] 3 "http://jenkins:8080/api/json"
              [Dir Examples.folderA [Dir Examples.folderB [Leaf Examples.job1]];
               Leaf Examples.other] [])
    as (r & log' & Hrun & _ & Hplain).
  - eexists. split; [intros log; reflexivity|reflexivity].
  - constructor; [|constructor; [|constructor]].
    + eapply serves_dir; [reflexivity|right; left; reflexivity|reflexivity| |].
      * eexists. split; [intros log; reflexivity|reflexivity].
      * constructor; [|constructor].
        eapply serves_dir; [reflexivity|left; reflexivity|reflexivity| |].
        -- eexists. split; [intros log; reflexivity|reflexivity].
        -- constructor; [|constructor].
           eapply serves_leaf; [reflexivity|]. intros [H|[H|H]]; discriminate.
    + eapply serves_leaf; [reflexivity|]. intros [H|[H|H]]; discriminate.
  - simpl. lia.
  - exists log'. rewrite Hrun, Hplain; [reflexivity|].
    constructor; [|constructor; [|constructor]]; intros log.
    + eapply parse_job_runs_plain; [reflexivity|]. right. exact I.
    + eapply parse_job_runs_plain; [reflexivity|]. left. intros [H|H]; discriminate.
Defined.

(** [job'] is [job] with the same bindings, the two run totals apart. *)
Definition same_job (job job' : pyval) : Prop :=
  ∃ d d', job = PDict d ∧ job' = PDict d' ∧
          ∀ k, k ≠ "runs_successful_total" → k ≠ "runs_failed_total" →
               dict_lookup k d' = dict_lookup k d.

Lemma aggregated_same_job (server : list Request → Request → Reply)
    (self : JenkinsCollector) (job job' : pyval) :
  aggregated server self job job' → same_job job job'.
Proof. intros (log & log' & H). exact (parse_job_runs_keys server self job job' log log' H). Qed.

(** C3. A list returned by [parse_jobs] holds no node whose [_class] is one
    of the three folder kinds, whatever the server answers.  When the server
    presents a hierarchy of folders and leaf jobs, nested to any depth, a
    list the call returns is the leaves of the hierarchy in depth-first
    order (the children of a folder, in the order of its listing, before the
    folder's next sibling), each leaf with the bindings the listing gave it;
    and when no leaf has a build history to aggregate, the call returns, and
    returns exactly that list. *)
Theorem flatten_omits_folders_depth_first
    (server : list Request → Request → Reply) (self : JenkinsCollector)
    (params : list (string * string)) (depth : nat) (url : string) (log : list Request) :
  (∀ jobs log', parse_jobs server self depth url params log = Some (Ok jobs, log') →
                Forall leaf_job jobs) ∧
  (∀ ts, answers server self params url (map root ts) →
         Forall (serves server self params) ts →
         (list_max (map height ts) < depth)%nat →
         ∃ r log',
           parse_jobs server self depth url params log = Some (r, log') ∧
           (∀ jobs, r = Ok jobs → Forall2 same_job (flat_map leaves ts) jobs) ∧
           (Forall quiet_leaf (flat_map leaves ts) → r = Ok (flat_map leaves ts))).
Proof.
  split.
  - intros jobs log'. apply parse_jobs_leaf_jobs.
  - intros ts Hans Hs Hd.
    destruct (flatten_served server self params depth url ts Hans Hs Hd log)
      as (r & log' & Hrun & Hagg & Hplain).
    exists r, log'. split; [exact Hrun|]. split.
    + intros jobs Hr. eapply Forall2_impl; [exact (Hagg jobs Hr)|].
      intros job job'. apply aggregated_same_job.
    + intros Hq. apply Hplain. eapply List.Forall_impl; [|exact Hq].
      intros job. apply quiet_leaf_plain.
Qed.

Lemma flatten_omits_folders_depth_first_witness :
  ∃ log', parse_jobs Examples.nested Examples.collector 3 "http://jenkins:8080/api/json"
            [("tree", tree_param)] []
          = Some (Ok [Examples.job1; Examples.other], log') ∧
          py_getitem Examples.job1 "fullName" = Ok (PStr "A/B/job1").
Proof.
  destruct (flatten_omits_folders_depth_first Examples.nested Examples.collector
              [("tree", tree_param)] 3 "http://jenkins:8080/api/json" []) as (_ & H).
  destruct (H [Dir Examples.folderA [Dir Examples.folderB [Leaf Examples.job1]];
               Leaf Examples.other])
    as (r & log' & Hrun & _ & Hquiet).
  - eexists. split; [intros log; reflexivity|reflexivity].
  - constructor; [|constructor; [|constructor]].
    + eapply serves_dir; [reflexivity|right; left; reflexivity|reflexivity| |].
      * eexists. split; [intros log; reflexivity|reflexivity].
      * constructor; [|constructor].
        eapply serves_dir; [reflexivity|left; reflexivity|reflexivity| |].
        -- eexists. split; [intros log; reflexivity|reflexivity].
        -- constructor; [|constructor].
           eapply serves_leaf; [reflexivity|]. intros [E|[E|E]]; discriminate.
    + eapply serves_leaf; [reflexivity|]. intros [E|[E|E]]; discriminate.
  - simpl. lia.
  - exists log'. split; [|reflexivity]. rewrite Hrun, Hquiet; [reflexivity|].
    constructor; [|constructor; [|constructor]].
    + eexists _, _. split; [reflexivity|]. split; [reflexivity|]. right. exact I.
    + eexists _, _. split; [reflexivity|]. split; [reflexivity|].
      left. intros [E|E]; discriminate.
Defined.

(** * Counting build outcomes *)

(** The status endpoint of build entry [b] answers with status 200 and a
    dict whose [result] is [res] (and that has a [number] when the result
    is one that gets counted), whatever was requested before. *)
Definition build_answer (server : list Request → Request → Reply) (self : JenkinsCollector)
    (b res : pyval) : Prop :=
  ∃ u body,
    py_getitem b "url" = Ok (PStr u) ∧
    (∀ log, server log (request_for self (u +:+ "api/json") [])
            = Responded {| status_code := 200; json := Some body |}) ∧
    py_getitem body "result" = Ok res ∧
    (py_eq_str res "SUCCESS" || py_eq_str res "FAILURE" = true →
     ∃ n, py_getitem body "number" = Ok n).

(** The request [parse_job_runs] makes for build entry [b]. *)
Definition build_request (self : JenkinsCollector) (b : pyval) : Request :=
  request_for self
    (match py_getitem b "url" with
     | Ok (PStr u) => u +:+ "api/json"
     | _ => ""
     end) [].

Definition count_result (s : string) (results : list pyval) : nat :=
  length (List.filter (λ r, py_eq_str r s) results).

Section Counting.
Context (server : list Request → Request → Reply) (self : JenkinsCollector).

Lemma M_bind_run {A B : Type} (m : M A) (f : A → M B) (log log1 : list Request) (a : A) :
  m log = (Ok a, log1) → (m ≫= f) log = f a log1.
Proof. intros H. unfold mbind, M_bind. now rewrite H. Qed.

Lemma runs_loop_counts (builds results : list pyval) :
  Forall2 (build_answer server self) builds results →
  ∀ successful_runs failed_runs log,
    ∃ successful_runs' failed_runs',
      runs_loop server self builds successful_runs failed_runs log
      = (Ok (successful_runs', failed_runs'), log ++ map (build_request self) builds) ∧
      length successful_runs'
      = (length successful_runs + count_result "SUCCESS" results)%nat ∧
      length failed_runs'
      = (length failed_runs + count_result "FAILURE" results)%nat.
Proof.
  induction 1 as [|b res builds results (u & body & Hu & Hreply & Hres & Hnum) _ IH];
    intros successful_runs failed_runs log.
  - exists successful_runs, failed_runs. simpl. rewrite app_nil_r.
    unfold count_result. simpl. split; [reflexivity|]. split; lia.
  - assert (Hreq : build_request self b = request_for self (u +:+ "api/json") []).
    { unfold build_request. now rewrite Hu. }
    cbn [runs_loop map]. rewrite Hreq.
    rewrite (M_bind_run _ _ log log (u +:+ "api/json"))
      by (unfold lift; now rewrite Hu).
    rewrite (M_bind_run _ _ log (log ++ [request_for self (u +:+ "api/json") []]) body)
      by (unfold _api_call; now rewrite Hreply).
    set (log1 := log ++ [request_for self (u +:+ "api/json") []]).
    rewrite (M_bind_run _ _ log1 log1 res) by (unfold lift; now rewrite Hres).
    destruct (py_eq_str res "SUCCESS") eqn:Hs.
    + destruct Hnum as (n & Hn); [reflexivity|].
      assert (Hf : py_eq_str res "FAILURE" = false).
      { apply py_eq_str_true in Hs as ->. reflexivity. }
      rewrite (M_bind_run _ _ log1 log1 (successful_runs ++ [n]))
        by (rewrite (M_bind_run _ _ log1 log1 n) by (unfold lift; now rewrite Hn);
            reflexivity).
      rewrite (M_bind_run _ _ log1 log1 res) by (unfold lift; now rewrite Hres).
      rewrite Hf.
      rewrite (M_bind_run _ _ log1 log1 failed_runs) by reflexivity.
      destruct (IH (successful_runs ++ [n]) failed_runs log1)
        as (s' & f' & Hrun & Hls & Hlf).
      exists s', f'. rewrite Hrun. unfold log1. rewrite <- app_assoc.
      split; [reflexivity|].
      rewrite length_app in Hls. unfold count_result in *. cbn [List.filter].
      rewrite Hs, Hf. simpl in *. split; lia.
    + rewrite (M_bind_run _ _ log1 log1 successful_runs) by reflexivity.
      rewrite (M_bind_run _ _ log1 log1 res) by (unfold lift; now rewrite Hres).
      destruct (py_eq_str res "FAILURE") eqn:Hf.
      * destruct Hnum as (n & Hn); [reflexivity|].
        rewrite (M_bind_run _ _ log1 log1 (failed_runs ++ [n]))
          by (rewrite (M_bind_run _ _ log1 log1 n) by (unfold lift; now rewrite Hn);
              reflexivity).
        destruct (IH successful_runs (failed_runs ++ [n]) log1)
          as (s' & f' & Hrun & Hls & Hlf).
        exists s', f'. rewrite Hrun. unfold log1. rewrite <- app_assoc.
        split; [reflexivity|].
        rewrite length_app in Hlf. unfold count_result in *. cbn [List.filter].
        rewrite Hs, Hf. simpl in *. split; lia.
      * rewrite (M_bind_run _ _ log1 log1 failed_runs) by reflexivity.
        destruct (IH successful_runs failed_runs log1)
          as (s' & f' & Hrun & Hls & Hlf).
        exists s', f'. rewrite Hrun. unfold log1. rewrite <- app_assoc.
        split; [reflexivity|].
        unfold count_result in *. cbn [List.filter]. rewrite Hs, Hf. split; lia.
Qed.

End Counting.

(** X5. For a pipeline or freestyle job with a non-empty [builds] list whose
    build endpoints all answer, [parse_job_runs] requests every build once,
    in the order of the list, and binds [runs_successful_total] to the number
    of results equal to SUCCESS and [runs_failed_total] to the number equal
    to FAILURE; any other result is counted in neither. *)
Theorem run_outcomes_are_counted
    (server : list Request → Request → Reply) (self : JenkinsCollector)
    (d : list (string * pyval)) (c : pyval) (builds results : list pyval)
    (log : list Request) :
  dict_lookup "_class" d = Some c → is_run_class c →
  dict_lookup "builds" d = Some (PList builds) → builds ≠ [] →
  Forall2 (build_answer server self) builds results →
  parse_job_runs server self (PDict d) log
  = (Ok (PDict (dict_update
                  [("runs_successful_total",
                    PInt (Z.of_nat (count_result "SUCCESS" results)));
                   ("runs_failed_total",
                    PInt (Z.of_nat (count_result "FAILURE" results)))] d)),
     log ++ map (build_request self) builds).
Proof.
  intros Hc Hrun Hb Hne Hans. unfold parse_job_runs.
  rewrite (M_bind_run _ _ log log true)
    by (unfold lift; rewrite (class_among_found d c) by assumption;
        now rewrite (proj2 (run_class_test c) Hrun)).
  rewrite (M_bind_run _ _ log log (PList builds))
    by (unfold lift; now rewrite (py_get_found _ _ _ _ Hb)).
  assert (Ht : truthy (PList builds) = true) by (destruct builds; [congruence|reflexivity]).
  rewrite Ht.
  rewrite (M_bind_run _ _ log log builds) by reflexivity.
  destruct (runs_loop_counts server self builds results Hans [] [] log)
    as (s' & f' & Hloop & Hs & Hf).
  rewrite (M_bind_run _ _ _ _ _ Hloop). unfold lift, job_update, py_len. cbn [fst snd].
  simpl in Hs, Hf. now rewrite Hs, Hf.
Qed.

Lemma run_outcomes_are_counted_witness :
  parse_job_runs Examples.two_builds Examples.collector Examples.x []
  = (Ok (PDict [("_class", PStr FreeStyleProject); ("fullName", PStr "x");
                ("builds", PList [PDict [("url", PStr "b1/")]; PDict [("url", PStr "b2/")]]);
                ("runs_successful_total", PInt 1); ("runs_failed_total", PInt 1)]),
     [request_for Examples.collector "b1/api/json" [];
      request_for Examples.collector "b2/api/json" []]).
Proof.
  apply (run_outcomes_are_counted Examples.two_builds Examples.collector
           [("_class", PStr FreeStyleProject); ("fullName", PStr "x");
            ("builds", PList [PDict [("url", PStr "b1/")]; PDict [("url", PStr "b2/")]])]
           (PStr FreeStyleProject)
           [PDict [("url", PStr "b1/")]; PDict [("url", PStr "b2/")]]
           [PStr "SUCCESS"; PStr "FAILURE"] []).
  - reflexivity.
  - right. reflexivity.
  - reflexivity.
  - discriminate.
  - constructor; [|constructor; [|constructor]].
    + exists "b1/", (PDict [("result", PStr "SUCCESS"); ("number", PInt 1)]).
      split; [reflexivity|]. split; [intros log; reflexivity|].
      split; [reflexivity|]. intros _. now exists (PInt 1).
    + exists "b2/", (PDict [("result", PStr "FAILURE"); ("number", PInt 2)]).
      split; [reflexivity|]. split; [intros log; reflexivity|].
      split; [reflexivity|]. intros _. now exists (PInt 2).
Defined.

(** * Run totals in the projection *)

Lemma runs_part_inv (dj : list (string * pyval)) (label : pyval)
    (self self' : JenkinsCollector) (f : string) :
  runs_part (PDict dj) label self = Ok self' → In f run_fields →
  _prometheus_metrics self' = _prometheus_metrics self ∧
  (∀ v, dict_lookup f dj = Some v → truthy v = true →
        ∃ g, _job_runs_metrics self !! f = Some g ∧
             _job_runs_metrics self' !! f = Some (add_metric [label] v g)) ∧
  (¬ truthy_at f dj → _job_runs_metrics self' !! f = _job_runs_metrics self !! f).
Proof.
  unfold runs_part. intros H Hf.
  apply bind_Ok in H as (rs & Hrs & H).
  apply bind_Ok in H as (self1 & H1 & H). apply runs_step_inv in H1 as (_ & P1 & F1 & A1).
  apply bind_Ok in H as (rf & Hrf & H).
  apply runs_step_inv in H as (_ & P2 & F2 & A2).
  split; [congruence|].
  destruct Hf as [<-|[<-|[]]].
  - split.
    + intros v Hv Ht. rewrite (py_get_found _ _ _ _ Hv) in Hrs. injection Hrs as <-.
      destruct (A1 Ht) as (g & v' & Hv' & Hg & Hg').
      rewrite (py_get_found _ _ _ _ Hv) in Hv'. injection Hv' as <-.
      exists g. split; [assumption|]. rewrite F2 by (left; discriminate). assumption.
    + intros Hn. rewrite F2 by (left; discriminate). apply F1. right.
      destruct (truthy rs) eqn:Ht; [|reflexivity]. exfalso. apply Hn.
      eapply guard_truthy_at; eauto.
  - split.
    + intros v Hv Ht. rewrite (py_get_found _ _ _ _ Hv) in Hrf. injection Hrf as <-.
      destruct (A2 Ht) as (g & v' & Hv' & Hg & Hg').
      rewrite (py_get_found _ _ _ _ Hv) in Hv'. injection Hv' as <-.
      exists g. split; [|assumption]. rewrite <- Hg. symmetry. apply F1. left; discriminate.
    + intros Hn. rewrite <- (F1 "runs_failed_total") by (left; discriminate). apply F2. right.
      destruct (truthy rf) eqn:Ht; [|reflexivity]. exfalso. apply Hn.
      eapply guard_truthy_at; eauto.
Qed.

Lemma add_data_runs (status : string) (sd : pyval) (dj : list (string * pyval))
    (label : pyval) (self self' : JenkinsCollector) (f : string) :
  _add_data_to_prometheus_structure status sd (PDict dj) label self = Ok self' →
  In f run_fields →
  (∀ v, dict_lookup f dj = Some v → truthy v = true →
        ∃ g, _job_runs_metrics self !! f = Some g ∧
             _job_runs_metrics self' !! f = Some (add_metric [label] v g)) ∧
  (¬ truthy_at f dj → _job_runs_metrics self' !! f = _job_runs_metrics self !! f).
Proof.
  rewrite add_data_unfold. intros H Hf.
  apply bind_Ok in H as (du & _ & H).
  apply bind_Ok in H as (self1 & H1 & H). apply step_inv in H1 as (_ & R1 & _).
  apply bind_Ok in H as (ts & _ & H).
  apply bind_Ok in H as (self2 & H2 & H). apply step_inv in H2 as (_ & R2 & _).
  apply bind_Ok in H as (nu & _ & H).
  apply bind_Ok in H as (self3 & H3 & H). apply step_inv in H3 as (_ & R3 & _).
  apply bind_Ok in H as (am & _ & H).
  apply bind_Ok in H as (entries & _ & H).
  apply bind_Ok in H as (self4 & H4 & H). apply actions_loop_inv in H4 as (_ & R4 & _).
  destruct (runs_part_inv dj label self4 self' f H Hf) as (_ & A & F).
  assert (R : _job_runs_metrics self4 = _job_runs_metrics self) by congruence.
  rewrite R in A, F. split; assumption.
Qed.

(** The status keys of [sts] the job has. *)
Definition present_statuses (sts : list string) (dj : list (string * pyval)) : list string :=
  List.filter (λ s, match dict_lookup s dj with Some _ => true | None => false end) sts.

Lemma get_metrics_loop_runs (sts : list string) (dj : list (string * pyval))
    (label : pyval) (f : string) (v : pyval) (g : GaugeMetricFamily) :
  In f run_fields → dict_lookup f dj = Some v → truthy v = true →
  ∀ self self' g0,
    _job_runs_metrics self !! f = Some g0 →
    name g0 = name g → labelnames g0 = labelnames g →
    get_metrics_loop sts label (PDict dj) self = Ok self' →
    runs_samples self' f
    = samples g0 ++ repeat (added_sample g label v) (length (present_statuses sts dj)).
Proof.
  intros Hf Hv Ht. induction sts as [|status rest IH]; intros self self' g0 Hg0 Hn Hl H.
  - injection H as <-. unfold runs_samples. rewrite Hg0. simpl. now rewrite app_nil_r.
  - cbn [get_metrics_loop py_has_key] in H. cbn [mbind result_bind] in H.
    unfold present_statuses. cbn [List.filter].
    destruct (dict_lookup status dj) as [x|] eqn:Hx.
    + apply bind_Ok in H as (self1 & H1 & H).
      cbn [py_getitem] in H1. rewrite Hx in H1. cbn [mbind result_bind] in H1.
      apply (add_data_runs _ _ _ _ _ _ f) in H1 as (A & _); [|assumption].
      destruct (A v Hv Ht) as (g1 & Hg1 & Hg1').
      rewrite Hg0 in Hg1. injection Hg1 as <-.
      rewrite (IH self1 self' _ Hg1' Hn Hl H).
      cbn [add_metric samples length repeat]. rewrite <- app_assoc.
      unfold added_sample, present_statuses. now rewrite Hn, Hl.
    + cbn [mbind result_bind] in H. exact (IH self self' g0 Hg0 Hn Hl H).
Qed.

(** X6. The two run totals are written by the per-status function: when a
    job carries a non-zero [runs_successful_total] (or [runs_failed_total]),
    [_get_metrics] adds to the family of that total, for every tracked
    status key present in the job, one sample that carries the job's name
    and the total; so none when the job has no status key, and several
    equal ones when it has several. *)
Theorem run_totals_emitted_once_per_status_key
    (dj : list (string * pyval)) (label : pyval) (f : string) (v : pyval)
    (g : GaugeMetricFamily) (self self' : JenkinsCollector) :
  In f run_fields → dict_lookup f dj = Some v → truthy v = true →
  _job_runs_metrics self !! f = Some g →
  _get_metrics label (PDict dj) self = Ok self' →
  runs_samples self' f
  = runs_samples self f
    ++ repeat (added_sample g label v) (length (present_statuses statuses dj)).
Proof.
  intros Hf Hv Ht Hg H. unfold runs_samples at 2. rewrite Hg.
  now apply (get_metrics_loop_runs statuses dj label f v g Hf Hv Ht self self' g).
Qed.

Lemma run_totals_emitted_once_per_status_key_witness :
  let dj := [("fullName", PStr "x"); ("lastBuild", PNone); ("lastFailedBuild", PNone);
             ("runs_successful_total", PInt 1); ("runs_failed_total", PInt 1)] in
  let self := _setup_empty_prometheus_metrics Examples.collector in
  match _get_metrics (PStr "x") (PDict dj) self with
  | Ok self' =>
      runs_samples self' "runs_failed_total"
      = [sample_of "jenkins_runs_failed_total" (PStr "x") (PInt 1);
         sample_of "jenkins_runs_failed_total" (PStr "x") (PInt 1)]
  | Raise _ => False
  end.
Proof.
  intros dj self.
  assert (Hret : returned (_get_metrics (PStr "x") (PDict dj) self) = true)
    by (vm_compute; reflexivity).
  destruct (_get_metrics (PStr "x") (PDict dj) self) as [self'|e] eqn:E;
    [|discriminate Hret].
  rewrite (run_totals_emitted_once_per_status_key dj (PStr "x") "runs_failed_total"
             (PInt 1)
             (new_gauge "jenkins_runs_failed_total" "Jenkins total job failed runs"
                ["jobname"]) self self').
  - reflexivity.
  - right; left; reflexivity.
  - reflexivity.
  - reflexivity.
  - reflexivity.
  - exact E.
Defined.

(** C4. The aggregator counts as the claim says: for the freestyle job of
    the scenario (two builds, the first a SUCCESS, the second a FAILURE) it
    requests each build once and records 1 and 1.  The two samples the claim
    expects are not emitted: the run totals are written by the function that
    projects one build snapshot, so a job listed without any tracked status
    key, as the scenario gives it, gets no run-total sample in a scrape that
    finishes, and the same job listed with two status keys gets each sample
    twice. *)
Theorem scenario_run_totals_are_not_emitted_once :
  let successful := sample_of "jenkins_runs_successful_total" (PStr "x") (PInt 1) in
  let failed := sample_of "jenkins_runs_failed_total" (PStr "x") (PInt 1) in
  parse_job_runs Examples.two_builds Examples.collector Examples.x []
  = (Ok (PDict [("_class", PStr FreeStyleProject); ("fullName", PStr "x");
                ("builds", PList [PDict [("url", PStr "b1/")]; PDict [("url", PStr "b2/")]]);
                ("runs_successful_total", PInt 1); ("runs_failed_total", PInt 1)]),
     [request_for Examples.collector "b1/api/json" [];
      request_for Examples.collector "b2/api/json" []]) ∧
  option_map (λ s, (returned (outcome s), emitted (yielded s)))
    (collect Examples.two_builds Examples.collector 2 [])
  = Some (true, []) ∧
  option_map (λ s, (returned (outcome s), emitted (yielded s)))
    (collect Examples.two_builds_with_keys Examples.collector 2 [])
  = Some (true, [successful; successful; failed; failed]).
Proof. intros successful failed. repeat split; vm_compute; reflexivity. Qed.

(** * Families only grow *)

(** [g'] is [g] after some calls of [add_metric] with a single label value. *)
Inductive grows (g : GaugeMetricFamily) : GaugeMetricFamily → Prop :=
| grows_refl : grows g g
| grows_step g' label v : grows g g' → grows g (add_metric [label] v g').

Lemma grows_trans (a b c : GaugeMetricFamily) : grows a b → grows b c → grows a c.
Proof. intros Hab Hbc. induction Hbc; [assumption|]. now constructor. Qed.

Definition option_grows (o o' : option GaugeMetricFamily) : Prop :=
  match o, o' with
  | Some g, Some g' => grows g g'
  | None, None => True
  | _, _ => False
  end.

Lemma option_grows_refl (o : option GaugeMetricFamily) : option_grows o o.
Proof. destruct o; simpl; [constructor|exact I]. Qed.

Lemma option_grows_trans (a b c : option GaugeMetricFamily) :
  option_grows a b → option_grows b c → option_grows a c.
Proof.
  destruct a, b, c; simpl; try tauto. apply grows_trans.
Qed.

Lemma option_grows_eq (o o' : option GaugeMetricFamily) : o' = o → option_grows o o'.
Proof. intros ->. apply option_grows_refl. Qed.

(** Every family of [self'] is the family of [self] at the same place,
    possibly with samples added. *)
Definition collector_grows (self self' : JenkinsCollector) : Prop :=
  (∀ s f, option_grows (family self s f) (family self' s f)) ∧
  (∀ f, option_grows (_job_runs_metrics self !! f) (_job_runs_metrics self' !! f)).

Lemma collector_grows_refl (self : JenkinsCollector) : collector_grows self self.
Proof. split; intros; apply option_grows_refl. Qed.

Lemma collector_grows_trans (a b c : JenkinsCollector) :
  collector_grows a b → collector_grows b c → collector_grows a c.
Proof.
  intros (F1 & R1) (F2 & R2). split; intros; eapply option_grows_trans; eauto.
Qed.

Lemma step_grows (c : bool) (s g : string) (label : pyval) (value : result pyval)
    (self self' : JenkinsCollector) :
  (if c then add_status_metric s g label value self else Ok self) = Ok self' →
  collector_grows self self'.
Proof.
  intros H. apply step_inv in H as (_ & R & F & A). split.
  - intros s' f'.
    destruct (decide (s' = s)) as [->|Hs]; [|apply option_grows_eq, F; auto].
    destruct (decide (f' = g)) as [->|Hf]; [|apply option_grows_eq, F; auto].
    destruct c; [|apply option_grows_eq, F; auto].
    destruct (A eq_refl) as (gf & v & _ & -> & ->). simpl. repeat constructor.
  - intros f. rewrite R. apply option_grows_refl.
Qed.

Lemma runs_step_grows (c : bool) (g : string) (label : pyval) (value : result pyval)
    (self self' : JenkinsCollector) :
  (if c then add_runs_metric g label value self else Ok self) = Ok self' →
  collector_grows self self'.
Proof.
  intros H. apply runs_step_inv in H as (_ & P & F & A). split.
  - intros s f. apply option_grows_eq. now apply family_of_metrics.
  - intros f'.
    destruct (decide (f' = g)) as [->|Hf]; [|apply option_grows_eq, F; auto].
    destruct c; [|apply option_grows_eq, F; auto].
    destruct (A eq_refl) as (gf & v & _ & -> & ->). simpl. repeat constructor.
Qed.

Lemma add_action_grows (s : string) (label metric : pyval) (self self' : JenkinsCollector) :
  add_action s label metric self = Ok self' → collector_grows self self'.
Proof.
  unfold add_action. intros H.
  apply bind_Ok in H as (q & _ & H).
  apply bind_Ok in H as (self1 & H1 & H). apply step_grows in H1.
  apply bind_Ok in H as (t & _ & H).
  apply bind_Ok in H as (self2 & H2 & H). apply step_grows in H2.
  apply bind_Ok in H as (sk & _ & H).
  apply bind_Ok in H as (self3 & H3 & H). apply step_grows in H3.
  apply bind_Ok in H as (fl & _ & H).
  apply bind_Ok in H as (self4 & H4 & H). apply step_grows in H4.
  apply bind_Ok in H as (c & _ & H).
  assert (H5 : collector_grows self4 self').
  { destruct (truthy c).
    - apply bind_Ok in H as (self5 & H5 & H). apply (step_grows true) in H5.
      apply bind_Ok in H as (p & _ & H). apply (step_grows true) in H.
      eapply collector_grows_trans; eauto.
    - injection H as <-. apply collector_grows_refl. }
  repeat (eapply collector_grows_trans; [eassumption|]). apply collector_grows_refl.
Qed.

Lemma actions_loop_grows (s : string) (label : pyval) (entries : list pyval)
    (self self' : JenkinsCollector) :
  actions_loop s label entries self = Ok self' → collector_grows self self'.
Proof.
  revert self. induction entries as [|metric rest IH]; intros self; simpl.
  - intros [= <-]. apply collector_grows_refl.
  - intros H. apply bind_Ok in H as (self1 & H1 & H).
    apply add_action_grows in H1. apply IH in H. eapply collector_grows_trans; eauto.
Qed.

Lemma add_data_grows (s : string) (sd job label : pyval) (self self' : JenkinsCollector) :
  _add_data_to_prometheus_structure s sd job label self = Ok self' →
  collector_grows self self'.
Proof.
  unfold _add_data_to_prometheus_structure. intros H.
  apply bind_Ok in H as (du & _ & H).
  apply bind_Ok in H as (self1 & H1 & H). apply step_grows in H1.
  apply bind_Ok in H as (ts & _ & H).
  apply bind_Ok in H as (self2 & H2 & H). apply step_grows in H2.
  apply bind_Ok in H as (nu & _ & H).
  apply bind_Ok in H as (self3 & H3 & H). apply step_grows in H3.
  apply bind_Ok in H as (am & _ & H).
  apply bind_Ok in H as (entries & _ & H).
  apply bind_Ok in H as (self4 & H4 & H). apply actions_loop_grows in H4.
  apply bind_Ok in H as (rs & _ & H).
  apply bind_Ok in H as (self5 & H5 & H). apply runs_step_grows in H5.
  apply bind_Ok in H as (rf & _ & H). apply runs_step_grows in H.
  repeat (eapply collector_grows_trans; [eassumption|]). apply collector_grows_refl.
Qed.

Lemma get_metrics_loop_grows (sts : list string) (label job : pyval)
    (self self' : JenkinsCollector) :
  get_metrics_loop sts label job self = Ok self' → collector_grows self self'.
Proof.
  revert self. induction sts as [|status rest IH]; intros self; simpl.
  - intros [= <-]. apply collector_grows_refl.
  - intros H. apply bind_Ok in H as (present & _ & H).
    apply bind_Ok in H as (self1 & H1 & H). apply IH in H.
    eapply collector_grows_trans; [|exact H].
    destruct present.
    + apply bind_Ok in H1 as (v & _ & H1). now apply add_data_grows in H1.
    + injection H1 as <-. apply collector_grows_refl.
Qed.

Lemma jobs_loop_grows (jobs : list pyval) (self self' : JenkinsCollector) :
  jobs_loop jobs self = Ok self' → collector_grows self self'.
Proof.
  revert self. induction jobs as [|job rest IH]; intros self; simpl.
  - intros [= <-]. apply collector_grows_refl.
  - intros H. apply bind_Ok in H as (label & _ & H).
    apply bind_Ok in H as (self1 & H1 & H).
    apply get_metrics_loop_grows in H1. apply IH in H.
    eapply collector_grows_trans; eauto.
Qed.

(** What growing keeps: the name, the label names, the earlier samples as a
    prefix; and what every new sample looks like. *)
Lemma grows_shape (g g' : GaugeMetricFamily) :
  grows g g' →
  name g' = name g ∧ labelnames g' = labelnames g ∧
  ∃ extra, samples g' = samples g ++ extra ∧
           Forall (λ smp, sample_name smp = name g ∧
                          ∃ label, sample_labels smp = combine (labelnames g) [label])
                  extra.
Proof.
  induction 1 as [|g' label v _ (Hn & Hl & extra & Hs & Hall)].
  - split; [reflexivity|]. split; [reflexivity|]. exists []. rewrite app_nil_r. auto.
  - split; [exact Hn|]. split; [exact Hl|].
    exists (extra ++ [added_sample g' label v]). split.
    + rewrite samples_add_metric, Hs, <- app_assoc. reflexivity.
    + apply Forall_app. split; [assumption|]. constructor; [|constructor].
      simpl. rewrite Hn, Hl. eauto.
Qed.

(** * What a scrape yields *)

Definition status_names (status : string) : list string :=
  map (λ f, "jenkins_job_" +:+ snake_case status +:+ metric_suffix f) fields.

(** The names of the families of a scrape, in the order they are yielded. *)
Definition family_names : list string :=
  flat_map status_names statuses
  ++ ["jenkins_runs_successful_total"; "jenkins_runs_failed_total"].

(** A family as the exposition layer expects it: one label name, every
    sample under the family's name with one [jobname] label. *)
Definition well_formed_family (g : GaugeMetricFamily) : Prop :=
  labelnames g = ["jobname"] ∧
  Forall (λ smp, sample_name smp = name g ∧
                 ∃ label, sample_labels smp = [("jobname", label)]) (samples g).

Lemma grown_from_fresh (g g' : GaugeMetricFamily) :
  labelnames g = ["jobname"] → samples g = [] → grows g g' →
  name g' = name g ∧ well_formed_family g'.
Proof.
  intros Hl Hs Hg. apply grows_shape in Hg as (Hn & Hl' & extra & Hs' & Hall).
  split; [assumption|]. split; [congruence|].
  rewrite Hs', Hs. simpl. eapply List.Forall_impl; [|exact Hall].
  intros smp (Hsn & label & Hsl). rewrite Hn, Hsn, Hsl, Hl. eauto.
Qed.

Section Yield.
Context (self0 self' : JenkinsCollector).
Hypothesis Hgrows : collector_grows (_setup_empty_prometheus_metrics self0) self'.

Lemma grown_status_family (s f : string) :
  In s statuses → In f fields →
  ∃ g', family self' s f = Some g' ∧
        name g' = "jenkins_job_" +:+ snake_case s +:+ metric_suffix f ∧
        well_formed_family g'.
Proof.
  intros Hs Hf. pose proof (proj1 Hgrows s f) as H.
  rewrite setup_family in H by assumption.
  destruct (status_families_defined s f Hf) as (g & Hg). rewrite Hg in H.
  destruct (family self' s f) as [g'|]; [|contradiction]. simpl in H.
  apply status_families_name in Hg as (Hn & Hl & Hsm).
  destruct (grown_from_fresh g g' Hl Hsm H) as (Hn' & Hw).
  exists g'. split; [reflexivity|]. split; [congruence|assumption].
Qed.

Lemma grown_family_values (s : string) (families : gmap string GaugeMetricFamily)
    (keys : list string) :
  In s statuses → _prometheus_metrics self' !! s = Some families →
  (∀ f, In f keys → In f fields) →
  map name (family_values families keys)
  = map (λ f, "jenkins_job_" +:+ snake_case s +:+ metric_suffix f) keys ∧
  Forall well_formed_family (family_values families keys).
Proof.
  intros Hs Hfam. induction keys as [|f keys IH]; intros Hin; [split; constructor|].
  destruct (grown_status_family s f Hs (Hin f (or_introl eq_refl))) as (g' & Hg' & Hn & Hw).
  unfold family in Hg'. rewrite Hfam in Hg'. simpl in Hg'.
  destruct IH as (IHn & IHw); [intros f' Hf'; apply Hin; now right|].
  unfold family_values in *. cbn [omap list_omap]. rewrite Hg'. cbn [map].
  split; [now rewrite Hn, IHn|now constructor].
Qed.

Lemma setup_runs_family (f : string) :
  In f run_fields →
  ∃ g, _job_runs_metrics (_setup_empty_prometheus_metrics self0) !! f = Some g ∧
       name g = "jenkins_" +:+ f ∧ labelnames g = ["jobname"] ∧ samples g = [].
Proof.
  intros Hf. unfold _setup_empty_prometheus_metrics, run_fields in *.
  cbn [list_to_map foldr uncurry fst snd with_metrics _job_runs_metrics].
  simpl in Hf.
  repeat (destruct Hf as [<-|Hf];
          [rewrite ?lookup_insert_ne by discriminate; rewrite lookup_insert_eq;
           eexists; split; [reflexivity|repeat split]|]).
  destruct Hf.
Qed.

Lemma grown_runs_family (f : string) :
  In f run_fields →
  ∃ g', _job_runs_metrics self' !! f = Some g' ∧ name g' = "jenkins_" +:+ f ∧
        well_formed_family g'.
Proof.
  intros Hf. destruct (setup_runs_family f Hf) as (g & Hg & Hn & Hl & Hs).
  pose proof (proj2 Hgrows f) as H. rewrite Hg in H.
  destruct (_job_runs_metrics self' !! f) as [g'|]; [|contradiction]. simpl in H.
  destruct (grown_from_fresh g g' Hl Hs H) as (Hn' & Hw).
  exists g'. split; [reflexivity|]. split; [congruence|assumption].
Qed.

Lemma grown_yield (sts : list string) :
  (∀ s, In s sts → In s statuses) →
  ∃ ys, yield_statuses sts self' = (ys, Ok tt) ∧
        map name ys = flat_map status_names sts
                      ++ ["jenkins_runs_successful_total"; "jenkins_runs_failed_total"] ∧
        Forall well_formed_family ys.
Proof.
  induction sts as [|s sts IH]; intros Hin.
  - destruct (grown_runs_family "runs_successful_total")
      as (g1 & Hg1 & Hn1 & Hw1); [simpl; tauto|].
    destruct (grown_runs_family "runs_failed_total")
      as (g2 & Hg2 & Hn2 & Hw2); [simpl; tauto|].
    exists [g1; g2]. cbn [yield_statuses family_values run_fields omap list_omap].
    rewrite Hg1, Hg2. split; [reflexivity|].
    split; [cbn [map flat_map]; rewrite Hn1, Hn2; reflexivity|].
    constructor; [assumption|]. constructor; [assumption|]. constructor.
  - destruct IH as (ys & Hy & Hn & Hw); [intros s' Hs'; apply Hin; now right|].
    assert (Hs : In s statuses) by (apply Hin; now left).
    destruct (grown_status_family s "number" Hs) as (g' & Hg' & _); [simpl; tauto|].
    unfold family in Hg'.
    destruct (_prometheus_metrics self' !! s) as [families|] eqn:Hfam; [|discriminate].
    destruct (grown_family_values s families fields Hs Hfam (λ f H, H)) as (Hvn & Hvw).
    exists (family_values families fields ++ ys).
    cbn [yield_statuses]. rewrite Hfam, Hy. split; [reflexivity|]. split.
    + rewrite map_app, Hvn, Hn. cbn [flat_map]. unfold status_names.
      now rewrite <- app_assoc.
    + apply Forall_app. auto.
Qed.

End Yield.

(** X7. A scrape is all or nothing, and what it yields has a fixed shape:
    either the generator raises before its first [yield], or it finishes
    having yielded the 65 families (nine for each of the seven statuses,
    then the two run totals) under their fixed names and in that order, each
    with the single label name [jobname] and each sample carrying its
    family's name and one [jobname] label. *)
Theorem scrape_is_all_or_nothing
    (server : list Request → Request → Reply) (self : JenkinsCollector)
    (depth : nat) (log : list Request) (s : Scrape) :
  collect server self depth log = Some s →
  (∃ e, outcome s = Raise e ∧ yielded s = []) ∨
  (∃ self', outcome s = Ok self' ∧
            map name (yielded s) = family_names ∧ length (yielded s) = 65%nat ∧
            Forall well_formed_family (yielded s)).
Proof.
  unfold collect. intros H.
  destruct (_request_data server self depth log) as [[[jobs|e] log']|]; [| |discriminate].
  - destruct (project jobs self) as [self'|e] eqn:Hp.
    + apply jobs_loop_grows in Hp.
      destruct (grown_yield self self' Hp statuses (λ s H, H)) as (ys & Hy & Hn & Hw).
      rewrite Hy in H. injection H as <-. right. exists self'. cbn [outcome yielded].
      split; [reflexivity|]. split; [exact Hn|]. split; [|exact Hw].
      rewrite <- (length_map name), Hn. vm_compute. reflexivity.
    + injection H as <-. left. eauto.
  - injection H as <-. left. eauto.
Qed.

Lemma scrape_is_all_or_nothing_witness :
  match collect Examples.nested Examples.collector 3 [] with
  | Some s => (∃ e, outcome s = Raise e ∧ yielded s = []) ∨
              (∃ self', outcome s = Ok self' ∧
                        map name (yielded s) = family_names ∧
                        length (yielded s) = 65%nat ∧
                        Forall well_formed_family (yielded s))
  | None => False
  end.
Proof.
  assert (Hran : ran (collect Examples.nested Examples.collector 3 []) = true)
    by (vm_compute; reflexivity).
  destruct (collect Examples.nested Examples.collector 3 []) as [s|] eqn:E;
    [|discriminate Hran].
  exact (scrape_is_all_or_nothing Examples.nested Examples.collector 3 [] s E).
Defined.

(** * A failed call aborts the cycle *)






(** * Every entry of [actions] is projected *)

(** The values one entry contributes to the family of action field [f]. *)
Definition entry_emits (f : string) (entry : pyval) : list pyval :=
  match entry with
  | PDict d =>
      match dict_lookup f d with
      | Some x =>
          if truthy x
          then match action_value f x with Ok v => [v] | Raise _ => [] end
          else []
      | None => []
      end
  | _ => []
  end.

Lemma add_action_emits (s : string) (label metric : pyval) (self self' : JenkinsCollector)
    (f : string) (g : GaugeMetricFamily) :
  In f action_fields → family self s f = Some g →
  add_action s label metric self = Ok self' →
  ∃ g', family self' s f = Some g' ∧ name g' = name g ∧ labelnames g' = labelnames g ∧
        samples g' = samples g ++ map (added_sample g label) (entry_emits f metric).
Proof.
  intros Hf Hg H. apply add_action_inv in H as (d & -> & _ & _ & F & A & _).
  unfold entry_emits.
  destruct (dict_lookup f d) as [x|] eqn:Hx.
  - destruct (truthy x) eqn:Ht.
    + destruct (A f x Hf Hx Ht) as (gf & v & Hv & Hgf & Hgf').
      rewrite Hg in Hgf. injection Hgf as <-. rewrite Hv.
      exists (add_metric [label] v g). auto.
    + exists g. rewrite F, Hg, app_nil_r; [auto|].
      right. intros [[_ (v & Hv & Hvt)]|[-> _]].
      * congruence.
      * simpl in Hf. intuition discriminate.
  - exists g. rewrite F, Hg, app_nil_r; [auto|].
    right. intros [[_ (v & Hv & Hvt)]|[-> _]].
    + congruence.
    + simpl in Hf. intuition discriminate.
Qed.

(** X8. The loop over [actions] projects every entry on its own: for each of
    the five action-level fields, the family of the status receives, in the
    order of the list, one sample for every entry that binds the field to a
    non-zero value; entries that repeat a counter give repeated samples. *)
Theorem every_action_entry_is_projected
    (s : string) (label : pyval) (entries : list pyval) (self self' : JenkinsCollector)
    (f : string) (g : GaugeMetricFamily) :
  In f action_fields → family self s f = Some g →
  actions_loop s label entries self = Ok self' →
  status_samples self' s f
  = status_samples self s f ++ map (added_sample g label) (flat_map (entry_emits f) entries).
Proof.
  intros Hf Hg H.
  assert (Hgen : ∀ entries self g0,
             family self s f = Some g0 → name g0 = name g → labelnames g0 = labelnames g →
             actions_loop s label entries self = Ok self' →
             status_samples self' s f
             = samples g0 ++ map (added_sample g label) (flat_map (entry_emits f) entries)).
  { clear entries self Hg H. induction entries as [|metric rest IH];
      intros self g0 Hg0 Hn Hl H.
    - injection H as <-. unfold status_samples. rewrite Hg0. simpl. now rewrite app_nil_r.
    - cbn [actions_loop] in H. apply bind_Ok in H as (self1 & H1 & H).
      destruct (add_action_emits s label metric self self1 f g0 Hf Hg0 H1)
        as (g1 & Hg1 & Hn1 & Hl1 & Hs1).
      rewrite (IH self1 g1 Hg1) by congruence.
      rewrite Hs1. cbn [flat_map]. rewrite map_app, <- app_assoc. f_equal. f_equal.
      apply map_ext. intros v. unfold added_sample. now rewrite Hn, Hl. }
  rewrite (Hgen entries self g Hg eq_refl eq_refl H).
  unfold status_samples. now rewrite Hg.
Qed.

Lemma every_action_entry_is_projected_witness :
  let entries := [PDict [("totalCount", PInt 10); ("failCount", PInt 2); ("skipCount", PInt 1)];
                  PDict [("queuingDurationMillis", PInt 40)];
                  PDict [("totalCount", PInt 10); ("failCount", PInt 0); ("skipCount", PInt 0)]] in
  let self := _setup_empty_prometheus_metrics Examples.collector in
  match actions_loop "lastBuild" (PStr "x") entries self with
  | Ok self' =>
      map sample_value (status_samples self' "lastBuild" "totalCount") = [PInt 10; PInt 10]
  | Raise _ => False
  end.
Proof.
  intros entries self.
  assert (Hret : returned (actions_loop "lastBuild" (PStr "x") entries self) = true)
    by (vm_compute; reflexivity).
  destruct (actions_loop "lastBuild" (PStr "x") entries self) as [self'|e] eqn:E;
    [|discriminate Hret].
  destruct (setup_ready Examples.collector) as (Hfam & _).
  destruct (Hfam "lastBuild" "totalCount") as (g & Hg); [simpl; tauto|simpl; tauto|].
  assert (Hs0 : status_samples self "lastBuild" "totalCount" = [])
    by (vm_compute; reflexivity).
  rewrite (every_action_entry_is_projected "lastBuild" (PStr "x") entries self self'
             "totalCount" g); [|simpl; tauto|exact Hg|exact E].
  rewrite Hs0. reflexivity.
Defined.

(** * Values emitted as read *)

Definition raw_action_fields : list string := ["skipCount"; "failCount"; "totalCount"].

(** X9. The build number and the three counters are emitted as the payload
    gives them, with no unit conversion: a non-zero [number] of a snapshot,
    and a non-zero [skipCount], [failCount] or [totalCount] of an [actions]
    entry, each add one sample whose value is the value read. *)
Theorem counts_are_emitted_as_read :
  (∀ s d job label self self' x,
     _add_data_to_prometheus_structure s (PDict d) job label self = Ok self' →
     dict_lookup "number" d = Some x → truthy x = true →
     ∃ g, family self s "number" = Some g ∧
          status_samples self' s "number"
          = status_samples self s "number" ++ [added_sample g label x]) ∧
  (∀ s d label self self' f x,
     In f raw_action_fields →
     add_action s label (PDict d) self = Ok self' →
     dict_lookup f d = Some x → truthy x = true →
     ∃ g, family self s f = Some g ∧
          status_samples self' s f = status_samples self s f ++ [added_sample g label x]).
Proof.
  split.
  - intros s d job label self self' x H Hx Ht.
    apply add_data_inv in H as (d' & entries & [= <-] & _ & _ & _ & A).
    destruct (A "number" x) as (g & v & Hv & Hg & Hg'); [simpl; tauto|assumption..|].
    injection Hv as <-. exists g. split; [assumption|].
    unfold status_samples. now rewrite Hg, Hg'.
  - intros s d label self self' f x Hf H Hx Ht.
    apply add_action_inv in H as (d' & [= <-] & _ & _ & _ & A & _).
    destruct (A f x) as (g & v & Hv & Hg & Hg'); [simpl in *; tauto|assumption..|].
    assert (v = x) as ->.
    { unfold action_value in Hv. destruct Hf as [<-|[<-|[<-|[]]]]; now injection Hv. }
    exists g. split; [assumption|]. unfold status_samples. now rewrite Hg, Hg'.
Qed.

Lemma counts_are_emitted_as_read_witness :
  let d := [("number", PInt 4); ("duration", PInt 2500)] in
  let self := _setup_empty_prometheus_metrics Examples.collector in
  match _add_data_to_prometheus_structure "lastBuild" (PDict d) (PDict []) (PStr "x") self with
  | Ok self' =>
      ∃ g, family self "lastBuild" "number" = Some g ∧
           status_samples self' "lastBuild" "number"
           = status_samples self "lastBuild" "number" ++ [added_sample g (PStr "x") (PInt 4)]
  | Raise _ => False
  end.
Proof.
  intros d self.
  assert (Hret : returned (_add_data_to_prometheus_structure "lastBuild" (PDict d)
                             (PDict []) (PStr "x") self) = true)
    by (vm_compute; reflexivity).
  destruct (_add_data_to_prometheus_structure "lastBuild" (PDict d) (PDict []) (PStr "x") self)
    as [self'|e] eqn:E; [|discriminate Hret].
  destruct counts_are_emitted_as_read as (Hnumber & _).
  apply (Hnumber "lastBuild" d (PDict []) (PStr "x") self self' (PInt 4) E); reflexivity.
Defined.

(** X10. An [actions] entry that binds [totalCount] (non-zero), [failCount]
    and [skipCount] to integers adds to the passCount family one sample
    whose value is [totalCount - failCount - skipCount]. *)
Theorem pass_count_is_total_minus_fail_minus_skip
    (s : string) (label : pyval) (d : list (string * pyval))
    (self self' : JenkinsCollector) (total fail skip : Z) :
  add_action s label (PDict d) self = Ok self' →
  dict_lookup "totalCount" d = Some (PInt total) → total ≠ 0 →
  dict_lookup "failCount" d = Some (PInt fail) →
  dict_lookup "skipCount" d = Some (PInt skip) →
  ∃ g, family self s "passCount" = Some g ∧
       status_samples self' s "passCount"
       = status_samples self s "passCount"
         ++ [added_sample g label (PInt (total - fail - skip))].
Proof.
  intros H Ht Hnz Hf Hs.
  destruct (pass_count_derived s label d self self' total fail skip H Ht Hnz Hf Hs)
    as (g & Hg & Hg').
  exists g. split; [assumption|]. unfold status_samples. now rewrite Hg, Hg'.
Qed.

Lemma pass_count_is_total_minus_fail_minus_skip_witness :
  let d := [("totalCount", PInt 10); ("failCount", PInt 2); ("skipCount", PInt 1)] in
  let self := _setup_empty_prometheus_metrics Examples.collector in
  match add_action "lastFailedBuild" (PStr "x") (PDict d) self with
  | Ok self' =>
      ∃ g, family self "lastFailedBuild" "passCount" = Some g ∧
           status_samples self' "lastFailedBuild" "passCount"
           = status_samples self "lastFailedBuild" "passCount"
             ++ [added_sample g (PStr "x") (PInt (10 - 2 - 1))]
  | Raise _ => False
  end.
Proof.
  intros d self.
  assert (Hret : returned (add_action "lastFailedBuild" (PStr "x") (PDict d) self) = true)
    by (vm_compute; reflexivity).
  destruct (add_action "lastFailedBuild" (PStr "x") (PDict d) self) as [self'|e] eqn:E;
    [|discriminate Hret].
  apply (pass_count_is_total_minus_fail_minus_skip "lastFailedBuild" (PStr "x") d
           self self' 10 2 1 E); [reflexivity|discriminate|reflexivity|reflexivity].
Defined.

Lemma actions_loop_each (s : string) (label : pyval) (entries : list pyval)
    (self self' : JenkinsCollector) :
  actions_loop s label entries self = Ok self' →
  Forall (λ metric, ∃ a b, add_action s label metric a = Ok b) entries.
Proof.
  revert self. induction entries as [|metric rest IH]; intros self H; [constructor|].
  cbn [actions_loop] in H. apply bind_Ok in H as (self1 & H1 & H).
  constructor; [eauto|]. eapply IH; eauto.
Qed.

(** X11. A snapshot one of whose [actions] entries has a non-zero
    [totalCount] but no [failCount] or no [skipCount] is never projected:
    [_add_data_to_prometheus_structure] raises, for the pass count is
    computed with [None] as an operand. *)
Theorem incomplete_counters_abort_the_snapshot
    (s : string) (d e : list (string * pyval)) (entries : list pyval)
    (job label : pyval) (self : JenkinsCollector) :
  action_entries d = Ok entries → In (PDict e) entries →
  truthy_at "totalCount" e →
  dict_lookup "failCount" e = None ∨ dict_lookup "skipCount" e = None →
  ∃ ex, _add_data_to_prometheus_structure s (PDict d) job label self = Raise ex.
Proof.
  intros Hen Hin Ht Hmiss.
  destruct (_add_data_to_prometheus_structure s (PDict d) job label self)
    as [self'|ex] eqn:H; [|eauto]. exfalso.
  rewrite add_data_unfold in H.
  apply bind_Ok in H as (du & _ & H). apply bind_Ok in H as (self1 & _ & H).
  apply bind_Ok in H as (ts & _ & H). apply bind_Ok in H as (self2 & _ & H).
  apply bind_Ok in H as (nu & _ & H). apply bind_Ok in H as (self3 & _ & H).
  apply bind_Ok in H as (am & Ham & H). apply bind_Ok in H as (entries' & Hen' & H).
  apply bind_Ok in H as (self4 & H4 & _).
  apply py_get_inv in Ham as (d' & [= <-] & ->).
  unfold action_entries in Hen. rewrite Hen in Hen'. injection Hen' as <-.
  apply actions_loop_each in H4. rewrite List.Forall_forall in H4.
  destruct (H4 _ Hin) as (a & b & Hab).
  exact (add_action_missing_operand s label e a b Ht Hmiss Hab).
Qed.

Lemma incomplete_counters_abort_the_snapshot_witness :
  ∃ ex, _add_data_to_prometheus_structure "lastBuild"
          (PDict [("number", PInt 3);
                  ("actions", PList [PDict []; PDict [("totalCount", PInt 5);
                                                      ("failCount", PInt 1)]])])
          (PDict []) (PStr "x") (_setup_empty_prometheus_metrics Examples.collector)
        = Raise ex.
Proof.
  apply (incomplete_counters_abort_the_snapshot "lastBuild" _
           [("totalCount", PInt 5); ("failCount", PInt 1)]
           [PDict []; PDict [("totalCount", PInt 5); ("failCount", PInt 1)]]).
  - reflexivity.
  - right; left; reflexivity.
  - exists (PInt 5). split; reflexivity.
  - right. reflexivity.
Defined.

(** X12. A run total that is absent from the job or equal to 0 adds no
    sample: a job none of whose builds succeeded gets no
    [runs_successful_total] sample rather than a sample of value 0. *)
Theorem zero_run_total_emits_nothing
    (s : string) (sd : pyval) (dj : list (string * pyval)) (label : pyval)
    (self self' : JenkinsCollector) (f : string) :
  In f run_fields → absent_or_zero f dj →
  _add_data_to_prometheus_structure s sd (PDict dj) label self = Ok self' →
  runs_samples self' f = runs_samples self f.
Proof.
  intros Hf Hz H. apply (add_data_runs _ _ _ _ _ _ f) in H as (_ & F); [|assumption].
  unfold runs_samples. rewrite F; [reflexivity|]. now apply absent_or_zero_not_truthy.
Qed.

Lemma zero_run_total_emits_nothing_witness :
  let dj := [("fullName", PStr "x"); ("runs_successful_total", PInt 0);
             ("runs_failed_total", PInt 2)] in
  let self := _setup_empty_prometheus_metrics Examples.collector in
  match _add_data_to_prometheus_structure "lastBuild" (PDict []) (PDict dj) (PStr "x") self with
  | Ok self' =>
      runs_samples self' "runs_successful_total" = runs_samples self "runs_successful_total"
  | Raise _ => False
  end.
Proof.
  intros dj self.
  assert (Hret : returned (_add_data_to_prometheus_structure "lastBuild" (PDict [])
                             (PDict dj) (PStr "x") self) = true)
    by (vm_compute; reflexivity).
  destruct (_add_data_to_prometheus_structure "lastBuild" (PDict []) (PDict dj) (PStr "x") self)
    as [self'|e] eqn:E; [|discriminate Hret].
  apply (zero_run_total_emits_nothing "lastBuild" (PDict []) dj (PStr "x") self self'
           "runs_successful_total");
    [simpl; tauto|right; exists (PInt 0); split; reflexivity|exact E].
Defined.

(** * The requests of a scrape *)

(** The basic-auth pair the collector sends: both parts configured and
    non-empty, or no credentials at all. *)
Definition credentials (self : JenkinsCollector) : option (string * string) :=
  match _user self, _password self with
  | Some u, Some p => if String.eqb u "" || String.eqb p "" then None else Some (u, p)
  | _, _ => None
  end.

(** A run that started at [log] only appended requests that satisfy [P]. *)
Definition logged {A : Type} (P : Request → Prop) (log : list Request)
    (out : result A * list Request) : Prop :=
  ∃ calls, snd out = log ++ calls ∧ Forall P calls.

Section Logged.
Context (server : list Request → Request → Reply) (self : JenkinsCollector)
        (P : Request → Prop).

Definition Logged {A : Type} (m : M A) : Prop := ∀ log, logged P log (m log).

Lemma logged_here {A : Type} (log : list Request) (r : result A) : logged P log (r, log).
Proof. exists []. simpl. rewrite app_nil_r. auto. Qed.

Lemma logged_seq {A B : Type} (log log1 : list Request) (r1 : result A)
    (out2 : result B * list Request) :
  logged P log (r1, log1) → logged P log1 out2 → logged P log out2.
Proof.
  intros (c1 & H1 & F1) (c2 & H2 & F2). simpl in H1. exists (c1 ++ c2).
  split; [rewrite H2, H1; symmetry; apply app_assoc|]. apply Forall_app. auto.
Qed.

Lemma Logged_bind {A B : Type} (m : M A) (f : A → M B) :
  Logged m → (∀ a, Logged (f a)) → Logged (m ≫= f).
Proof.
  intros Hm Hf log. unfold mbind, M_bind. specialize (Hm log).
  destruct (m log) as [[a|e] log1].
  - eapply logged_seq; [exact Hm|apply Hf].
  - destruct Hm as (c & Hc & Fc). exists c. auto.
Qed.

Lemma Logged_lift {A : Type} (r : result A) : Logged (lift r).
Proof. intros log. apply logged_here. Qed.

Lemma Logged_ret {A : Type} (a : A) : Logged (mret a).
Proof. intros log. apply logged_here. Qed.

Lemma Logged_if {A : Type} (c : bool) (m1 m2 : M A) :
  Logged m1 → Logged m2 → Logged (if c then m1 else m2).
Proof. destruct c; auto. Qed.

Lemma Logged_api_call (url : string) (params : list (string * string)) :
  P (request_for self url params) → Logged (_api_call server self url params).
Proof.
  intros HP log. exists [request_for self url params]. split; [reflexivity|].
  constructor; [assumption|constructor].
Qed.

Hypothesis P_build : ∀ url, P (request_for self url []).

Lemma Logged_runs_loop (builds successful_runs failed_runs : list pyval) :
  Logged (runs_loop server self builds successful_runs failed_runs).
Proof.
  revert successful_runs failed_runs.
  induction builds as [|workflow_run rest IH]; intros successful_runs failed_runs.
  - apply Logged_ret.
  - cbn [runs_loop].
    apply Logged_bind; [apply Logged_lift|intros url].
    apply Logged_bind; [apply Logged_api_call, P_build|intros wf_data].
    apply Logged_bind; [apply Logged_lift|intros r1].
    apply Logged_bind.
    { apply Logged_if; [|apply Logged_ret].
      apply Logged_bind; [apply Logged_lift|intros n; apply Logged_ret]. }
    intros successful_runs'.
    apply Logged_bind; [apply Logged_lift|intros r2].
    apply Logged_bind.
    { apply Logged_if; [|apply Logged_ret].
      apply Logged_bind; [apply Logged_lift|intros n; apply Logged_ret]. }
    intros failed_runs'. apply IH.
Qed.

Lemma Logged_parse_job_runs (job : pyval) : Logged (parse_job_runs server self job).
Proof.
  unfold parse_job_runs.
  apply Logged_bind; [apply Logged_lift|intros k].
  apply Logged_if; [|apply Logged_ret].
  apply Logged_bind; [apply Logged_lift|intros builds].
  apply Logged_if; [|apply Logged_ret].
  apply Logged_bind; [apply Logged_lift|intros entries].
  apply Logged_bind; [apply Logged_runs_loop|intros runs]. apply Logged_lift.
Qed.

Definition logged_opt {A : Type} (log : list Request)
    (o : option (result A * list Request)) : Prop :=
  match o with
  | None => True
  | Some out => logged P log out
  end.

Lemma logged_parse_jobs_loop
    (recurse : string → list Request → option (result (list pyval) * list Request)) :
  (∀ u log, logged_opt log (recurse u log)) →
  ∀ todo jobs log, logged_opt log (parse_jobs_loop server self recurse todo jobs log).
Proof.
  intros Hrec todo. induction todo as [|job rest IH]; intros jobs log; cbn [parse_jobs_loop].
  - apply logged_here.
  - destruct (class_among job "_class" folder_kinds) as [[|]|e]; [| |apply logged_here].
    + destruct (py_getitem job "url" ≫= (λ u, py_add_str u "/api/json")) as [url|e];
        [|apply logged_here].
      specialize (Hrec url log).
      destruct (recurse url log) as [[[sub|e] log']|]; [| |exact I].
      * specialize (IH (jobs ++ sub) log').
        destruct (parse_jobs_loop server self recurse rest (jobs ++ sub) log')
          as [out|]; [|exact I].
        eapply logged_seq; [exact Hrec|exact IH].
      * exact Hrec.
    + pose proof (Logged_parse_job_runs job log) as Hj.
      destruct (parse_job_runs server self job log) as [[job'|e] log'].
      * specialize (IH (jobs ++ [job']) log').
        destruct (parse_jobs_loop server self recurse rest (jobs ++ [job']) log')
          as [out|]; [|exact I].
        eapply logged_seq; [exact Hj|exact IH].
      * destruct Hj as (c & Hc & Fc). exists c. auto.
Qed.

Lemma logged_parse_jobs (depth : nat) (params : list (string * string)) :
  (∀ url, P (request_for self url params)) →
  ∀ url log, logged_opt log (parse_jobs server self depth url params log).
Proof.
  intros HP. induction depth as [|depth IH]; intros url log; [exact I|].
  cbn [parse_jobs].
  pose proof (Logged_api_call url params (HP url) log) as Hcall.
  destruct (_api_call server self url params log) as [[body|e] log'].
  - destruct (py_getitem body "jobs" ≫= (λ js, py_iter js)) as [todo|e].
    + pose proof (logged_parse_jobs_loop (λ u, parse_jobs server self depth u params)
                    (λ u l, IH u l) todo [] log') as Hloop.
      destruct (parse_jobs_loop server self (λ u, parse_jobs server self depth u params)
                  todo [] log') as [out|]; [|exact I].
      eapply logged_seq; [exact Hcall|exact Hloop].
    + eapply logged_seq; [exact Hcall|apply logged_here].
  - destruct Hcall as (c & Hc & Fc). exists c. auto.
Qed.

End Logged.

Definition follows_configuration (self : JenkinsCollector) (r : Request) : Prop :=
  req_verify r = negb (_insecure self) ∧
  req_auth r = credentials self ∧
  (req_params r = [("tree", tree_param)] ∨ req_params r = []).

Lemma request_for_follows (self : JenkinsCollector) (url : string)
    (params : list (string * string)) :
  params = [("tree", tree_param)] ∨ params = [] →
  follows_configuration self (request_for self url params).
Proof.
  intros Hp. split; [reflexivity|]. split; [|exact Hp].
  unfold request_for, credentials. cbn [req_auth].
  destruct (_user self) as [u|], (_password self) as [p|]; try reflexivity.
  unfold str_truthy. destruct (String.eqb u ""), (String.eqb p ""); reflexivity.
Qed.

(** X13. Every request of a scrape follows the configuration: TLS
    verification is on unless [insecure] is set, basic-auth credentials are
    sent exactly when both a user and a password are configured and
    non-empty, and the only query is the [tree] selector (on folder
    listings) or none (on build endpoints). *)
Theorem requests_follow_configuration
    (server : list Request → Request → Reply) (self : JenkinsCollector)
    (depth : nat) (log : list Request) (s : Scrape) :
  collect server self depth log = Some s →
  ∃ calls, requests s = log ++ calls ∧ Forall (follows_configuration self) calls.
Proof.
  unfold collect, _request_data. intros H.
  pose proof (logged_parse_jobs server self (follows_configuration self)
                (λ url, request_for_follows self url [] (or_intror eq_refl))
                depth [("tree", tree_param)]
                (λ url, request_for_follows self url _ (or_introl eq_refl))
                (_target self +:+ "/api/json") log) as Hl.
  destruct (parse_jobs server self depth (_target self +:+ "/api/json")
              [("tree", tree_param)] log) as [[r log']|]; [|discriminate].
  assert (Hlog : requests s = log').
  { destruct r as [jobs|e0]; [|now injection H as <-].
    destruct (project jobs self); [|now injection H as <-].
    destruct (yield_statuses statuses a). now injection H as <-. }
  rewrite Hlog. exact Hl.
Qed.

Lemma requests_follow_configuration_witness :
  let self := __init__ "http://jenkins:8080" (Some "admin") (Some "") true in
  match collect Examples.two_builds self 2 [] with
  | Some s => ∃ calls, requests s = [] ++ calls ∧ Forall (follows_configuration self) calls
  | None => False
  end.
Proof.
  intros self.
  assert (Hran : ran (collect Examples.two_builds self 2 []) = true)
    by (vm_compute; reflexivity).
  destruct (collect Examples.two_builds self 2 []) as [s|] eqn:E; [|discriminate Hran].
  exact (requests_follow_configuration Examples.two_builds self 2 [] s E).
Defined.

(** * The root request *)

Fixpoint slashes (n : nat) : string :=
  match n with
  | O => ""
  | S n => String "/" (slashes n)
  end.

Fixpoint ends_with_slash (s : string) : bool :=
  match s with
  | EmptyString => false
  | String c EmptyString => Ascii.eqb c "/"
  | String _ rest => ends_with_slash rest
  end.

Lemma append_cons (c : ascii) (s t : string) : String c s +:+ t = String c (s +:+ t).
Proof. reflexivity. Qed.

Lemma rstrip_slash_spec (s : string) :
  ∃ n, s = rstrip_slash s +:+ slashes n ∧ ends_with_slash (rstrip_slash s) = false.
Proof.
  induction s as [|c rest (n & Hrest & Hend)].
  - exists O. split; reflexivity.
  - cbn [rstrip_slash]. destruct (rstrip_slash rest) as [|c' r'] eqn:Hr.
    + destruct (Ascii.eqb_spec c "/") as [->|Hc].
      * exists (S n). split; [|reflexivity]. rewrite Hrest at 1. reflexivity.
      * exists n. split.
        -- rewrite Hrest at 1. reflexivity.
        -- cbn. now apply Ascii.eqb_neq.
    + exists n. split.
      * rewrite Hrest at 1. reflexivity.
      * exact Hend.
Qed.

Lemma parse_jobs_first_request
    (server : list Request → Request → Reply) (self : JenkinsCollector)
    (depth : nat) (url : string) (params : list (string * string))
    (log log' : list Request) (r : result (list pyval)) :
  parse_jobs server self depth url params log = Some (r, log') →
  ∃ rest, log' = log ++ request_for self url params :: rest.
Proof.
  destruct depth as [|depth]; [discriminate|]. cbn [parse_jobs]. unfold _api_call.
  destruct (read_reply url (server log (request_for self url params))) as [body|e].
  - destruct (py_getitem body "jobs" ≫= (λ js, py_iter js)) as [todo|e].
    + intros H.
      pose proof (traced_parse_jobs_loop server self
                    (λ u, parse_jobs server self depth u params)
                    (λ u l, traced_parse_jobs server self depth u params l)
                    todo [] (log ++ [request_for self url params])) as Ht.
      rewrite H in Ht. destruct Ht as (calls & Hc & _). simpl in Hc.
      exists calls. rewrite Hc, <- app_assoc. reflexivity.
    + intros [= <- <-]. exists []. reflexivity.
  - intros [= <- <-]. exists []. reflexivity.
Qed.

(** X14. The collector keeps its target without trailing slashes, and a
    scrape starts with one request to that target followed by [/api/json],
    carrying the [tree] selector. *)
Theorem scrape_starts_at_the_stripped_target
    (server : list Request → Request → Reply) (target : string)
    (user password : option string) (insecure : bool)
    (depth : nat) (log : list Request) (s : Scrape) :
  collect server (__init__ target user password insecure) depth log = Some s →
  ∃ n rest,
    target = _target (__init__ target user password insecure) +:+ slashes n ∧
    ends_with_slash (_target (__init__ target user password insecure)) = false ∧
    requests s
    = log ++ request_for (__init__ target user password insecure)
               (_target (__init__ target user password insecure) +:+ "/api/json")
               [("tree", tree_param)] :: rest.
Proof.
  set (self := __init__ target user password insecure).
  destruct (rstrip_slash_spec target) as (n & Hn & Hend).
  unfold collect, _request_data. intros H. exists n.
  destruct (parse_jobs server self depth (_target self +:+ "/api/json")
              [("tree", tree_param)] log) as [[r log']|] eqn:Hp; [|discriminate].
  apply parse_jobs_first_request in Hp as (rest & ->). exists rest.
  split; [exact Hn|]. split; [exact Hend|].
  destruct r as [jobs|e0]; [|now injection H as <-].
  destruct (project jobs self); [|now injection H as <-].
  destruct (yield_statuses statuses a). now injection H as <-.
Qed.

Lemma scrape_starts_at_the_stripped_target_witness :
  match collect Examples.nested (__init__ "http://jenkins:8080//" None None false) 3 [] with
  | Some s =>
      ∃ n rest,
        "http://jenkins:8080//"
        = _target (__init__ "http://jenkins:8080//" None None false) +:+ slashes n ∧
        ends_with_slash (_target (__init__ "http://jenkins:8080//" None None false)) = false ∧
        requests s
        = [] ++ request_for (__init__ "http://jenkins:8080//" None None false)
                  (_target (__init__ "http://jenkins:8080//" None None false) +:+ "/api/json")
                  [("tree", tree_param)] :: rest
  | None => False
  end.
Proof.
  assert (Hran : ran (collect Examples.nested
                        (__init__ "http://jenkins:8080//" None None false) 3 []) = true)
    by (vm_compute; reflexivity).
  destruct (collect Examples.nested (__init__ "http://jenkins:8080//" None None false) 3 [])
    as [s|] eqn:E; [|discriminate Hran].
  exact (scrape_starts_at_the_stripped_target Examples.nested "http://jenkins:8080//"
           None None false 3 [] s E).
Defined.

(** * Malformed and empty listings *)

(** X15. After a listing answered with status 200 and a dict body:
    without a [jobs] key [parse_jobs] raises [KeyError('jobs')]; with an
    empty [jobs] list it returns the empty list; with a first child that has
    no [_class] it raises [KeyError('_class')].  In each case exactly one
    request was made. *)
Theorem listing_edge_cases
    (server : list Request → Request → Reply) (self : JenkinsCollector)
    (depth : nat) (url : string) (params : list (string * string))
    (log : list Request) (d : list (string * pyval)) :
  server log (request_for self url params)
  = Responded {| status_code := 200; json := Some (PDict d) |} →
  (dict_lookup "jobs" d = None →
   parse_jobs server self (S depth) url params log
   = Some (Raise (KeyError "jobs"), log ++ [request_for self url params])) ∧
  (dict_lookup "jobs" d = Some (PList []) →
   parse_jobs server self (S depth) url params log
   = Some (Ok [], log ++ [request_for self url params])) ∧
  (∀ c rest, dict_lookup "jobs" d = Some (PList (PDict c :: rest)) →
             dict_lookup "_class" c = None →
             parse_jobs server self (S depth) url params log
             = Some (Raise (KeyError "_class"), log ++ [request_for self url params])).
Proof.
  intros Hreply. cbn [parse_jobs]. unfold _api_call. rewrite Hreply.
  cbn [read_reply status_code json Z.eqb Pos.eqb negb py_getitem].
  split; [|split].
  - intros ->. reflexivity.
  - intros ->. reflexivity.
  - intros c rest -> Hc. cbn [mbind result_bind py_iter parse_jobs_loop].
    unfold folder_kinds. cbn [class_among py_getitem]. rewrite Hc. reflexivity.
Qed.

Lemma listing_edge_cases_witness :
  parse_jobs (λ _ _, Examples.ok (PDict [("jobs", PList [])])) Examples.collector 1
    "http://jenkins:8080/api/json" [] []
  = Some (Ok [], [] ++ [request_for Examples.collector "http://jenkins:8080/api/json" []]).
Proof.
  destruct (listing_edge_cases (λ _ _, Examples.ok (PDict [("jobs", PList [])]))
              Examples.collector 0 "http://jenkins:8080/api/json" [] []
              [("jobs", PList [])]) as (_ & Hempty & _).
  - reflexivity.
  - apply Hempty. reflexivity.
Defined.

(** X16. A pipeline or freestyle job whose [builds] is a non-empty value
    other than a list (a number, [true], a string, a dict) makes
    [parse_job_runs] raise [TypeError] before any request is made. *)
Theorem builds_must_be_a_list
    (server : list Request → Request → Reply) (self : JenkinsCollector)
    (d : list (string * pyval)) (c b : pyval) (log : list Request) :
  dict_lookup "_class" d = Some c → is_run_class c →
  dict_lookup "builds" d = Some b → truthy b = true →
  (∀ l, b ≠ PList l) →
  parse_job_runs server self (PDict d) log = (Raise TypeError, log).
Proof.
  intros Hc Hrun Hb Ht Hnl. unfold parse_job_runs.
  rewrite (M_bind_run _ _ log log true)
    by (unfold lift; rewrite (class_among_found d c) by assumption;
        now rewrite (proj2 (run_class_test c) Hrun)).
  rewrite (M_bind_run _ _ log log b) by (unfold lift; now rewrite (py_get_found _ _ _ _ Hb)).
  rewrite Ht. unfold mbind at 1, M_bind, lift.
  destruct b as [| | | |s|l|kvs]; try discriminate; try reflexivity.
  - destruct s as [|ch s]; [discriminate|]. reflexivity.
  - now destruct (Hnl l).
  - destruct kvs as [|[k v] kvs]; [discriminate|]. reflexivity.
Qed.

Lemma builds_must_be_a_list_witness :
  parse_job_runs Examples.two_builds Examples.collector
    (PDict [("_class", PStr WorkflowJob); ("builds", PDict [("url", PStr "b1/")])]) []
  = (Raise TypeError, []).
Proof.
  apply (builds_must_be_a_list Examples.two_builds Examples.collector
           [("_class", PStr WorkflowJob); ("builds", PDict [("url", PStr "b1/")])]
           (PStr WorkflowJob) (PDict [("url", PStr "b1/")]) []).
  - reflexivity.
  - left. reflexivity.
  - reflexivity.
  - reflexivity.
  - discriminate.
Defined.

(** * The status token *)

Fixpoint no_upper (s : string) : bool :=
  match s with
  | EmptyString => true
  | String c rest => negb (is_upper c) && no_upper rest
  end.

Fixpoint count_upper (s : string) : nat :=
  match s with
  | EmptyString => 0
  | String c rest => ((if is_upper c then 1 else 0) + count_upper rest)%nat
  end.

Lemma lower_char_not_upper (c : ascii) : is_upper (lower_char c) = false.
Proof.
  unfold lower_char. destruct (is_upper c) eqn:Hc; [|exact Hc].
  unfold is_upper in *. apply andb_true_iff in Hc as (Hlo & Hhi).
  apply Nat.leb_le in Hlo, Hhi.
  rewrite nat_ascii_embedding by lia.
  apply andb_false_iff. right. apply Nat.leb_gt. lia.
Qed.

Lemma snake_case_no_upper (s : string) :
  no_upper (snake_case s) = true ∧
  String.length (snake_case s) = (String.length s + count_upper s)%nat.
Proof.
  unfold snake_case. induction s as [|c s (IHn & IHl)]; [split; reflexivity|].
  cbn [re_sub_upper count_upper]. destruct (is_upper c) eqn:Hc.
  - cbn [lower no_upper String.length]. rewrite !lower_char_not_upper, IHn, IHl.
    split; [reflexivity|]. simpl. lia.
  - cbn [lower no_upper String.length]. rewrite !lower_char_not_upper, IHn, IHl.
    split; [reflexivity|]. simpl. lia.
Qed.

Lemma lower_char_ascii (c : ascii) : is_ascii c = true → is_ascii (lower_char c) = true.
Proof.
  unfold lower_char. destruct (is_upper c) eqn:Hc; [|auto]. intros _.
  unfold is_upper in Hc. apply andb_true_iff in Hc as (Hlo & Hhi).
  apply Nat.leb_le in Hlo, Hhi. unfold is_ascii.
  rewrite nat_ascii_embedding by lia. apply Nat.ltb_lt. lia.
Qed.

Lemma snake_case_ascii_only (s : string) :
  ascii_only s = true → ascii_only (snake_case s) = true.
Proof.
  unfold snake_case. induction s as [|c s IH]; [reflexivity|].
  cbn [ascii_only re_sub_upper]. intros H. apply andb_true_iff in H as (Hc & Hs).
  destruct (is_upper c); cbn [lower ascii_only];
    rewrite (lower_char_ascii c Hc), (IH Hs); reflexivity.
Qed.

(** X17. For every ASCII string [s], the status token computed by
    [re.sub('([A-Z])', '_\\1', s).lower()] is an ASCII string without
    uppercase letter, longer than [s] by the number of uppercase letters
    of [s] (one underscore each). *)
Theorem snake_case_shape (s : string) :
  ascii_only s = true →
  ascii_only (snake_case s) = true ∧
  no_upper (snake_case s) = true ∧
  String.length (snake_case s) = (String.length s + count_upper s)%nat.
Proof.
  intros Hs. split; [now apply snake_case_ascii_only|]. apply snake_case_no_upper.
Qed.

Lemma snake_case_shape_witness :
  no_upper (snake_case "lastUnsuccessfulBuild") = true ∧
  String.length (snake_case "lastUnsuccessfulBuild") = 23%nat.
Proof. exact (proj2 (snake_case_shape "lastUnsuccessfulBuild" eq_refl)). Defined.

(** * Snapshots that are not objects *)

(** X18. Under a status key, every falsy value (null, false, 0, the empty
    string, list or dict) is projected like an empty snapshot, and a truthy
    value that is not a dict (a number, [true], a non-empty string or list)
    makes the projection raise [AttributeError]. *)
Theorem snapshot_must_be_an_object
    (s : string) (v job label : pyval) (self : JenkinsCollector) :
  (truthy v = false →
   _add_data_to_prometheus_structure s (or_empty_dict v) job label self
   = _add_data_to_prometheus_structure s (PDict []) job label self) ∧
  (truthy v = true → (∀ d, v ≠ PDict d) →
   _add_data_to_prometheus_structure s (or_empty_dict v) job label self
   = Raise AttributeError).
Proof.
  unfold or_empty_dict. split.
  - intros ->. reflexivity.
  - intros -> Hnd. destruct v; try reflexivity. now destruct (Hnd d).
Qed.

Lemma snapshot_must_be_an_object_witness :
  _add_data_to_prometheus_structure "lastBuild" (or_empty_dict (PInt 7))
    (PDict []) (PStr "x") (_setup_empty_prometheus_metrics Examples.collector)
  = Raise AttributeError.
Proof.
  destruct (snapshot_must_be_an_object "lastBuild" (PInt 7) (PDict []) (PStr "x")
              (_setup_empty_prometheus_metrics Examples.collector)) as (_ & H).
  apply H; [reflexivity|discriminate].
Defined.
